(** * LLaVA vision adapter: [lightllm/models/llava/llava_visual.py]

    A shallow embedding of [LlavaVisionModel] (weight loading, device
    placement, the forward pass and [encode]) together with the properties
    its specification states.

    Conventions.
    - Python integers are [Z]; tensor dimensions are [nat].
    - A Python exception is a value of [exn]; code that may raise returns
      [result].  Methods that assign attributes of [self] ([load_model],
      [load_hf_model], [load_bin_model], [cuda]) run in the state monad [M]
      over the object and a log of the external loader calls.  [forward] and
      [encode] only read [self] and take it as an argument.
    - Everything the module imports (torch, transformers, safetensors, PIL,
      the file system and the shared-memory store) is reached through the
      record [Env]; only the data re-arranging tensor operations the claims
      speak about (shape, indexing, slicing, [view], [cat], [half], [cuda])
      are given by definitions, over tensors stored row-major.
    - A transfer to the accelerator can be refused (no usable device, no
      memory left): whether it is, is asked of [Env], and [.cuda()] raises
      then. *)

From stdpp Require Import gmap strings list fin_maps.
From Stdlib Require Import ZArith Strings.Byte.

Set Default Proof Using "Type".
Set Warnings "-register-all".

(** ** Python strings *)

Module PyStr.

(** [s.startswith(p)] *)
Fixpoint startswith (p s : string) : bool :=
  match p, s with
  | EmptyString, _ => true
  | String a p', String b s' => if Ascii.eqb a b then startswith p' s' else false
  | String _ _, EmptyString => false
  end.

(** [p in s] for two strings *)
Fixpoint contains (p s : string) : bool :=
  startswith p s ||
  match s with
  | EmptyString => false
  | String _ s' => contains p s'
  end.

(** [s.endswith(p)] *)
Fixpoint endswith (p s : string) : bool :=
  String.eqb p s ||
  match s with
  | EmptyString => false
  | String _ s' => endswith p s'
  end.

(** [s.replace(old, new)] for a non-empty [old]: occurrences are replaced
    left to right and do not overlap.  [skip] counts the characters of an
    occurrence just replaced that are still to be passed over. *)
Fixpoint replace_from (old new : string) (skip : nat) (s : string) : string :=
  match s with
  | EmptyString => EmptyString
  | String c s' =>
      match skip with
      | S k => replace_from old new k s'
      | O =>
          if startswith old s
          then new +:+ replace_from old new (String.length old - 1) s'
          else String c (replace_from old new 0 s')
      end
  end.

Definition replace (old new s : string) : string := replace_from old new 0 s.

(** [os.path.join(a, b)] on a POSIX system *)
Definition path_join (a b : string) : string :=
  if startswith "/" b then b
  else if String.eqb a EmptyString || endswith "/" a then a +:+ b
  else a +:+ "/" +:+ b.

(** The proposition behind [contains]: [p] occurs in [s]. *)
Definition occurs_in (p s : string) : Prop :=
  ∃ pre post, s = pre +:+ p +:+ post.

End PyStr.

(** ** Python values, exceptions and results *)

(** The values a JSON document or a configuration attribute can hold. *)
Inductive pyval :=
| VNone
| VBool (b : bool)
| VInt (z : Z)
| VFloat (bits : Z)    (* binary64 bit pattern, never inspected *)
| VStr (s : string)
| VList (l : list pyval)
| VDict (kvs : list (string * pyval)).

Inductive exn :=
| AssertionError
| AttributeError (name : string)
| KeyError (key : string)
| IndexError
| TypeError
| ValueError
| RuntimeError
| Exception (msg : string)
| External (msg : string).   (* raised inside an imported library *)

(** [str(e)] *)
Definition exn_message (e : exn) : string :=
  match e with
  | AssertionError => EmptyString
  | AttributeError n => n
  | KeyError k => k
  | IndexError => "index out of range"
  | TypeError => "bad operand type"
  | ValueError => "wrong number of values to unpack"
  | RuntimeError => "runtime error"
  | Exception m => m
  | External m => m
  end.

Inductive result (A : Type) :=
| Ok (a : A)
| Raise (e : exn).
Arguments Ok {A} a.
Arguments Raise {A} e.

(** What a call into an imported library gives back. *)
Inductive outcome (A : Type) :=
| Done (a : A)
| Failed (msg : string).
Arguments Done {A} a.
Arguments Failed {A} msg.

Definition call {A} (o : outcome A) : result A :=
  match o with
  | Done a => Ok a
  | Failed m => Raise (External m)
  end.

#[global] Instance result_ret : MRet result := λ A a, Ok a.
#[global] Instance result_bind : MBind result := λ A B f r,
  match r with
  | Ok a => f a
  | Raise e => Raise e
  end.

(** [l[i]] on a tuple or list, negative indices counting from the end. *)
Definition py_index {A} (l : list A) (i : Z) : result A :=
  let n := Z.of_nat (length l) in
  let j := if (i <? 0)%Z then (n + i)%Z else i in
  if ((j <? 0) || (n <=? j))%Z then Raise IndexError
  else match l !! Z.to_nat j with
       | Some a => Ok a
       | None => Raise IndexError
       end.

(** A value used as a sequence index: [int] and its subclass [bool]. *)
Definition as_index (v : pyval) : result Z :=
  match v with
  | VInt z => Ok z
  | VBool b => Ok (if b then 1%Z else 0%Z)
  | _ => Raise TypeError
  end.

(** [v == s] for a string literal [s] *)
Definition py_eq_str (v : pyval) (s : string) : bool :=
  match v with
  | VStr s' => String.eqb s' s
  | _ => false
  end.

(** Lookup in the items of a dict. *)
Fixpoint assoc_get (k : string) (kvs : list (string * pyval)) : option pyval :=
  match kvs with
  | [] => None
  | (k', v) :: rest => if String.eqb k' k then Some v else assoc_get k rest
  end.

(** [key in v] *)
Definition py_in (key : string) (v : pyval) : result bool :=
  match v with
  | VDict kvs => Ok (match assoc_get key kvs with Some _ => true | None => false end)
  | VList l => Ok (existsb (λ x, py_eq_str x key) l)
  | VStr s => Ok (PyStr.contains key s)
  | _ => Raise TypeError
  end.

(** [v.get(key, default)] *)
Definition py_get (v : pyval) (key : string) (dflt : pyval) : result pyval :=
  match v with
  | VDict kvs => Ok (default dflt (assoc_get key kvs))
  | _ => Raise (AttributeError "get")
  end.

(** ** Tensors

    A tensor is its element type, its device, its shape and its elements in
    row-major order.  What the framework computes on the elements (rounding
    to half precision, the linear layers, GELU, the vision tower) stays
    abstract. *)

Inductive torch_dtype := Float16 | Float32.
Inductive torch_device := Cpu | Cuda.

#[global] Instance torch_dtype_eq_dec : EqDecision torch_dtype.
Proof. solve_decision. Defined.
#[global] Instance torch_device_eq_dec : EqDecision torch_device.
Proof. solve_decision. Defined.

(** Type promotion between the two floating types. *)
Definition promote (a b : torch_dtype) : torch_dtype :=
  match a, b with
  | Float16, Float16 => Float16
  | _, _ => Float32
  end.

Definition numel (shape : list nat) : nat := foldr Nat.mul 1 shape.

Section Tensors.
Context {R : Type}.

Record Tensor := mkTensor {
  t_dtype : torch_dtype;
  t_device : torch_device;
  t_shape : list nat;
  t_data : list R;
}.

(** Shape and contents agree. *)
Definition t_wf (t : Tensor) : Prop := length (t_data t) = numel (t_shape t).

(** [t.half()]: a tensor that is already half precision is returned as it
    is; [round] is the framework's rounding of one element. *)
Definition t_half (round : R → R) (t : Tensor) : Tensor :=
  match t_dtype t with
  | Float16 => t
  | Float32 => mkTensor Float16 (t_device t) (t_shape t) (round <$> t_data t)
  end.

(** The tensor [t] on the accelerator: what [t.cuda()] gives when the
    device takes it. *)
Definition t_cuda (t : Tensor) : Tensor :=
  mkTensor (t_dtype t) Cuda (t_shape t) (t_data t).

(** [k] consecutive blocks of [n] elements *)
Fixpoint chunks (n k : nat) (l : list R) : list (list R) :=
  match k with
  | O => []
  | S k' => take n l :: chunks n k' (drop n l)
  end.

(** [t[:, 1:].contiguous()] *)
Definition slice_from1 (t : Tensor) : result Tensor :=
  match t_shape t with
  | d0 :: d1 :: rest =>
      let stride := numel rest in
      Ok (mkTensor (t_dtype t) (t_device t) (d0 :: (d1 - 1) :: rest)
            (concat (drop stride <$> chunks (d1 * stride) d0 (t_data t))))
  | _ => Raise IndexError
  end.

(** [B, L, N = shape] *)
Definition unpack3 (shape : list nat) : result (nat * nat * nat) :=
  match shape with
  | [b; l; n] => Ok (b, l, n)
  | _ => Raise ValueError
  end.

(** [t.view(-1, n)] *)
Definition view_rows (t : Tensor) (n : nat) : result Tensor :=
  let total := numel (t_shape t) in
  if n =? 0 then Raise RuntimeError
  else if total mod n =? 0
       then Ok (mkTensor (t_dtype t) (t_device t) [total / n; n] (t_data t))
       else Raise RuntimeError.

(** [t.view(b, l, -1)] *)
Definition view_batch (t : Tensor) (b l : nat) : result Tensor :=
  let total := numel (t_shape t) in
  if b * l =? 0 then Raise RuntimeError
  else if total mod (b * l) =? 0
       then Ok (mkTensor (t_dtype t) (t_device t) [b; l; total / (b * l)] (t_data t))
       else Raise RuntimeError.

(** The one-dimensional empty tensor, which [torch.cat] passes over. *)
Definition legacy_empty (t : Tensor) : bool :=
  bool_decide (t_shape t = [0]).

(** [torch.cat(acc :: ts, dim=0)], [acc] holding what is joined so far *)
Fixpoint cat_onto (acc : Tensor) (ts : list Tensor) : result Tensor :=
  match ts with
  | [] => Ok acc
  | t :: rest =>
      if negb (bool_decide (t_device acc = t_device t)) then Raise RuntimeError
      else if bool_decide (t_shape t = []) then Raise RuntimeError
      else
        let dt := promote (t_dtype acc) (t_dtype t) in
        if legacy_empty t
        then cat_onto (mkTensor dt (t_device acc) (t_shape acc) (t_data acc)) rest
        else if legacy_empty acc
        then cat_onto (mkTensor dt (t_device t) (t_shape t) (t_data t)) rest
        else
          match t_shape acc, t_shape t with
          | d :: tl, d' :: tl' =>
              if bool_decide (tl = tl')
              then cat_onto (mkTensor dt (t_device acc) ((d + d') :: tl)
                               (t_data acc ++ t_data t)) rest
              else Raise RuntimeError
          | _, _ => Raise RuntimeError
          end
  end.

(** [torch.cat(ts, dim=0)] *)
Definition cat0 (ts : list Tensor) : result Tensor :=
  match ts with
  | [] => Raise RuntimeError
  | t :: rest =>
      match t_shape t with
      | [] => Raise RuntimeError
      | _ :: _ => cat_onto t rest
      end
  end.

End Tensors.
Arguments Tensor R : clear implicits.

(** ** The objects the adapter holds and the libraries it calls *)

Section Model.
Context {R Image : Type}.

(** An image processor: [preprocess(image, return_tensors="pt")["pixel_values"]] *)
Record ImageProcessor := mkImageProcessor {
  preprocess : Image → outcome (Tensor R);
}.

(** A vision tower: its parameters' type and device, whether they take
    gradients, and the network, which gives the tuple [hidden_states]. *)
Record VisionTower := mkVisionTower {
  vt_dtype : torch_dtype;
  vt_device : torch_device;
  vt_requires_grad : bool;
  vt_net : torch_dtype → torch_device → Tensor R → outcome (list (Tensor R));
}.

(** [tower(x, output_hidden_states=True).hidden_states] *)
Definition vt_call (vt : VisionTower) (x : Tensor R) : outcome (list (Tensor R)) :=
  vt_net vt (vt_dtype vt) (vt_device vt) x.

Definition vt_half (vt : VisionTower) : VisionTower :=
  mkVisionTower Float16 (vt_device vt) (vt_requires_grad vt) (vt_net vt).
(** The tower on the accelerator: what [tower.cuda()] gives when the device
    takes it. *)
Definition vt_cuda (vt : VisionTower) : VisionTower :=
  mkVisionTower (vt_dtype vt) Cuda (vt_requires_grad vt) (vt_net vt).
Definition requires_grad_ (vt : VisionTower) (b : bool) : VisionTower :=
  mkVisionTower (vt_dtype vt) (vt_device vt) b (vt_net vt).

(** What [AutoConfig.from_pretrained] gives, as far as it is read. *)
Record HFConfig := mkHFConfig {
  vision_feature_layer : pyval;
  vision_feature_select_strategy : pyval;
}.

(** What [AutoProcessor.from_pretrained] gives. *)
Record Processor := mkProcessor {
  processor_image_processor : ImageProcessor;
}.

(** What [LlavaForConditionalGeneration.from_pretrained] gives. *)
Record LlavaModel := mkLlavaModel {
  model_vision_tower : VisionTower;
}.

(** An open safetensors file: [keys()] and [get_tensor(k)]. *)
Record SafeFile := mkSafeFile {
  sf_keys : list string;
  sf_get_tensor : string → outcome (Tensor R);
}.

(** The imported libraries.  [read_shm] and [get_shm_name_data] belong to
    [lightllm.server.embed_cache.utils]: the store is a service that reads
    the byte blob named after an identifier.  [tensor_cuda_error] and
    [module_cuda_error] are the accelerator: for a tensor or a module that
    is not on it, [None] when the device takes it and the message of the
    error that [.cuda()] raises when it does not. *)
Record Env := mkEnv {
  to_half : R → R;
  F_linear : Tensor R → Tensor R → Tensor R → outcome (Tensor R);
  F_gelu : Tensor R → outcome (Tensor R);
  json_load : string → outcome pyval;
  listdir : string → outcome (list string);
  auto_config : string → outcome HFConfig;
  auto_processor : string → outcome Processor;
  llava_from_pretrained : string → torch_dtype → outcome LlavaModel;
  safe_open : string → outcome SafeFile;
  clip_image_processor : string → outcome ImageProcessor;
  clip_vision_model : string → outcome VisionTower;
  torch_load : string → outcome (list (string * Tensor R));
  get_shm_name_data : Z → string;
  read_shm : string → outcome (list byte);
  image_open : list byte → outcome Image;
  image_convert : Image → string → outcome Image;
  tensor_cuda_error : Tensor R → option string;
  module_cuda_error : VisionTower → option string;
}.

(** The calls into the loaders, as they are logged. *)
Inductive event :=
| EvOpen (path : string)
| EvListdir (path : string)
| EvAutoConfig (path : string)
| EvAutoProcessor (path : string)
| EvLlavaForConditionalGeneration (path : string)
| EvSafeOpen (path : string)
| EvCLIPImageProcessor (path : string)
| EvCLIPVisionModel (path : string)
| EvTorchLoad (path : string).

(** The attributes of a [LlavaVisionModel]; [None] is an attribute not yet
    assigned. *)
Record LlavaVisionModel := mkLlavaVisionModel {
  vision_tower : option VisionTower;
  device : option torch_device;
  image_processor : option ImageProcessor;
  select_layer : option pyval;
  select_feature : option pyval;
  projector_weights : option (gmap string (Tensor R));
}.

(** [LlavaVisionModel()] *)
Definition init : LlavaVisionModel :=
  mkLlavaVisionModel None None None None None None.

Definition set_vision_tower (v : VisionTower) (o : LlavaVisionModel) :=
  mkLlavaVisionModel (Some v) (device o) (image_processor o)
    (select_layer o) (select_feature o) (projector_weights o).
Definition set_device (v : torch_device) (o : LlavaVisionModel) :=
  mkLlavaVisionModel (vision_tower o) (Some v) (image_processor o)
    (select_layer o) (select_feature o) (projector_weights o).
Definition set_image_processor (v : ImageProcessor) (o : LlavaVisionModel) :=
  mkLlavaVisionModel (vision_tower o) (device o) (Some v)
    (select_layer o) (select_feature o) (projector_weights o).
Definition set_select_layer (v : pyval) (o : LlavaVisionModel) :=
  mkLlavaVisionModel (vision_tower o) (device o) (image_processor o)
    (Some v) (select_feature o) (projector_weights o).
Definition set_select_feature (v : pyval) (o : LlavaVisionModel) :=
  mkLlavaVisionModel (vision_tower o) (device o) (image_processor o)
    (select_layer o) (Some v) (projector_weights o).
Definition set_projector_weights (v : gmap string (Tensor R)) (o : LlavaVisionModel) :=
  mkLlavaVisionModel (vision_tower o) (device o) (image_processor o)
    (select_layer o) (select_feature o) (Some v).

(** *** The monad of the methods that assign attributes *)

Record World := mkWorld {
  self : LlavaVisionModel;
  trace : list event;
}.

Definition M (A : Type) : Type := World → result A * World.

#[global] Instance M_ret : MRet M := λ A a w, (Ok a, w).
#[global] Instance M_bind : MBind M := λ A B f m w,
  match m w with
  | (Ok a, w') => f a w'
  | (Raise e, w') => (Raise e, w')
  end.

Definition raise {A} (e : exn) : M A := λ w, (Raise e, w).
Definition lift {A} (r : result A) : M A := λ w, (r, w).

(** A logged call into a loader. *)
Definition extern {A} (ev : event) (o : outcome A) : M A :=
  λ w, (call o, mkWorld (self w) (trace w ++ [ev])).

(** [self.name] *)
Definition getattr {A} (name : string) (proj : LlavaVisionModel → option A) : M A :=
  λ w, match proj (self w) with
       | Some a => (Ok a, w)
       | None => (Raise (AttributeError name), w)
       end.

(** [self.name = v] *)
Definition setattr (upd : LlavaVisionModel → LlavaVisionModel) : M unit :=
  λ w, (Ok tt, mkWorld (upd (self w)) (trace w)).

(** [for x in l: body(x)] *)
Fixpoint for_each {A} (l : list A) (body : A → M unit) : M unit :=
  match l with
  | [] => mret tt
  | x :: rest => body x ;; for_each rest body
  end.

(** [self.projector_weights[k] = v] *)
Definition store_weight (k : string) (v : Tensor R) : M unit :=
  pw ← getattr "projector_weights" projector_weights;
  setattr (set_projector_weights (<[k := v]> pw)).

(** [assert k in self.projector_weights] *)
Definition assert_weight (k : string) : M unit :=
  pw ← getattr "projector_weights" projector_weights;
  if bool_decide (is_Some (pw !! k)) then mret tt else raise AssertionError.

(** [self.name], read by a method that does not assign *)
Definition attr {A} (name : string) (o : option A) : result A :=
  match o with
  | Some a => Ok a
  | None => Raise (AttributeError name)
  end.

(** [d[k]] *)
Definition getitem (d : gmap string (Tensor R)) (k : string) : result (Tensor R) :=
  match d !! k with
  | Some v => Ok v
  | None => Raise (KeyError k)
  end.

End Model.
Arguments ImageProcessor R Image : clear implicits.
Arguments VisionTower R : clear implicits.
Arguments SafeFile R : clear implicits.
Arguments Env R Image : clear implicits.
Arguments LlavaVisionModel R Image : clear implicits.
Arguments World R Image : clear implicits.
Arguments M R Image A : clear implicits.
Arguments set_vision_tower {R Image} v o /.
Arguments set_device {R Image} v o /.
Arguments set_image_processor {R Image} v o /.
Arguments set_select_layer {R Image} v o /.
Arguments set_select_feature {R Image} v o /.
Arguments set_projector_weights {R Image} v o /.

(** ** Items passed to [encode] *)

(** Modelled from the spec: [ImageItem] of [lightllm.server.multimodal_params],
    an identifier (uuid) referencing image bytes held in the shared-memory
    store. *)
Record ImageItem := mkImageItem {
  uuid : Z;
}.

(** Any other object: the name of its type and its [str()]. *)
Record PyObject := mkPyObject {
  py_type_name : string;
  py_str : string;
}.

Inductive item :=
| ItImage (img : ImageItem)
| ItOther (o : PyObject).

(** [isinstance(img, ImageItem)] *)
Definition is_image_item (it : item) : bool :=
  match it with
  | ItImage _ => true
  | ItOther _ => false
  end.

(** [str(type(o))] *)
Definition type_repr (o : PyObject) : string :=
  "<class '" +:+ py_type_name o +:+ "'>".

(** ["Unsupport input types: {} for {}".format(type(img), img)] *)
Definition unsupported_msg (o : PyObject) : string :=
  "Unsupport input types: " +:+ type_repr o +:+ " for " +:+ py_str o.

(** ** class LlavaVisionModel *)

Section Source.
Context {R Image : Type}.
Variable E : Env R Image.

#[local] Abbreviation Tensor := (Tensor R).
#[local] Abbreviation M := (M R Image).
#[local] Abbreviation LlavaVisionModel := (LlavaVisionModel R Image).

(** [load_hf_model], lines 39-68.  The two assignments of [None] to
    submodules of the local [model] free memory and are not represented. *)
Definition load_hf_model (config : pyval) (weight_dir : string) : M unit :=
  config ← extern (EvAutoConfig weight_dir) (auto_config E weight_dir);
  setattr (set_select_layer (vision_feature_layer config));;
  setattr (set_select_feature (vision_feature_select_strategy config));;
  processor ← extern (EvAutoProcessor weight_dir) (auto_processor E weight_dir);
  setattr (set_image_processor (processor_image_processor processor));;
  model ← extern (EvLlavaForConditionalGeneration weight_dir)
            (llava_from_pretrained E weight_dir Float16);
  setattr (set_vision_tower (model_vision_tower model));;
  setattr (set_projector_weights ∅);;
  files ← extern (EvListdir weight_dir) (listdir E weight_dir);
  for_each files (λ f,
    if PyStr.endswith ".safetensors" f then
      d ← extern (EvSafeOpen (PyStr.path_join weight_dir f))
            (safe_open E (PyStr.path_join weight_dir f));
      for_each (sf_keys d) (λ k,
        (if PyStr.contains "multi_modal_projector.linear_1" k then
           v ← lift (call (sf_get_tensor d k));
           store_weight
             (PyStr.replace "multi_modal_projector.linear_1" "model.mm_projector.0" k)
             (t_half (to_half E) v)
         else mret tt);;
        (if PyStr.contains "multi_modal_projector.linear_2" k then
           v ← lift (call (sf_get_tensor d k));
           store_weight
             (PyStr.replace "multi_modal_projector.linear_2" "model.mm_projector.2" k)
             (t_half (to_half E) v)
         else mret tt))
    else mret tt).

(** [load_bin_model], lines 70-94 *)
Definition load_bin_model (config : pyval) (weight_dir : string) : M unit :=
  sl ← lift (py_get config "mm_vision_select_layer" (VInt (-2)));
  setattr (set_select_layer sl);;
  sf ← lift (py_get config "mm_vision_select_feature" (VStr "patch"));
  setattr (set_select_feature sf);;
  vision_path ← lift (py_get config "mm_vision_tower"
                        (VStr "openai/clip-vit-large-patch14-336"));
  vision_path ← match vision_path with
                | VList l => lift (py_index l 0)
                | _ => mret vision_path
                end;
  vision_path ← match vision_path with
                | VStr p =>
                    mret (if PyStr.startswith "./" p
                          then PyStr.path_join weight_dir p else p)
                | _ => raise (AttributeError "startswith")
                end;
  ip ← extern (EvCLIPImageProcessor vision_path) (clip_image_processor E vision_path);
  setattr (set_image_processor ip);;
  vt ← extern (EvCLIPVisionModel vision_path) (clip_vision_model E vision_path);
  setattr (set_vision_tower (vt_half vt));;
  setattr (set_projector_weights ∅);;
  files ← extern (EvListdir weight_dir) (listdir E weight_dir);
  for_each files (λ f,
    if PyStr.endswith ".bin" f then
      d ← extern (EvTorchLoad (PyStr.path_join weight_dir f))
            (torch_load E (PyStr.path_join weight_dir f));
      for_each d (λ '(k, v),
        if PyStr.contains "model.mm_projector" k
        then store_weight k (t_half (to_half E) v)
        else mret tt)
    else mret tt).

(** Lines 22-29 of [load_model]: the configuration is read and one of the
    two loaders runs. *)
Definition load_weights (weight_dir : string) : M unit :=
  let config_file := PyStr.path_join weight_dir "config.json" in
  config ← extern (EvOpen config_file) (json_load E config_file);
  has_text_config ← lift (py_in "text_config" config);
  if has_text_config : bool
  then load_hf_model config weight_dir
  else load_bin_model config weight_dir.

(** Lines 31-37 of [load_model] *)
Definition check_loaded : M unit :=
  vt ← getattr "vision_tower" vision_tower;
  setattr (set_vision_tower (requires_grad_ vt false));;
  setattr (set_device Cpu);;
  assert_weight "model.mm_projector.0.weight";;
  assert_weight "model.mm_projector.0.bias";;
  assert_weight "model.mm_projector.2.weight";;
  assert_weight "model.mm_projector.2.bias".

(** [load_model], lines 21-37 *)
Definition load_model (weight_dir : string) : M unit :=
  load_weights weight_dir;;
  check_loaded.

(** [t.cuda()]: a tensor that is on the accelerator is returned as it is;
    another one is copied there, unless the device refuses it. *)
Definition to_cuda (t : Tensor) : outcome Tensor :=
  match t_device t with
  | Cuda => Done t
  | Cpu =>
      match tensor_cuda_error E t with
      | Some msg => Failed msg
      | None => Done (t_cuda t)
      end
  end.

(** [tower.cuda()], likewise.  The tower has one device for all its
    parameters: a transfer that is refused leaves it where it was. *)
Definition vt_to_cuda (vt : VisionTower R) : outcome (VisionTower R) :=
  match vt_device vt with
  | Cuda => Done vt
  | Cpu =>
      match module_cuda_error E vt with
      | Some msg => Failed msg
      | None => Done (vt_cuda vt)
      end
  end.

(** [cuda], lines 96-100; the method returns [self], which is the object
    of the resulting world.  The items are visited in the order of
    [map_to_list]: like the order of a dict, it stays the same when values
    are reassigned. *)
Definition cuda : M unit :=
  vt ← getattr "vision_tower" vision_tower;
  vt ← lift (call (vt_to_cuda vt));
  setattr (set_vision_tower vt);;
  pw ← getattr "projector_weights" projector_weights;
  for_each (map_to_list pw)
    (λ '(k, v), v ← lift (call (to_cuda v)); store_weight k v).

(** Lines 104-106 of [forward]: the hidden state at [select_layer] *)
Definition select_hidden (self : LlavaVisionModel) (x : Tensor) : result Tensor :=
  x ← call (to_cuda (t_half (to_half E) x));
  vt ← attr "vision_tower" (vision_tower self);
  hidden_states ← call (vt_call vt x);
  sl ← attr "select_layer" (select_layer self);
  i ← as_index sl;
  py_index hidden_states i.

(** Lines 107-108 of [forward]: the tokens that are kept *)
Definition select_tokens (self : LlavaVisionModel) (x : Tensor) : result Tensor :=
  sf ← attr "select_feature" (select_feature self);
  if py_eq_str sf "patch" || py_eq_str sf "default"
  then slice_from1 x
  else Ok x.

(** Lines 109-125 of [forward]: the projector *)
Definition mm_project (self : LlavaVisionModel) (x : Tensor) : result Tensor :=
  '(B, L, N) ← unpack3 (t_shape x);
  x ← view_rows x N;
  let x := t_half (to_half E) x in
  pw ← attr "projector_weights" (projector_weights self);
  w0 ← getitem pw "model.mm_projector.0.weight";
  b0 ← getitem pw "model.mm_projector.0.bias";
  x ← call (F_linear E x w0 b0);
  x ← call (F_gelu E x);
  w2 ← getitem pw "model.mm_projector.2.weight";
  b2 ← getitem pw "model.mm_projector.2.bias";
  x ← call (F_linear E x w2 b2);
  view_batch x B L.

(** [forward], lines 103-125 *)
Definition forward (self : LlavaVisionModel) (x : Tensor) : result Tensor :=
  x ← select_hidden self x;
  x ← select_tokens self x;
  mm_project self x.

(** The local variables of [encode]. *)
Record enc_state := mkEncState {
  img_tensors : list Tensor;
  uuids : list Z;
  valid_id : Z;
  valid_ids : list (list Z);
}.

(** One turn of the loop of [encode], lines 134-145 *)
Definition encode_step (self : LlavaVisionModel) (st : enc_state) (img : item)
  : result enc_state :=
  st ← match img with
       | ItImage im =>
           let uuids' := uuids st ++ [uuid im] in
           image_data ← call (read_shm E (get_shm_name_data E (uuid im)));
           image_data ← call (image_open E image_data);
           image_data ← call (image_convert E image_data "RGB");
           ip ← attr "image_processor" (image_processor self);
           t ← call (preprocess ip image_data);
           Ok (mkEncState (img_tensors st ++ [t]) uuids' (valid_id st) (valid_ids st))
       | ItOther o => Raise (Exception (unsupported_msg o))
       end;
  last ← py_index (img_tensors st) (-1);
  cur_num ← py_index (t_shape last) 0;
  Ok (mkEncState (img_tensors st) (uuids st)
        (valid_id st + Z.of_nat cur_num)%Z
        (valid_ids st ++ [[valid_id st; (valid_id st + Z.of_nat cur_num)%Z]])).

(** The loop of [encode], lines 133-145 *)
Fixpoint encode_loop (self : LlavaVisionModel) (st : enc_state) (images : list item)
  : result enc_state :=
  match images with
  | [] => Ok st
  | img :: rest => st ← encode_step self st img; encode_loop self st rest
  end.

(** [encode], lines 127-153; [None] is the Python [None]. *)
Definition encode (self : LlavaVisionModel) (images : list item)
  : result (option (Tensor * list Z * list (list Z))) :=
  st ← encode_loop self (mkEncState [] [] 0 []) images;
  if (Z.of_nat (length (img_tensors st)) <=? 0)%Z then Ok None
  else
    img ← cat0 (img_tensors st);
    all_img_embeds ← forward self img;
    Ok (Some (all_img_embeds, uuids st, valid_ids st)).

End Source.

(** ** A small concrete installation

    Two weight directories, [hf] (a packaged checkpoint) and [bin] (a CLIP
    tower with a separate projector file), a three-layer tower over integer
    elements, and a shared-memory store holding two images, the first of
    one tile and the second of two. *)

Module Demo.

Definition ones (dt : torch_dtype) (shape : list nat) : Tensor Z :=
  mkTensor dt Cpu shape (replicate (numel shape) 1%Z).

(** The number of tiles is the first byte of the image. *)
Definition tiles_of (image : list byte) : nat :=
  match image with
  | b :: _ => Byte.to_nat b
  | [] => 0
  end.

Definition image_proc : ImageProcessor Z (list byte) :=
  mkImageProcessor (λ image, Done (ones Float32 [tiles_of image; 1; 2; 2])).

(** Layer [i] of the tower holds [100 * i + j] at position [j]; every
    layer has four tokens of two features for each input of the batch. *)
Definition layer (dt : torch_dtype) (dev : torch_device) (batch i : nat) : Tensor Z :=
  mkTensor dt dev [batch; 4; 2]
    (Z.of_nat <$> seq (100 * i) (batch * 4 * 2)).

Definition tower : VisionTower Z :=
  mkVisionTower Float32 Cpu true
    (λ dt dev x,
       match t_shape x with
       | batch :: _ =>
           if bool_decide (t_device x = dev)
           then Done (layer dt dev batch <$> [0; 1; 2])
           else Failed "input and weights are on different devices"
       | [] => Failed "input without a batch dimension"
       end).

(** A linear layer that sums each row and adds the bias. *)
Definition linear (x w b : Tensor Z) : outcome (Tensor Z) :=
  match t_shape x, t_shape w with
  | [m; n], [o; n'] =>
      if bool_decide (n = n' ∧ t_shape b = [o] ∧ n ≠ 0
                      ∧ t_device x = t_device w ∧ t_device x = t_device b)
      then Done (mkTensor (t_dtype x) (t_device x) [m; o]
                   (concat ((λ row, (λ bias, foldr Z.add bias row) <$> t_data b)
                              <$> chunks n m (t_data x))))
      else Failed "shape or device mismatch"
  | _, _ => Failed "shape mismatch"
  end.

Definition hf_file : SafeFile Z :=
  mkSafeFile
    [ "language_model.lm_head.weight";
      "multi_modal_projector.linear_1.weight";
      "multi_modal_projector.linear_1.bias";
      "multi_modal_projector.linear_2.weight";
      "multi_modal_projector.linear_2.bias" ]
    (λ k,
       if PyStr.endswith ".linear_1.weight" k then Done (ones Float32 [3; 2])
       else if PyStr.endswith ".linear_2.weight" k then Done (ones Float32 [5; 3])
       else if PyStr.endswith ".linear_1.bias" k then Done (ones Float32 [3])
       else if PyStr.endswith ".linear_2.bias" k then Done (ones Float32 [5])
       else Failed "no such tensor").

Definition bin_file : list (string * Tensor Z) :=
  [ ("model.mm_projector.0.weight", ones Float32 [3; 2]);
    ("model.mm_projector.0.bias", ones Float32 [3]);
    ("model.mm_projector.2.weight", ones Float32 [5; 3]);
    ("model.mm_projector.2.bias", ones Float32 [5]);
    ("model.embed_tokens.weight", ones Float32 [2; 2]) ].

(** A projector file that lacks the last bias. *)
Definition short_file : list (string * Tensor Z) := take 3 bin_file.

Definition env : Env Z (list byte) :=
  {| to_half := λ z, z;
     F_linear := linear;
     F_gelu := λ x, Done x;
     json_load := λ path,
       if String.eqb path "hf/config.json"
       then Done (VDict [("model_type", VStr "llava"); ("text_config", VDict [])])
       else if String.eqb path "bin/config.json"
       then Done (VDict [("mm_vision_tower", VStr "./clip");
                         ("mm_vision_select_feature", VStr "cls_patch")])
       else if String.eqb path "short/config.json"
       then Done (VDict [])
       else Failed "No such file or directory";
     listdir := λ path,
       if String.eqb path "hf" then Done ["config.json"; "model.safetensors"]
       else if String.eqb path "bin" then Done ["mm_projector.bin"; "config.json"]
       else if String.eqb path "short" then Done ["mm_projector.bin"; "config.json"]
       else Failed "No such file or directory";
     auto_config := λ _, Done (mkHFConfig (VInt (-2)) (VStr "default"));
     auto_processor := λ _, Done (mkProcessor image_proc);
     llava_from_pretrained := λ _ dt,
       Done (mkLlavaModel (mkVisionTower dt Cpu true (vt_net tower)));
     safe_open := λ path,
       if String.eqb path "hf/model.safetensors" then Done hf_file
       else Failed "No such file or directory";
     clip_image_processor := λ _, Done image_proc;
     clip_vision_model := λ _, Done tower;
     torch_load := λ path,
       if String.eqb path "bin/mm_projector.bin" then Done bin_file
       else if String.eqb path "short/mm_projector.bin" then Done short_file
       else Failed "No such file or directory";
     get_shm_name_data := λ u,
       if (u =? 1)%Z then "1-data" else if (u =? 2)%Z then "2-data" else "none";
     read_shm := λ name,
       if String.eqb name "1-data" then Done [x01]
       else if String.eqb name "2-data" then Done [x02]
       else Failed "No such file or directory";
     image_open := λ b, Done b;
     image_convert := λ im _, Done im;
     tensor_cuda_error := λ _, None;
     module_cuda_error := λ _, None |}.

Definition world0 : World Z (list byte) := mkWorld init [].

(** The adapter after [load_model] and after [load_model] and [cuda]. *)
Definition loaded (dir : string) : LlavaVisionModel Z (list byte) :=
  self (snd (load_model env dir world0)).
Definition ready (dir : string) : LlavaVisionModel Z (list byte) :=
  self (snd (cuda env (snd (load_model env dir world0)))).

Definition imgA : ImageItem := mkImageItem 1.
Definition imgB : ImageItem := mkImageItem 2.
Definition lost : ImageItem := mkImageItem 9.
Definition a_dict : PyObject := mkPyObject "dict" "{'k': 5}".

End Demo.

(** ** Words of the specification *)

(** The half-open intervals [[s, s + c)] laid end to end from [start], one
    for each count. *)
Fixpoint intervals_from (start : Z) (counts : list nat) : list (list Z) :=
  match counts with
  | [] => []
  | c :: rest =>
      [start; (start + Z.of_nat c)%Z] :: intervals_from (start + Z.of_nat c) rest
  end.

(** The number of tiles of a preprocessed image: the first dimension. *)
Definition tile_count {R} (t : Tensor R) : nat := default 0 (head (t_shape t)).

(** A computation that never raises a plain [Exception]. *)
Definition no_Exception {A} (r : result A) : Prop :=
  ∀ m, r ≠ Raise (Exception m).

(** The four keys of the projector. *)
Definition canonical_keys : list string :=
  [ "model.mm_projector.0.weight"; "model.mm_projector.0.bias";
    "model.mm_projector.2.weight"; "model.mm_projector.2.bias" ].

(** The tokens of a tensor of shape [(b, l, n)]: for each element of the
    batch, its [l] tokens of [n] features. *)
Definition tokens {R} (t : Tensor R) : list (list (list R)) :=
  match t_shape t with
  | [b; l; n] => chunks n l <$> chunks (l * n) b (t_data t)
  | _ => []
  end.

Section Words.
Context {R Image : Type}.
Variable E : Env R Image.

(** Lines 136-138 of [encode]: the tensor of tiles of one image. *)
Definition image_tiles (self : LlavaVisionModel R Image) (im : ImageItem)
  : result (Tensor R) :=
  image_data ← call (read_shm E (get_shm_name_data E (uuid im)));
  image_data ← call (image_open E image_data);
  image_data ← call (image_convert E image_data "RGB");
  ip ← attr "image_processor" (image_processor self);
  call (preprocess ip image_data).

(** One image went through the loop of [encode]. *)
Definition tiled (self : LlavaVisionModel R Image) (im : ImageItem) (t : Tensor R) : Prop :=
  image_tiles self im = Ok t ∧ t_shape t ≠ [].

(** The tower gives hidden states with the batch size of its input. *)
Definition batch_preserving (vt : VisionTower R) : Prop :=
  ∀ x hs h, vt_call vt x = Done hs → h ∈ hs → head (t_shape h) = head (t_shape x).

(** Events of the packaged loader only, and of the loose loader only. *)
Definition packaged_event (ev : event) : Prop :=
  match ev with
  | EvAutoConfig _ | EvAutoProcessor _
  | EvLlavaForConditionalGeneration _ | EvSafeOpen _ => True
  | _ => False
  end.
Definition loose_event (ev : event) : Prop :=
  match ev with
  | EvCLIPImageProcessor _ | EvCLIPVisionModel _ | EvTorchLoad _ => True
  | _ => False
  end.

(** [Q] holds of the outcome and the world that [m] leaves. *)
Definition wp {A} (m : M R Image A) (Q : result A → World R Image → Prop)
    (w : World R Image) : Prop :=
  Q (fst (m w)) (snd (m w)).

(** The log grew from [tr0] by events that satisfy [ok]. *)
Definition traced (ok : event → Prop) (tr0 : list event) (w : World R Image) : Prop :=
  ∃ tr, trace w = tr0 ++ tr ∧ Forall ok tr.

(** The tower is there and the projector weights are there and in half
    precision. *)
Definition weights_ready (o : LlavaVisionModel R Image) : Prop :=
  ∃ vt pw,
    vision_tower o = Some vt
    ∧ projector_weights o = Some pw
    ∧ map_Forall (λ _ v, t_dtype v = Float16) pw.

(** The items of the projector after the loop of [cuda], lines 98-99, and
    the message of the transfer that stopped it, if one did: the tensors
    before the first one that the device refuses are on the accelerator,
    that one and those after it are as they were. *)
Fixpoint cuda_items (l : list (string * Tensor R))
  : list (string * Tensor R) * option string :=
  match l with
  | [] => ([], None)
  | (k, v) :: rest =>
      match to_cuda E v with
      | Failed msg => (l, Some msg)
      | Done v' => ((k, v') :: (cuda_items rest).1, (cuda_items rest).2)
      end
  end.

(** The accelerator takes the tensor, the tower. *)
Definition takes (v : Tensor R) : Prop := ∃ v', to_cuda E v = Done v'.
Definition takes_tower (vt : VisionTower R) : Prop :=
  ∃ vt', vt_to_cuda E vt = Done vt'.

End Words.

(** ** Words for the further properties *)

Section MoreWords.
Context {R Image : Type}.
Variable E : Env R Image.

(** The mapping [pw] holds exactly the keys that [S] names, each with the
    half of a tensor that [S] gives for it. *)
Definition weights_from (S : string → Tensor R → Prop)
    (pw : gmap string (Tensor R)) : Prop :=
  (∀ k v, pw !! k = Some v → ∃ v0, S k v0 ∧ v = t_half (to_half E) v0)
  ∧ (∀ k v0, S k v0 → is_Some (pw !! k)).

(** The object is [o] with the weights that [S] names, and the log is [tr]. *)
Definition loading (o : LlavaVisionModel R Image) (tr : list event)
    (S : string → Tensor R → Prop) (w : World R Image) : Prop :=
  ∃ pw, self w = set_projector_weights pw o ∧ trace w = tr ∧ weights_from S pw.

(** Lines 89-94: [v0] is stored under [k], a key of the projector, in a
    [.bin] file among [files]. *)
Definition bin_source (weight_dir : string) (files : list string)
    (k : string) (v0 : Tensor R) : Prop :=
  ∃ f d,
    f ∈ files
    ∧ PyStr.endswith ".bin" f = true
    ∧ torch_load E (PyStr.path_join weight_dir f) = Done d
    ∧ (k, v0) ∈ d
    ∧ PyStr.contains "model.mm_projector" k = true.

(** Lines 60-68: [v0] is the tensor of a key [k0] among [keys] of the open
    file [d], and [k] is [k0] with the name of one of the two linear layers
    replaced. *)
Definition renamed_source (d : SafeFile R) (keys : list string)
    (k : string) (v0 : Tensor R) : Prop :=
  ∃ k0,
    k0 ∈ keys
    ∧ sf_get_tensor d k0 = Done v0
    ∧ ((PyStr.contains "multi_modal_projector.linear_1" k0 = true
        ∧ k = PyStr.replace "multi_modal_projector.linear_1" "model.mm_projector.0" k0)
       ∨ (PyStr.contains "multi_modal_projector.linear_2" k0 = true
          ∧ k = PyStr.replace "multi_modal_projector.linear_2" "model.mm_projector.2" k0)).

(** Lines 57-68: [v0] is stored, under the key that becomes [k], in a
    [.safetensors] file among [files]. *)
Definition hf_source (weight_dir : string) (files : list string)
    (k : string) (v0 : Tensor R) : Prop :=
  ∃ f d,
    f ∈ files
    ∧ PyStr.endswith ".safetensors" f = true
    ∧ safe_open E (PyStr.path_join weight_dir f) = Done d
    ∧ renamed_source d (sf_keys d) k v0.

(** Lines 76-80: the path the CLIP tower is loaded from.  The entry
    [mm_vision_tower] of the configuration, or the name of the default
    tower, is a string or a list that starts with one; a string that starts
    with [./] is taken relative to the weight directory. *)
Definition vision_path_of (cfg : list (string * pyval)) (weight_dir path : string) : Prop :=
  ∃ p,
    (default (VStr "openai/clip-vit-large-patch14-336") (assoc_get "mm_vision_tower" cfg)
       = VStr p
     ∨ ∃ rest,
         default (VStr "openai/clip-vit-large-patch14-336") (assoc_get "mm_vision_tower" cfg)
         = VList (VStr p :: rest))
    ∧ path = (if PyStr.startswith "./" p then PyStr.path_join weight_dir p else p).

(** The files of a listing that the loose loader opens, and the ones the
    packaged loader opens. *)
Definition bin_files (files : list string) : list string :=
  List.filter (PyStr.endswith ".bin") files.
Definition safetensors_files (files : list string) : list string :=
  List.filter (PyStr.endswith ".safetensors") files.

(** All that the loose loader calls answers: the tower and its processor
    load from the resolved path, the directory lists, and every [.bin] file
    of it loads. *)
Definition bin_answers (cfg : list (string * pyval)) (weight_dir : string) : Prop :=
  ∃ path ip vt files,
    vision_path_of cfg weight_dir path
    ∧ clip_image_processor E path = Done ip
    ∧ clip_vision_model E path = Done vt
    ∧ listdir E weight_dir = Done files
    ∧ ∀ f, f ∈ files → PyStr.endswith ".bin" f = true →
        ∃ d, torch_load E (PyStr.path_join weight_dir f) = Done d.

(** All that the packaged loader calls answers: configuration, processor
    and model load, the directory lists, every [.safetensors] file of it
    opens and gives the tensors of the keys of the two linear layers. *)
Definition hf_answers (weight_dir : string) : Prop :=
  ∃ hc pr model files,
    auto_config E weight_dir = Done hc
    ∧ auto_processor E weight_dir = Done pr
    ∧ llava_from_pretrained E weight_dir Float16 = Done model
    ∧ listdir E weight_dir = Done files
    ∧ ∀ f, f ∈ files → PyStr.endswith ".safetensors" f = true →
        ∃ d, safe_open E (PyStr.path_join weight_dir f) = Done d
             ∧ ∀ k, k ∈ sf_keys d →
                 PyStr.contains "multi_modal_projector.linear_1" k = true
                 ∨ PyStr.contains "multi_modal_projector.linear_2" k = true →
                 ∃ v, sf_get_tensor d k = Done v.

End MoreWords.


(** ** The concrete installation, continued *)

Module Demo2.

(** The configuration of the directory [bin]. *)
Definition bin_cfg : list (string * pyval) :=
  [("mm_vision_tower", VStr "./clip"); ("mm_vision_select_feature", VStr "cls_patch")].

(** The configuration of the directory [hf]. *)
Definition hf_cfg : list (string * pyval) :=
  [("model_type", VStr "llava"); ("text_config", VDict [])].

(** The installation with another answer to the reading of [config.json]. *)
Definition env_config (answer : outcome pyval) : Env Z (list byte) :=
  mkEnv (to_half Demo.env) (F_linear Demo.env) (F_gelu Demo.env)
    (λ _, answer)
    (listdir Demo.env) (auto_config Demo.env) (auto_processor Demo.env)
    (llava_from_pretrained Demo.env) (safe_open Demo.env)
    (clip_image_processor Demo.env) (clip_vision_model Demo.env)
    (torch_load Demo.env) (get_shm_name_data Demo.env) (read_shm Demo.env)
    (image_open Demo.env) (image_convert Demo.env)
    (tensor_cuda_error Demo.env) (module_cuda_error Demo.env).

(** The installation with an accelerator that takes the tower and every
    tensor but those of the shape [full]. *)
Definition env_device (full : list nat) : Env Z (list byte) :=
  mkEnv (to_half Demo.env) (F_linear Demo.env) (F_gelu Demo.env)
    (json_load Demo.env)
    (listdir Demo.env) (auto_config Demo.env) (auto_processor Demo.env)
    (llava_from_pretrained Demo.env) (safe_open Demo.env)
    (clip_image_processor Demo.env) (clip_vision_model Demo.env)
    (torch_load Demo.env) (get_shm_name_data Demo.env) (read_shm Demo.env)
    (image_open Demo.env) (image_convert Demo.env)
    (λ t, if bool_decide (t_shape t = full)
          then Some "CUDA out of memory" else None)
    (module_cuda_error Demo.env).

(** The installation without a usable accelerator. *)
Definition env_no_device : Env Z (list byte) :=
  mkEnv (to_half Demo.env) (F_linear Demo.env) (F_gelu Demo.env)
    (json_load Demo.env)
    (listdir Demo.env) (auto_config Demo.env) (auto_processor Demo.env)
    (llava_from_pretrained Demo.env) (safe_open Demo.env)
    (clip_image_processor Demo.env) (clip_vision_model Demo.env)
    (torch_load Demo.env) (get_shm_name_data Demo.env) (read_shm Demo.env)
    (image_open Demo.env) (image_convert Demo.env)
    (λ _, Some "no CUDA-capable device is detected")
    (λ _, Some "no CUDA-capable device is detected").

(** One image of one tile, as the processor gives it. *)
Definition one_tile : Tensor Z := Demo.ones Float32 [1; 1; 2; 2].

(** The loaded adapter with another [select_layer]. *)
Definition with_layer (v : pyval) : LlavaVisionModel Z (list byte) :=
  set_select_layer v (Demo.ready "hf").

End Demo2.

(** * Properties *)

(** ** Strings *)

Example replace_linear_1 :
  PyStr.replace "multi_modal_projector.linear_1" "model.mm_projector.0"
    "multi_modal_projector.linear_1.weight"
  = "model.mm_projector.0.weight"%string.
Proof. reflexivity. Qed.

Example replace_twice : PyStr.replace "ab" "x" "abcabab" = "xcxx"%string.
Proof. reflexivity. Qed.

Example replace_no_overlap : PyStr.replace "aa" "b" "aaa" = "ba"%string.
Proof. reflexivity. Qed.

Example path_join_relative : PyStr.path_join "w" "./clip" = "w/./clip"%string.
Proof. reflexivity. Qed.

Example path_join_slash : PyStr.path_join "w/" "config.json" = "w/config.json"%string.
Proof. reflexivity. Qed.

Example endswith_bin :
  PyStr.endswith ".bin" "mm_projector.bin" = true
  ∧ PyStr.endswith ".bin" "model.safetensors" = false.
Proof. by split. Qed.

Lemma startswith_spec p s :
  PyStr.startswith p s = true ↔ ∃ post, s = p +:+ post.
Proof.
  revert s. induction p as [|a p IH]; intros s; simpl.
  - split; [eauto | done].
  - destruct s as [|b s].
    + split; [done | intros [post Hp]; discriminate].
    + destruct (Ascii.eqb_spec a b) as [->|Hne].
      * rewrite IH. split; intros [post Hp]; exists post; [by rewrite Hp | by injection Hp].
      * split; [done | intros [post Hp]; injection Hp; congruence].
Qed.

Lemma contains_spec p s :
  PyStr.contains p s = true ↔ PyStr.occurs_in p s.
Proof.
  unfold PyStr.occurs_in. induction s as [|c s IH]; simpl.
  - rewrite orb_false_r, startswith_spec. split.
    + intros [post Hp]. by exists EmptyString, post.
    + intros ([|c pre] & post & Hp); [by exists post | discriminate].
  - rewrite orb_true_iff, startswith_spec, IH. split.
    + intros [[post Hp] | (pre & post & Hp)].
      * by exists EmptyString, post.
      * exists (String c pre), post. by rewrite Hp.
    + intros ([|c' pre] & post & Hp).
      * left. by exists post.
      * right. exists pre, post. by injection Hp.
Qed.

Lemma append_cons c (a b : string) : String c a +:+ b = String c (a +:+ b).
Proof. reflexivity. Qed.

Lemma append_assoc (a b c : string) : (a +:+ b) +:+ c = a +:+ b +:+ c.
Proof. induction a as [|x a IH]; [done | by rewrite !append_cons, IH]. Qed.

Lemma append_empty_r (a : string) : a +:+ EmptyString = a.
Proof. induction a as [|x a IH]; [done | by rewrite append_cons, IH]. Qed.

(** The message of the unsupported-type error holds the name of the type
    and the [str()] of the value. *)
Lemma unsupported_msg_names o :
  PyStr.occurs_in (py_type_name o) (unsupported_msg o)
  ∧ PyStr.occurs_in (py_str o) (unsupported_msg o).
Proof.
  unfold unsupported_msg, type_repr. split.
  - exists "Unsupport input types: <class '"%string, ("'> for " +:+ py_str o).
    by rewrite !append_assoc.
  - exists ("Unsupport input types: <class '" +:+ py_type_name o +:+ "'> for "), EmptyString.
    by rewrite !append_assoc, append_empty_r.
Qed.

(** ** The result monad and Python indexing *)

Lemma bind_Ok_inv {A B} (m : result A) (f : A → result B) b :
  m ≫= f = Ok b → ∃ a, m = Ok a ∧ f a = Ok b.
Proof. destruct m as [a|e]; [eauto | done]. Qed.

Lemma call_Ok_inv {A} (o : outcome A) a : call o = Ok a → o = Done a.
Proof. destruct o; simpl; congruence. Qed.

Lemma call_not_Exception {A} (o : outcome A) m : call o ≠ Raise (Exception m).
Proof. by destruct o. Qed.

Lemma attr_not_Exception {A} name (o : option A) m : attr name o ≠ Raise (Exception m).
Proof. by destruct o. Qed.

Lemma py_index_head {A} (l : list A) :
  py_index l 0 = match l with [] => Raise IndexError | a :: _ => Ok a end.
Proof.
  unfold py_index. destruct l as [|a l]; [done|].
  rewrite length_cons, !Z.ltb_irrefl.
  destruct (Z.leb_spec (Z.of_nat (S (length l))) 0); [lia | done].
Qed.

Lemma py_index_last {A} (l : list A) (a : A) : py_index (l ++ [a]) (-1) = Ok a.
Proof.
  unfold py_index. rewrite length_app, length_cons. simpl length.
  change (-1 <? 0)%Z with true. cbv iota.
  replace (Z.of_nat (length l + 1) + -1)%Z with (Z.of_nat (length l)) by lia.
  destruct (Z.ltb_spec (Z.of_nat (length l)) 0); [lia|].
  destruct (Z.leb_spec (Z.of_nat (length l + 1)) (Z.of_nat (length l))); [lia|].
  simpl. rewrite Nat2Z.id, lookup_app_r by lia.
  by rewrite Nat.sub_diag.
Qed.

Lemma py_index_negative {A} (l : list A) (z : Z) :
  (- Z.of_nat (length l) ≤ z < 0)%Z →
  ∃ a, l !! Z.to_nat (Z.of_nat (length l) + z) = Some a ∧ py_index l z = Ok a.
Proof.
  intros Hz. unfold py_index.
  destruct (Z.ltb_spec z 0); [|lia].
  destruct (Z.ltb_spec (Z.of_nat (length l) + z) 0); [lia|].
  destruct (Z.leb_spec (Z.of_nat (length l)) (Z.of_nat (length l) + z)); [lia|].
  simpl. destruct (lookup_lt_is_Some_2 l (Z.to_nat (Z.of_nat (length l) + z))) as [a Ha];
    [lia|]. exists a. by rewrite Ha.
Qed.

Lemma py_index_not_Exception {A} (l : list A) z m : py_index l z ≠ Raise (Exception m).
Proof. unfold py_index. repeat case_match; done. Qed.

Lemma py_index_elem_of {A} (l : list A) z a : py_index l z = Ok a → a ∈ l.
Proof.
  unfold py_index. repeat case_match; try done;
    intros [= <-]; eauto using list_elem_of_lookup_2.
Qed.

(** ** Intervals *)

Lemma intervals_from_length s cs : length (intervals_from s cs) = length cs.
Proof. revert s. induction cs as [|c cs IH]; intros s; simpl; [done | by rewrite IH]. Qed.

Lemma intervals_from_app s cs ds :
  intervals_from s (cs ++ ds)
  = intervals_from s cs ++ intervals_from (s + Z.of_nat (sum_list cs)) ds.
Proof.
  revert s. induction cs as [|c cs IH]; intros s; simpl.
  - by rewrite Z.add_0_r.
  - rewrite IH. do 3 f_equal. lia.
Qed.

(** The [i]-th interval starts where the counts before it sum to and is as
    long as the [i]-th count. *)
Lemma intervals_from_lookup s cs i c :
  cs !! i = Some c →
  intervals_from s cs !! i
  = Some [(s + Z.of_nat (sum_list (take i cs)))%Z;
          (s + Z.of_nat (sum_list (take i cs)) + Z.of_nat c)%Z].
Proof.
  revert s i. induction cs as [|c' cs IH]; intros s i Hi; [done|].
  destruct i as [|i]; simpl in *.
  - injection Hi as ->. by rewrite Z.add_0_r.
  - rewrite (IH _ _ Hi). do 2 f_equal; [lia | f_equal; lia].
Qed.

(** ** The loop of [encode] *)

Section EncodeLoop.
Context {R Image : Type}.
Variable E : Env R Image.
Variable self : LlavaVisionModel R Image.

(** A turn of the loop on an image item: its tiles are appended, its uuid
    is recorded and its interval starts at [valid_id]. *)
Lemma encode_step_image st im :
  encode_step E self st (ItImage im)
  = t ← image_tiles E self im;
    n ← py_index (t_shape t) 0;
    Ok (mkEncState (img_tensors st ++ [t]) (uuids st ++ [uuid im])
          (valid_id st + Z.of_nat n)
          (valid_ids st ++ [[valid_id st; (valid_id st + Z.of_nat n)%Z]])).
Proof.
  unfold encode_step, image_tiles.
  destruct (read_shm E _) as [data|]; [|done]. simpl.
  destruct (image_open E data) as [image|]; [|done]. simpl.
  destruct (image_convert E image _) as [rgb|]; [|done]. simpl.
  destruct (image_processor self) as [ip|]; [|done]. simpl.
  destruct (preprocess ip rgb) as [t|]; [|done]. simpl.
  by rewrite py_index_last.
Qed.

Lemma encode_step_other st o :
  encode_step E self st (ItOther o) = Raise (Exception (unsupported_msg o)).
Proof. done. Qed.

Lemma image_tiles_not_Exception im m :
  image_tiles E self im ≠ Raise (Exception m).
Proof.
  unfold image_tiles.
  destruct (read_shm E _) as [data|]; [|done]. simpl.
  destruct (image_open E data) as [image|]; [|done]. simpl.
  destruct (image_convert E image _) as [rgb|]; [|done]. simpl.
  destruct (image_processor self) as [ip|]; [|done]. simpl.
  apply call_not_Exception.
Qed.

Lemma encode_step_tiled st im t :
  tiled E self im t →
  encode_step E self st (ItImage im)
  = Ok (mkEncState (img_tensors st ++ [t]) (uuids st ++ [uuid im])
          (valid_id st + Z.of_nat (tile_count t))
          (valid_ids st ++ [[valid_id st; (valid_id st + Z.of_nat (tile_count t))%Z]])).
Proof.
  intros [Ht Hs]. rewrite encode_step_image, Ht. simpl.
  rewrite py_index_head. unfold tile_count.
  by destruct (t_shape t).
Qed.

Lemma encode_step_Ok_inv st img st' :
  encode_step E self st img = Ok st' →
  ∃ im t, img = ItImage im ∧ tiled E self im t.
Proof.
  destruct img as [im|o]; [|done].
  rewrite encode_step_image. intros H.
  apply bind_Ok_inv in H as (t & Ht & H).
  apply bind_Ok_inv in H as (n & Hn & _).
  exists im, t. split; [done|]. split; [done|].
  rewrite py_index_head in Hn. by destruct (t_shape t).
Qed.

(** The loop over image items that all go through. *)
Lemma encode_loop_tiled ims ts st :
  Forall2 (tiled E self) ims ts →
  encode_loop E self st (ItImage <$> ims)
  = Ok (mkEncState (img_tensors st ++ ts) (uuids st ++ (uuid <$> ims))
          (valid_id st + Z.of_nat (sum_list (tile_count <$> ts)))
          (valid_ids st ++ intervals_from (valid_id st) (tile_count <$> ts))).
Proof.
  intros Hall. revert st.
  induction Hall as [|im t ims ts Ht _ IH]; intros st.
  - simpl. rewrite !app_nil_r, Z.add_0_r. by destruct st.
  - rewrite fmap_cons. simpl encode_loop.
    rewrite (encode_step_tiled _ _ _ Ht). simpl.
    rewrite IH. simpl. rewrite <- !app_assoc. simpl.
    f_equal. f_equal; try done. unfold fmap. lia.
Qed.

(** The loop ends normally only on image items that all go through. *)
Lemma encode_loop_Ok_inv images st st' :
  encode_loop E self st images = Ok st' →
  ∃ ims ts, images = ItImage <$> ims ∧ Forall2 (tiled E self) ims ts.
Proof.
  revert st. induction images as [|img images IH]; intros st H.
  - exists [], []. by split; [|constructor].
  - simpl in H. apply bind_Ok_inv in H as (st1 & Hstep & Hloop).
    apply encode_step_Ok_inv in Hstep as (im & t & -> & Ht).
    apply IH in Hloop as (ims & ts & -> & Hall).
    exists (im :: ims), (t :: ts). by split; [|constructor].
Qed.

(** The loop raises the unsupported-type error exactly at the first item
    that is not an image item, if the items before it went through. *)
Lemma encode_loop_Exception images st m :
  encode_loop E self st images = Raise (Exception m) ↔
  ∃ pre ts o post,
    images = (ItImage <$> pre) ++ ItOther o :: post
    ∧ Forall2 (tiled E self) pre ts
    ∧ m = unsupported_msg o.
Proof.
  revert st. induction images as [|img images IH]; intros st.
  - split; [done|]. intros (pre & ts & o & post & H & _). by destruct pre.
  - simpl. destruct img as [im|o].
    + rewrite encode_step_image.
      destruct (image_tiles E self im) as [t|e] eqn:Ht; simpl.
      * rewrite py_index_head.
        destruct (t_shape t) as [|n shape] eqn:Hs; simpl.
        -- split; [done|]. intros ([|im' pre] & ts & o' & post & H & Hall & _);
             [done|]. injection H as <- _.
           apply Forall2_cons_inv_l in Hall as (t' & ts' & [Ht' Hs'] & _ & _).
           congruence.
        -- rewrite IH. split.
           ++ intros (pre & ts & o & post & -> & Hall & ->).
              exists (im :: pre), (t :: ts), o, post.
              split; [done|]. split; [|done].
              constructor; [|done]. split; [done | by rewrite Hs].
           ++ intros ([|im' pre] & ts & o & post & H & Hall & ->); [done|].
              injection H as <- ->.
              apply Forall2_cons_inv_l in Hall as (t' & ts' & _ & Hall & ->).
              by exists pre, ts', o, post.
      * split.
        -- intros [= ->]. by apply image_tiles_not_Exception in Ht.
        -- intros ([|im' pre] & ts & o' & post & H & Hall & _); [done|].
           injection H as <- _.
           apply Forall2_cons_inv_l in Hall as (t' & ts' & [Ht' Hs'] & _ & _).
           congruence.
    + split.
      * intros [= <-]. by exists [], [], o, images.
      * intros ([|im' pre] & ts & o' & post & H & _ & ->); [|done].
        by injection H as ->.
Qed.

(** With an item that is not an image item the loop always raises. *)
Lemma encode_loop_other images st :
  Exists (λ it, is_image_item it = false) images →
  ∃ e, encode_loop E self st images = Raise e.
Proof.
  intros Hex. destruct (encode_loop E self st images) as [st'|e] eqn:H; [|eauto].
  apply encode_loop_Ok_inv in H as (ims & ts & -> & _).
  apply Exists_exists in Hex as (it & Hin & Hit).
  apply list_elem_of_fmap in Hin as (im & -> & _). done.
Qed.

End EncodeLoop.

(** ** Where the unsupported-type error can come from *)

Create HintDb no_exc discriminated.

Lemma no_Exception_Ok {A} (a : A) : no_Exception (Ok a).
Proof. by intros m. Qed.

Lemma no_Exception_bind {A B} (r : result A) (f : A → result B) :
  no_Exception r → (∀ a, no_Exception (f a)) → no_Exception (r ≫= f).
Proof.
  intros Hr Hf m. destruct r as [a|e]; simpl; [apply Hf|].
  intros [= ->]. by apply (Hr m).
Qed.

Lemma no_Exception_call {A} (o : outcome A) : no_Exception (call o).
Proof. intros m. apply call_not_Exception. Qed.

Lemma no_Exception_attr {A} name (o : option A) : no_Exception (attr name o).
Proof. intros m. apply attr_not_Exception. Qed.

Lemma no_Exception_py_index {A} (l : list A) z : no_Exception (py_index l z).
Proof. intros m. apply py_index_not_Exception. Qed.

Lemma no_Exception_as_index v : no_Exception (as_index v).
Proof. intros m. by destruct v. Qed.

Lemma no_Exception_getitem {R} (d : gmap string (Tensor R)) k : no_Exception (getitem d k).
Proof. intros m. unfold getitem. by destruct (d !! k). Qed.

Lemma no_Exception_slice_from1 {R} (t : Tensor R) : no_Exception (slice_from1 t).
Proof. intros m. unfold slice_from1. by repeat case_match. Qed.

Lemma no_Exception_unpack3 shape : no_Exception (unpack3 shape).
Proof. intros m. unfold unpack3. by repeat case_match. Qed.

Lemma no_Exception_view_rows {R} (t : Tensor R) n : no_Exception (view_rows t n).
Proof. intros m. unfold view_rows. by repeat case_match. Qed.

Lemma no_Exception_view_batch {R} (t : Tensor R) b l : no_Exception (view_batch t b l).
Proof. intros m. unfold view_batch. by repeat case_match. Qed.

Lemma no_Exception_cat_onto {R} (ts : list (Tensor R)) acc : no_Exception (cat_onto acc ts).
Proof.
  revert acc. induction ts as [|t ts IH]; intros acc m; simpl; [done|].
  repeat case_match; try done; apply IH.
Qed.

Lemma no_Exception_cat0 {R} (ts : list (Tensor R)) : no_Exception (cat0 ts).
Proof.
  intros m. unfold cat0. repeat case_match; try done. apply no_Exception_cat_onto.
Qed.

#[global] Hint Resolve no_Exception_Ok no_Exception_call no_Exception_attr
  no_Exception_py_index no_Exception_as_index no_Exception_getitem
  no_Exception_slice_from1 no_Exception_unpack3 no_Exception_view_rows
  no_Exception_view_batch no_Exception_cat0 : no_exc.

Ltac no_exc :=
  repeat first
    [ progress eauto with no_exc
    | apply no_Exception_bind; [| intros ?]
    | match goal with |- no_Exception (match ?x with _ => _ end) => destruct x end
    | match goal with |- no_Exception (if ?b then _ else _) => destruct b end ].

Section ForwardErrors.
Context {R Image : Type}.
Variable E : Env R Image.
Variable self : LlavaVisionModel R Image.

Lemma no_Exception_forward x : no_Exception (forward E self x).
Proof. unfold forward, select_hidden, select_tokens, mm_project. no_exc. Qed.

(** After the loop, [encode] raises no unsupported-type error. *)
Lemma encode_Exception images m :
  encode E self images = Raise (Exception m)
  ↔ encode_loop E self (mkEncState [] [] 0 []) images = Raise (Exception m).
Proof.
  unfold encode.
  destruct (encode_loop E self _ images) as [st|e]; simpl; [|split; congruence].
  split; [|done]. intros H. exfalso. revert H.
  assert (no_Exception
    (if (Z.of_nat (length (img_tensors st)) <=? 0)%Z
     then Ok None
     else img ← cat0 (img_tensors st);
          all_img_embeds ← forward E self img;
          Ok (Some (all_img_embeds, uuids st, valid_ids st)))) as Hno; [|apply Hno].
  pose proof no_Exception_forward. no_exc.
Qed.

End ForwardErrors.

(** ** [encode]: ranges, uuids, the empty list and unsupported items *)

#[global] Instance ItImage_inj : Inj (=) (=) ItImage.
Proof. by intros a b [= ->]. Qed.

Section EncodeResults.
Context {R Image : Type}.
Variable E : Env R Image.
Variable self : LlavaVisionModel R Image.

(** [encode] on image items that all go through: the tiles are joined,
    sent through [forward], and returned with the uuids and intervals. *)
Lemma encode_tiled ims ts :
  Forall2 (tiled E self) ims ts →
  ims ≠ [] →
  encode E self (ItImage <$> ims)
  = img ← cat0 ts;
    emb ← forward E self img;
    Ok (Some (emb, uuid <$> ims, intervals_from 0 (tile_count <$> ts))).
Proof.
  intros Hall Hne. unfold encode.
  rewrite (encode_loop_tiled _ _ _ _ _ Hall). simpl.
  destruct Hall as [|im t ims ts _ _]; [done|].
  rewrite length_cons.
  by destruct (Z.leb_spec (Z.of_nat (S (length ts))) 0); [lia|].
Qed.

(** C2. [encode] returns [None] for the empty list and for no other list:
    on every other input it returns a triple or raises. *)
Theorem encode_none_iff_empty images :
  encode E self images = Ok None ↔ images = [].
Proof.
  split; [|by intros ->].
  intros H. destruct images as [|img images]; [done|]. exfalso.
  destruct (encode_loop E self (mkEncState [] [] 0 []) (img :: images))
    as [st|e] eqn:Hloop.
  - apply encode_loop_Ok_inv in Hloop as (ims & ts & Heq & Hall).
    rewrite Heq, (encode_tiled _ _ Hall) in H by (by destruct ims).
    destruct (cat0 ts) as [x|]; [|done]. simpl in H.
    by destruct (forward E self x).
  - unfold encode in H. by rewrite Hloop in H.
Qed.

(** C1. For a non-empty list of image items, what [encode] returns holds
    the uuids of the items in order and, for the [i]-th item, the interval
    that starts at the number of tiles of the items before it and is as
    long as the number of tiles the preprocessor gave for it; and [encode]
    returns exactly this whenever the items go through the store and the
    preprocessor and the joined batch goes through [forward]. *)
Theorem encode_ranges_and_uuids (ims : list ImageItem) :
  ims ≠ [] →
  (∀ r, encode E self (ItImage <$> ims) = Ok r →
     ∃ emb ts,
       Forall2 (tiled E self) ims ts
       ∧ r = Some (emb, uuid <$> ims, intervals_from 0 (tile_count <$> ts))
       ∧ ∀ i t, ts !! i = Some t →
           intervals_from 0 (tile_count <$> ts) !! i
           = Some [Z.of_nat (sum_list (tile_count <$> take i ts));
                   (Z.of_nat (sum_list (tile_count <$> take i ts))
                    + Z.of_nat (tile_count t))%Z])
  ∧ (∀ ts, Forall2 (tiled E self) ims ts →
       encode E self (ItImage <$> ims)
       = img ← cat0 ts;
         emb ← forward E self img;
         Ok (Some (emb, uuid <$> ims, intervals_from 0 (tile_count <$> ts)))).
Proof.
  intros Hne. split; [|by intros ts Hall; apply encode_tiled].
  intros r H.
  destruct (encode_loop E self (mkEncState [] [] 0 []) (ItImage <$> ims))
    as [st|e] eqn:Hloop; [|by unfold encode in H; rewrite Hloop in H].
  apply encode_loop_Ok_inv in Hloop as (ims' & ts & Heq & Hall).
  apply (inj (fmap ItImage)) in Heq as <-.
  rewrite (encode_tiled _ _ Hall Hne) in H.
  apply bind_Ok_inv in H as (img & _ & H).
  apply bind_Ok_inv in H as (emb & _ & [= <-]).
  exists emb, ts. split; [done|]. split; [done|].
  intros i t Hi.
  erewrite intervals_from_lookup by (by rewrite list_lookup_fmap, Hi).
  by rewrite fmap_take, !Z.add_0_l.
Qed.

(** The loop splits at any point of the list. *)
Lemma encode_loop_app st (l1 l2 : list item) :
  encode_loop E self st (l1 ++ l2)
  = st' ← encode_loop E self st l1; encode_loop E self st' l2.
Proof.
  revert st. induction l1 as [|img l1 IH]; intros st; simpl; [done|].
  destruct (encode_step E self st img) as [st1|e]; simpl; [apply IH | done].
Qed.

(** C3, as the code has it.  With an item that is not an image item in the
    list [encode] always raises, so no result is returned; the error is
    the unsupported-type error exactly when the items before the first
    such item are image items that go through the store and the
    preprocessor, and its message holds the name of the type and the value
    of that first item.  When the image items before an image item go
    through and that item fails, in the store, the decoder or the
    preprocessor or for a tensor without dimensions, the error of that
    item is what [encode] raises, whatever comes after it. *)
Theorem encode_unsupported_item images :
  (Exists (λ it, is_image_item it = false) images →
     ∃ e, encode E self images = Raise e)
  ∧ (∀ m, encode E self images = Raise (Exception m) ↔
       ∃ pre ts o post,
         images = (ItImage <$> pre) ++ ItOther o :: post
         ∧ Forall2 (tiled E self) pre ts
         ∧ m = unsupported_msg o)
  ∧ (∀ o, PyStr.occurs_in (py_type_name o) (unsupported_msg o)
          ∧ PyStr.occurs_in (py_str o) (unsupported_msg o))
  ∧ (∀ pre ts im post,
       images = (ItImage <$> pre) ++ ItImage im :: post →
       Forall2 (tiled E self) pre ts →
       (∀ e, image_tiles E self im = Raise e → encode E self images = Raise e)
       ∧ (∀ t, image_tiles E self im = Ok t → t_shape t = [] →
            encode E self images = Raise IndexError)).
Proof.
  split; [|split; [|split]].
  - intros Hex.
    destruct (encode_loop_other E self images (mkEncState [] [] 0 []) Hex)
      as [e He].
    exists e. unfold encode. by rewrite He.
  - intros m. by rewrite encode_Exception, encode_loop_Exception.
  - apply unsupported_msg_names.
  - intros pre ts im post -> Hall. unfold encode.
    rewrite encode_loop_app, (encode_loop_tiled _ _ _ _ _ Hall). simpl.
    rewrite encode_step_image. split.
    + by intros e ->.
    + intros t -> Hshape. simpl. by rewrite py_index_head, Hshape.
Qed.

End EncodeResults.

(** The two images of the specification's example: one tile and two tiles
    give the ranges [[0,1],[1,3]] and the two uuids in order. *)
Lemma encode_ranges_and_uuids_witness :
  ∃ emb,
    encode Demo.env (Demo.ready "hf") [ItImage Demo.imgA; ItImage Demo.imgB]
    = Ok (Some (emb, [1; 2]%Z, [[0; 1]; [1; 3]]%Z)).
Proof.
  destruct (encode_ranges_and_uuids Demo.env (Demo.ready "hf")
              [Demo.imgA; Demo.imgB]) as [_ H]; [done|].
  eexists. change [ItImage Demo.imgA; ItImage Demo.imgB]
    with (ItImage <$> [Demo.imgA; Demo.imgB]).
  rewrite (H [Demo.ones Float32 [1; 1; 2; 2]; Demo.ones Float32 [2; 1; 2; 2]]).
  - vm_compute. reflexivity.
  - repeat constructor; vm_compute; congruence.
Defined.

(** An image item followed by a dict: the error names [dict] and the
    value.  An image item, an image item that is missing from the store and
    a dict: the error is the one of the store. *)
Lemma encode_unsupported_item_witness :
  encode Demo.env (Demo.ready "bin") [ItImage Demo.imgA; ItOther Demo.a_dict]
  = Raise (Exception "Unsupport input types: <class 'dict'> for {'k': 5}")
  ∧ encode Demo.env (Demo.ready "bin")
      [ItImage Demo.imgA; ItImage Demo.lost; ItOther Demo.a_dict]
    = Raise (External "No such file or directory").
Proof.
  split.
  - apply (encode_unsupported_item Demo.env (Demo.ready "bin")
             [ItImage Demo.imgA; ItOther Demo.a_dict]).
    exists [Demo.imgA], [Demo.ones Float32 [1; 1; 2; 2]], Demo.a_dict, [].
    split; [reflexivity|]. split; [|reflexivity].
    repeat constructor; vm_compute; congruence.
  - refine (proj1 (proj2 (proj2 (proj2
              (encode_unsupported_item Demo.env (Demo.ready "bin")
                 [ItImage Demo.imgA; ItImage Demo.lost; ItOther Demo.a_dict])))
              [Demo.imgA] [Demo.ones Float32 [1; 1; 2; 2]] Demo.lost
              [ItOther Demo.a_dict] eq_refl _) _ _).
    + repeat constructor; vm_compute; congruence.
    + vm_compute. reflexivity.
Defined.

(** C3 as stated fails: the image before the dict is missing from the
    store, and the error raised is the store's, which names neither the
    type nor the value of the dict. *)
Lemma encode_unsupported_item_masked :
  ItOther Demo.a_dict ∈ [ItImage Demo.lost; ItOther Demo.a_dict]
  ∧ encode Demo.env (Demo.ready "bin") [ItImage Demo.lost; ItOther Demo.a_dict]
    = Raise (External "No such file or directory")
  ∧ ¬ PyStr.occurs_in (py_type_name Demo.a_dict)
        (exn_message (External "No such file or directory"))
  ∧ ¬ PyStr.occurs_in (py_str Demo.a_dict)
        (exn_message (External "No such file or directory")).
Proof.
  split; [set_solver|]. split; [by vm_compute|].
  split; intros H%contains_spec; vm_compute in H; discriminate.
Qed.

(** ** Reasoning about the methods that assign attributes *)

Section WeakestPre.
Context {R Image : Type}.

#[local] Abbreviation M := (M R Image).
#[local] Abbreviation World := (World R Image).

Lemma wp_ret {A} (a : A) Q (w : World) : Q (Ok a) w → wp (mret a) Q w.
Proof. done. Qed.

Lemma wp_raise {A} e (Q : result A → World → Prop) (w : World) : Q (Raise e) w → wp (raise e) Q w.
Proof. done. Qed.

Lemma wp_lift {A} (r : result A) Q (w : World) : Q r w → wp (lift r) Q w.
Proof. done. Qed.

Lemma wp_extern {A} ev (o : outcome A) Q (w : World) :
  Q (call o) (mkWorld (self w) (trace w ++ [ev])) → wp (extern ev o) Q w.
Proof. done. Qed.

Lemma wp_getattr {A} name (proj : LlavaVisionModel R Image → option A) Q w :
  Q (attr name (proj (self w))) w → wp (getattr name proj) Q w.
Proof. unfold wp, getattr, attr. by destruct (proj (self w)). Qed.

Lemma wp_setattr upd Q (w : World) :
  Q (Ok tt) (mkWorld (upd (self w)) (trace w)) → wp (setattr upd) Q w.
Proof. done. Qed.

Lemma wp_bind {A B} (m : M A) (f : A → M B) Q w :
  wp m (λ r w', match r with
                | Ok a => wp (f a) Q w'
                | Raise e => Q (Raise e) w'
                end) w →
  wp (m ≫= f) Q w.
Proof.
  unfold wp, mbind, M_bind. by destruct (m w) as [[a|e] w'].
Qed.

Lemma wp_mono {A} (m : M A) (Q Q' : result A → World → Prop) w :
  wp m Q w → (∀ r w', Q r w' → Q' r w') → wp m Q' w.
Proof. unfold wp. eauto. Qed.

(** A loop keeps what every turn keeps, however it ends. *)
Lemma wp_for_each {A} (I : World → Prop) (l : list A) (body : A → M unit) Q w :
  I w →
  (∀ x w', I w' → wp (body x) (λ _, I) w') →
  (∀ r w', I w' → Q r w') →
  wp (for_each l body) Q w.
Proof.
  intros Hw Hbody HQ. apply wp_mono with (Q := λ _, I); [|done].
  clear HQ. revert w Hw. induction l as [|x l IH]; intros w Hw; [done|].
  simpl. apply wp_bind. eapply wp_mono; [by apply Hbody|].
  intros [[]|e] w' Hw'; [by apply IH | done].
Qed.

(** The run of a sequence. *)
Lemma run_bind {A B} (m : M A) (f : A → M B) w :
  (m ≫= f) w = match m w with
               | (Ok a, w') => f a w'
               | (Raise e, w') => (Raise e, w')
               end.
Proof. done. Qed.

End WeakestPre.

Ltac wp_step :=
  lazymatch goal with
  | |- wp (mbind _ _) _ _ => apply wp_bind
  | |- wp (mret _) _ _ => apply wp_ret
  | |- wp (raise _) _ _ => apply wp_raise
  | |- wp (setattr _) _ _ => apply wp_setattr
  | |- wp (getattr _ _) _ _ =>
      apply wp_getattr; simpl;
      try match goal with
          | |- context [attr _ ?o] => destruct o eqn:?
          end
  | |- wp (lift ?r) _ _ => apply wp_lift; destruct r eqn:?
  | |- wp (extern _ ?o) _ _ => apply wp_extern; destruct o
  | |- wp (if ?b then _ else _) _ _ => destruct b eqn:?
  | |- wp (match ?x with _ => _ end) _ _ => destruct x eqn:?
  end; cbn beta iota delta [call attr].

(** ** The two loaders *)

Section Loaders.
Context {R Image : Type}.
Variable E : Env R Image.

#[local] Abbreviation World := (World R Image).
#[local] Abbreviation LlavaVisionModel := (LlavaVisionModel R Image).

Lemma t_half_dtype (round : R → R) (t : Tensor R) :
  t_dtype (t_half round t) = Float16.
Proof. unfold t_half. by destruct (t_dtype t) eqn:H. Qed.

Lemma traced_refl ok (w : World) : traced ok (trace w) w.
Proof. exists []. by rewrite app_nil_r. Qed.

Lemma traced_extern ok tr0 (w : World) (o : LlavaVisionModel) ev :
  traced ok tr0 w → ok ev → traced ok tr0 (mkWorld o (trace w ++ [ev])).
Proof.
  intros (tr & Htr & Hok) Hev. exists (tr ++ [ev]). simpl.
  rewrite Htr, app_assoc. split; [done|].
  apply Forall_app. by split; [|constructor].
Qed.

Lemma traced_setattr ok tr0 (w : World) (o : LlavaVisionModel) :
  traced ok tr0 w → traced ok tr0 (mkWorld o (trace w)).
Proof. done. Qed.

Lemma store_weight_ready ok tr0 k v (w : World) :
  t_dtype v = Float16 →
  traced ok tr0 w ∧ weights_ready (self w) →
  wp (store_weight k v) (λ _ w', traced ok tr0 w' ∧ weights_ready (self w')) w.
Proof.
  intros Hv [Htr (vt & pw & Hvt & Hpw & Hhalf)].
  unfold store_weight. apply wp_bind, wp_getattr. rewrite Hpw. simpl.
  apply wp_setattr. split; [done|].
  exists vt, (<[k:=v]> pw). simpl. split; [done|]. split; [done|].
  by apply map_Forall_insert_2.
Qed.

(** One renamed tensor of a safetensors file. *)
Lemma rename_step_ready ok tr0 (d : SafeFile R) (old new k : string) (w : World) :
  traced ok tr0 w ∧ weights_ready (self w) →
  wp (if PyStr.contains old k
      then v ← lift (call (sf_get_tensor d k));
           store_weight (PyStr.replace old new k) (t_half (to_half E) v)
      else mret tt)
     (λ _ w', traced ok tr0 w' ∧ weights_ready (self w')) w.
Proof.
  intros Hw. wp_step; [|by apply wp_ret].
  wp_step. wp_step; [|done].
  apply store_weight_ready; [apply t_half_dtype | done].
Qed.

(** [load_hf_model] calls none of the loose loader's libraries, and when it
    ends normally the tower and half-precision weights are in place. *)
Lemma load_hf_model_spec tr0 config weight_dir (w : World) :
  traced (λ ev, ¬ loose_event ev) tr0 w →
  wp (load_hf_model E config weight_dir)
     (λ r w', traced (λ ev, ¬ loose_event ev) tr0 w'
              ∧ (r = Ok tt → weights_ready (self w'))) w.
Proof.
  intros Htr. unfold load_hf_model.
  repeat (wp_step;
          try (split; [by repeat apply traced_extern; simpl; auto | done])).
  apply wp_for_each with
    (I := λ w', traced (λ ev, ¬ loose_event ev) tr0 w' ∧ weights_ready (self w')).
  - split; [by repeat apply traced_extern; simpl; auto|].
    eexists _, ∅. simpl. split; [done|]. split; [done|]. apply map_Forall_empty.
  - intros f w1 Hw1. wp_step; [|by apply wp_ret].
    wp_step. wp_step; [|by destruct Hw1; split; [apply traced_extern|]; simpl; auto].
    apply wp_for_each with
      (I := λ w', traced (λ ev, ¬ loose_event ev) tr0 w' ∧ weights_ready (self w')).
    + destruct Hw1. split; [apply traced_extern|]; simpl; auto.
    + intros k w2 Hw2. wp_step.
      eapply wp_mono; [by apply rename_step_ready|].
      intros [[]|e] w3 Hw3; [|done]. by apply rename_step_ready.
    + done.
  - intros r w1 [Htr1 Hw1]. by split.
Qed.

(** [load_bin_model] calls none of the packaged loader's libraries, and
    when it ends normally the tower and half-precision weights are in
    place. *)
Lemma load_bin_model_spec tr0 config weight_dir (w : World) :
  traced (λ ev, ¬ packaged_event ev) tr0 w →
  wp (load_bin_model E config weight_dir)
     (λ r w', traced (λ ev, ¬ packaged_event ev) tr0 w'
              ∧ (r = Ok tt → weights_ready (self w'))) w.
Proof.
  intros Htr. unfold load_bin_model.
  repeat (wp_step;
          try (split; [by repeat apply traced_extern; simpl; auto | done])).
  all: apply wp_for_each with
    (I := λ w', traced (λ ev, ¬ packaged_event ev) tr0 w' ∧ weights_ready (self w')).
  all: try (split; [by repeat apply traced_extern; simpl; auto|];
            eexists _, ∅; simpl; split; [done|]; split; [done|];
            apply map_Forall_empty).
  all: try (by intros r w1 [Htr1 Hw1]; split).
  all: intros f w1 Hw1; (wp_step; [|by apply wp_ret]);
    wp_step; (wp_step; [|by destruct Hw1; split; [apply traced_extern|]; simpl; auto]);
    apply wp_for_each with
      (I := λ w', traced (λ ev, ¬ packaged_event ev) tr0 w' ∧ weights_ready (self w'));
    [ destruct Hw1; split; [apply traced_extern|]; simpl; auto
    | intros [k v] w2 Hw2; (wp_step; [|by apply wp_ret]);
      apply store_weight_ready; [apply t_half_dtype | done]
    | done ].
Qed.

(** [check_loaded] logs nothing, and ends normally only with the four keys
    in the weights, which it leaves as they are. *)
Lemma check_loaded_spec (w : World) :
  wp check_loaded
     (λ r w', trace w' = trace w
              ∧ projector_weights (self w') = projector_weights (self w)
              ∧ (r = Ok tt →
                 ∃ pw, projector_weights (self w') = Some pw
                       ∧ ∀ k, k ∈ canonical_keys → is_Some (pw !! k))) w.
Proof.
  unfold check_loaded, assert_weight.
  repeat (wp_step; try done).
  split; [done|]. split; [done|]. intros _.
  simpl in *. simplify_eq. eexists. split; [done|].
  intros k Hk. unfold canonical_keys in Hk.
  repeat match goal with
         | H : bool_decide _ = true |- _ => apply bool_decide_eq_true in H
         end.
  repeat (apply elem_of_cons in Hk as [-> | Hk]; [done|]).
  by apply elem_of_nil in Hk.
Qed.

(** With one of the four keys missing [check_loaded] fails its assertion. *)
Lemma check_loaded_missing (w : World) vt pw k :
  vision_tower (self w) = Some vt →
  projector_weights (self w) = Some pw →
  k ∈ canonical_keys →
  pw !! k = None →
  wp check_loaded (λ r _, r = Raise AssertionError) w.
Proof.
  intros Hvt Hpw Hk Hnone.
  unfold check_loaded, assert_weight.
  repeat (wp_step; try done); simpl in *; simplify_eq.
  repeat match goal with
         | H : bool_decide _ = true |- _ => apply bool_decide_eq_true in H
         end.
  unfold canonical_keys in Hk.
  repeat (apply elem_of_cons in Hk as [-> | Hk];
          [by match goal with H : is_Some _ |- _ => rewrite Hnone in H; destruct H end|]).
  by apply elem_of_nil in Hk.
Qed.

Lemma assoc_get_is_Some k kvs : is_Some (assoc_get k kvs) ↔ k ∈ kvs.*1.
Proof.
  induction kvs as [|[k' v] kvs IH]; simpl.
  - split; [by intros [? ?] | by intros ?%elem_of_nil].
  - rewrite elem_of_cons. destruct (String.eqb_spec k' k) as [->|Hne].
    + split; [by left | by eexists].
    + rewrite IH. split; [by right | by intros [->|?]].
Qed.

(** When [load_weights] ends normally the tower and the half-precision
    weights are in place. *)
Lemma load_weights_ready weight_dir (w : World) :
  wp (load_weights E weight_dir) (λ r w', r = Ok tt → weights_ready (self w')) w.
Proof.
  unfold load_weights. repeat (wp_step; try done).
  - eapply wp_mono; [apply load_hf_model_spec, traced_refl|]. by intros r w' [_ H].
  - eapply wp_mono; [apply load_bin_model_spec, traced_refl|]. by intros r w' [_ H].
Qed.

(** C10. After a [load_model] that ends normally every tensor of the
    projector weights is in half precision; so it is after each of the two
    loaders alone, the packaged one and the loose one. *)
Theorem load_model_weights_half weight_dir config (w : World) :
  (fst (load_model E weight_dir w) = Ok tt →
     ∃ pw, projector_weights (self (snd (load_model E weight_dir w))) = Some pw
           ∧ ∀ k v, pw !! k = Some v → t_dtype v = Float16)
  ∧ (fst (load_hf_model E config weight_dir w) = Ok tt →
     ∃ pw, projector_weights (self (snd (load_hf_model E config weight_dir w))) = Some pw
           ∧ ∀ k v, pw !! k = Some v → t_dtype v = Float16)
  ∧ (fst (load_bin_model E config weight_dir w) = Ok tt →
     ∃ pw, projector_weights (self (snd (load_bin_model E config weight_dir w))) = Some pw
           ∧ ∀ k v, pw !! k = Some v → t_dtype v = Float16).
Proof.
  split; [|split].
  - change (wp (load_model E weight_dir)
              (λ r w', r = Ok tt →
                 ∃ pw, projector_weights (self w') = Some pw
                       ∧ ∀ k v, pw !! k = Some v → t_dtype v = Float16) w).
    unfold load_model. apply wp_bind.
    eapply wp_mono; [apply load_weights_ready|].
    intros [[]|e] w1 Hready; [|done].
    destruct Hready as (vt & pw & _ & Hpw & Hhalf); [done|].
    eapply wp_mono; [apply check_loaded_spec|].
    intros r w2 (_ & Hsame & _) _. exists pw. by rewrite Hsame.
  - intros Hok.
    destruct (load_hf_model_spec (trace w) config weight_dir w (traced_refl _ w))
      as [_ Hready].
    destruct (Hready Hok) as (vt & pw & _ & Hpw & Hhalf). by exists pw.
  - intros Hok.
    destruct (load_bin_model_spec (trace w) config weight_dir w (traced_refl _ w))
      as [_ Hready].
    destruct (Hready Hok) as (vt & pw & _ & Hpw & Hhalf). by exists pw.
Qed.

(** C4. A [load_model] that ends normally leaves the four keys of the
    projector in the weights; and when the loader that ran left one of
    them out, [load_model] raises the assertion error, so there is no
    loaded adapter on which [encode] could be called. *)
Theorem load_model_canonical_keys weight_dir (w : World) :
  (fst (load_model E weight_dir w) = Ok tt →
     ∃ pw, projector_weights (self (snd (load_model E weight_dir w))) = Some pw
           ∧ ∀ k, k ∈ canonical_keys → is_Some (pw !! k))
  ∧ (∀ w1 pw k,
       load_weights E weight_dir w = (Ok tt, w1) →
       projector_weights (self w1) = Some pw →
       k ∈ canonical_keys →
       pw !! k = None →
       fst (load_model E weight_dir w) = Raise AssertionError).
Proof.
  split.
  - change (wp (load_model E weight_dir)
              (λ r w', r = Ok tt →
                 ∃ pw, projector_weights (self w') = Some pw
                       ∧ ∀ k, k ∈ canonical_keys → is_Some (pw !! k)) w).
    unfold load_model. apply wp_bind.
    eapply wp_mono; [apply load_weights_ready|].
    intros [[]|e] w1 _; [|done].
    eapply wp_mono; [apply check_loaded_spec|].
    by intros r w2 (_ & _ & H).
  - intros w1 pw k Hload Hpw Hk Hnone.
    pose proof (load_weights_ready weight_dir w) as Hready.
    unfold wp in Hready. rewrite Hload in Hready.
    destruct (Hready eq_refl) as (vt & pw' & Hvt & _ & _).
    unfold load_model. rewrite run_bind, Hload.
    by apply (check_loaded_missing w1 vt pw k).
Qed.

(** C5. For a configuration that is a mapping, [load_model] runs the
    packaged loader when the mapping has the key [text_config] and the
    loose loader when it has not; in the first case none of the loose
    loader's libraries is called, in the second none of the packaged
    loader's. *)
Theorem load_model_strategy weight_dir (w : World) cfg :
  json_load E (PyStr.path_join weight_dir "config.json") = Done (VDict cfg) →
  let w1 := mkWorld (self w)
              (trace w ++ [EvOpen (PyStr.path_join weight_dir "config.json")]) in
  ("text_config" ∈ cfg.*1 →
     load_model E weight_dir w
     = (load_hf_model E (VDict cfg) weight_dir ;; check_loaded) w1
     ∧ ∃ tr, trace (snd (load_model E weight_dir w)) = trace w1 ++ tr
             ∧ Forall (λ ev, ¬ loose_event ev) tr)
  ∧ ("text_config" ∉ cfg.*1 →
     load_model E weight_dir w
     = (load_bin_model E (VDict cfg) weight_dir ;; check_loaded) w1
     ∧ ∃ tr, trace (snd (load_model E weight_dir w)) = trace w1 ++ tr
             ∧ Forall (λ ev, ¬ packaged_event ev) tr).
Proof.
  intros Hcfg w1.
  assert (load_weights E weight_dir w
          = (if (if assoc_get "text_config" cfg is Some _ then true else false)
             then load_hf_model E (VDict cfg) weight_dir
             else load_bin_model E (VDict cfg) weight_dir) w1) as Hrun.
  { unfold load_weights. rewrite run_bind. unfold extern at 1. by rewrite Hcfg. }
  split; intros Hkey.
  - apply assoc_get_is_Some in Hkey as [v Hv]. rewrite Hv in Hrun.
    assert (load_model E weight_dir w
            = (load_hf_model E (VDict cfg) weight_dir ;; check_loaded) w1) as Heq.
    { unfold load_model. by rewrite !run_bind, Hrun. }
    split; [done|]. rewrite Heq.
    change (wp (load_hf_model E (VDict cfg) weight_dir ;; check_loaded)
              (λ _ w', traced (λ ev, ¬ loose_event ev) (trace w1) w') w1).
    apply wp_bind. eapply wp_mono; [apply load_hf_model_spec, traced_refl|].
    intros [[]|e] w2 [Htr _]; [|done].
    eapply wp_mono; [apply check_loaded_spec|].
    intros r w3 (Hsame & _). unfold traced. by rewrite Hsame.
  - assert (assoc_get "text_config" cfg = None) as Hv.
    { destruct (assoc_get "text_config" cfg) eqn:Hg; [|done].
      exfalso. apply Hkey, assoc_get_is_Some. by rewrite Hg. }
    rewrite Hv in Hrun.
    assert (load_model E weight_dir w
            = (load_bin_model E (VDict cfg) weight_dir ;; check_loaded) w1) as Heq.
    { unfold load_model. by rewrite !run_bind, Hrun. }
    split; [done|]. rewrite Heq.
    change (wp (load_bin_model E (VDict cfg) weight_dir ;; check_loaded)
              (λ _ w', traced (λ ev, ¬ packaged_event ev) (trace w1) w') w1).
    apply wp_bind. eapply wp_mono; [apply load_bin_model_spec, traced_refl|].
    intros [[]|e] w2 [Htr _]; [|done].
    eapply wp_mono; [apply check_loaded_spec|].
    intros r w3 (Hsame & _). unfold traced. by rewrite Hsame.
Qed.

End Loaders.

(** ** [cuda] *)

Section Cuda.
Context {R Image : Type}.
Variable E : Env R Image.

#[local] Abbreviation World := (World R Image).
#[local] Abbreviation LlavaVisionModel := (LlavaVisionModel R Image).

Lemma t_cuda_idemp (t : Tensor R) : t_cuda (t_cuda t) = t_cuda t.
Proof. done. Qed.

Lemma vt_cuda_idemp (vt : VisionTower R) : vt_cuda (vt_cuda vt) = vt_cuda vt.
Proof. done. Qed.

(** What a transfer gives is the tensor on the accelerator, and the
    accelerator takes it again. *)
Lemma to_cuda_Done (t t' : Tensor R) :
  to_cuda E t = Done t' →
  t' = t_cuda t ∧ t_device t' = Cuda ∧ to_cuda E t' = Done t'.
Proof.
  unfold to_cuda. destruct t as [dt dev sh d]; simpl.
  destruct dev; simpl.
  - destruct (tensor_cuda_error E _); [done|]. by intros [= <-].
  - by intros [= <-].
Qed.

Lemma vt_to_cuda_Done (vt vt' : VisionTower R) :
  vt_to_cuda E vt = Done vt' →
  vt' = vt_cuda vt ∧ vt_device vt' = Cuda ∧ vt_to_cuda E vt' = Done vt'.
Proof.
  unfold vt_to_cuda. destruct vt as [dt dev rg net]; simpl.
  destruct dev; simpl.
  - destruct (module_cuda_error E _); [done|]. by intros [= <-].
  - by intros [= <-].
Qed.

(** The loop of [cuda] keeps the keys in their order. *)
Lemma cuda_items_keys (l : list (string * Tensor R)) :
  (cuda_items E l).1.*1 = l.*1.
Proof.
  induction l as [|[k v] l IH]; [done|]. simpl.
  destruct (to_cuda E v); simpl; [f_equal; apply IH | done].
Qed.

(** It ends normally exactly when the accelerator takes every tensor, and
    then every tensor is moved. *)
Lemma cuda_items_None (l : list (string * Tensor R)) :
  (cuda_items E l).2 = None ↔ Forall (λ kv, takes E kv.2) l.
Proof.
  induction l as [|[k v] l IH]; simpl; [by split; [constructor|]|].
  destruct (to_cuda E v) as [v'|msg] eqn:Hv; simpl.
  - rewrite IH. split.
    + intros Hl. constructor; [by exists v' | done].
    + by intros [_ Hl]%Forall_cons.
  - split; [done|]. intros [[v' Hv'] _]%Forall_cons. simpl in Hv'. congruence.
Qed.

Lemma cuda_items_moved (l : list (string * Tensor R)) :
  (cuda_items E l).2 = None →
  (cuda_items E l).1 = prod_map id t_cuda <$> l.
Proof.
  induction l as [|[k v] l IH]; simpl; [done|].
  destruct (to_cuda E v) as [v'|msg] eqn:Hv; simpl; [|done].
  intros Hl. rewrite IH by done.
  by destruct (to_cuda_Done _ _ Hv) as [-> _].
Qed.

(** The error that stops it is the one of a tensor that the accelerator
    refuses. *)
Lemma cuda_items_Some (l : list (string * Tensor R)) msg :
  (cuda_items E l).2 = Some msg →
  ∃ k v, (k, v) ∈ l ∧ to_cuda E v = Failed msg.
Proof.
  induction l as [|[k v] l IH]; simpl; [done|].
  destruct (to_cuda E v) as [v'|msg'] eqn:Hv; simpl.
  - intros (k' & v0 & Hin & H)%IH. exists k', v0. split; [by right | done].
  - intros [= ->]. exists k, v. split; [by left | done].
Qed.

(** Every tensor is as it was or on the accelerator. *)
Lemma cuda_items_elem_of (l : list (string * Tensor R)) k v' :
  (k, v') ∈ (cuda_items E l).1 →
  ∃ v, (k, v) ∈ l ∧ (v' = v ∨ v' = t_cuda v).
Proof.
  induction l as [|[k0 v0] l IH]; simpl; [by intros ?%elem_of_nil|].
  destruct (to_cuda E v0) as [v1|msg] eqn:Hv; simpl.
  - intros [[= -> ->]|Hin]%elem_of_cons.
    + exists v0. split; [by left|]. right. by destruct (to_cuda_Done _ _ Hv).
    + destruct (IH Hin) as (v & Hv' & Hor). exists v. split; [by right | done].
  - intros Hin. exists v'. split; [done | by left].
Qed.

(** Running the loop on what it left changes nothing more. *)
Lemma cuda_items_idemp (l : list (string * Tensor R)) :
  cuda_items E (cuda_items E l).1 = cuda_items E l.
Proof.
  induction l as [|[k v] l IH]; [done|]. simpl.
  destruct (to_cuda E v) as [v'|msg] eqn:Hv; simpl.
  - destruct (to_cuda_Done _ _ Hv) as (_ & _ & ->). by rewrite IH.
  - by rewrite Hv.
Qed.

(** The order of the items of a mapping depends on its keys alone. *)
Lemma map_to_list_keys {A B} (m1 : gmap string A) (m2 : gmap string B) :
  (∀ k, is_Some (m1 !! k) ↔ is_Some (m2 !! k)) →
  (map_to_list m1).*1 = (map_to_list m2).*1.
Proof.
  intros Hdom.
  assert (∀ C (m : gmap string C),
            (map_to_list m).*1 = (map_to_list ((λ _, ()) <$> m)).*1) as Hunit.
  { intros C m. rewrite map_to_list_fmap, <- list_fmap_compose.
    apply list_fmap_ext. by intros i [k x] _. }
  rewrite (Hunit _ m1), (Hunit _ m2). do 2 f_equal.
  apply map_eq. intros k. rewrite !lookup_fmap.
  specialize (Hdom k). unfold is_Some in Hdom.
  destruct (m1 !! k), (m2 !! k); simpl; try done.
  - destruct (proj1 Hdom) as [? ?]; [by eexists | done].
  - destruct (proj2 Hdom) as [? ?]; [by eexists | done].
Qed.

(** Two lists of items with the same keys in the same order, each key
    once, and the same values under them are one list. *)
Lemma items_eq {A} (l l' : list (string * A)) :
  l.*1 = l'.*1 → NoDup l.*1 →
  (∀ k v, (k, v) ∈ l → (k, v) ∈ l') →
  l = l'.
Proof.
  revert l'. induction l as [|[k v] l IH]; intros [|[k' v'] l'] Hkeys Hnd Hin;
    try done.
  rewrite !fmap_cons in Hkeys. simpl in Hkeys. injection Hkeys as <- Hkeys.
  change (l.*1 = l'.*1) in Hkeys. rewrite fmap_cons in Hnd.
  apply NoDup_cons in Hnd as [Hk Hnd].
  assert (v' = v) as ->.
  { pose proof (Hin k v (list_elem_of_here _ _)) as [Heq|Hv]%elem_of_cons;
      [congruence|].
    exfalso. apply Hk. rewrite Hkeys.
    by apply (list_elem_of_fmap_2 fst l' (k, v)). }
  f_equal. apply IH; [done..|].
  intros k1 v1 H1.
  pose proof (Hin k1 v1 (list_elem_of_further _ _ _ H1)) as [[= -> ->]|Hv]%elem_of_cons;
    [|done].
  exfalso. apply Hk. by apply (list_elem_of_fmap_2 fst l (k, v)).
Qed.

Lemma is_Some_list_to_map {A} (l : list (string * A)) k :
  is_Some ((list_to_map l : gmap string A) !! k) ↔ k ∈ l.*1.
Proof.
  rewrite <- not_eq_None_Some, <- not_elem_of_list_to_map.
  split; [apply dec_stable | auto].
Qed.

(** The items of the mapping that the loop leaves are the items that the
    loop leaves. *)
Lemma map_to_list_cuda_items (pw : gmap string (Tensor R)) :
  map_to_list (list_to_map (cuda_items E (map_to_list pw)).1 : gmap string (Tensor R))
  = (cuda_items E (map_to_list pw)).1.
Proof.
  set (l1 := (cuda_items E (map_to_list pw)).1).
  assert (l1.*1 = (map_to_list pw).*1) as Hkeys by apply cuda_items_keys.
  assert (NoDup l1.*1) as Hnd.
  { rewrite Hkeys. apply NoDup_fst_map_to_list. }
  apply items_eq.
  - rewrite Hkeys. apply map_to_list_keys. intros k.
    rewrite <- (list_to_map_to_list pw) at 1.
    by rewrite !is_Some_list_to_map, Hkeys.
  - apply NoDup_fst_map_to_list.
  - intros k v Hin. apply elem_of_map_to_list in Hin.
    by apply elem_of_list_to_map in Hin.
Qed.

(** The loop of [cuda], lines 98-99, on items that the mapping holds. *)
Lemma cuda_loop_run (l : list (string * Tensor R)) (o : LlavaVisionModel) tr pw :
  projector_weights o = Some pw →
  NoDup l.*1 →
  (∀ k v, (k, v) ∈ l → pw !! k = Some v) →
  for_each l (λ '(k, v), v ← lift (call (to_cuda E v)); store_weight k v)
    (mkWorld o tr)
  = (match (cuda_items E l).2 with
     | None => Ok tt
     | Some msg => Raise (External msg)
     end,
     mkWorld (set_projector_weights (list_to_map (cuda_items E l).1 ∪ pw) o) tr).
Proof.
  revert o pw. induction l as [|[k v] l IH]; intros o pw Hpw Hnd Hin.
  - simpl. rewrite (left_id_L ∅ (∪)). destruct o; simpl in *. by subst.
  - rewrite fmap_cons in Hnd. apply NoDup_cons in Hnd as [Hk Hnd].
    simpl for_each. rewrite !run_bind. unfold lift at 1. simpl.
    destruct (to_cuda E v) as [v'|msg] eqn:Hv; simpl.
    + unfold store_weight at 1. rewrite run_bind.
      unfold getattr at 1. simpl. rewrite Hpw. unfold setattr at 1. simpl.
      rewrite (IH _ (<[k:=v']> pw)); [|done|done|].
      * do 2 f_equal. unfold set_projector_weights. simpl. do 2 f_equal.
        rewrite <- insert_union_l. symmetry. apply insert_union_r.
        apply not_elem_of_list_to_map. by rewrite cuda_items_keys.
      * intros k1 v1 H1. rewrite lookup_insert_ne; [apply Hin; by right|].
        intros <-. apply Hk. by apply (list_elem_of_fmap_2 fst l (k, v1)).
    + f_equal. destruct o; simpl in *. subst. do 3 f_equal.
      change (pw = list_to_map ((k, v) :: l) ∪ pw).
      apply map_eq. intros k1. rewrite lookup_union.
      destruct (list_to_map ((k, v) :: l) !! k1) as [v1|] eqn:H1.
      * apply elem_of_list_to_map_2, Hin in H1. by rewrite H1.
      * by destruct (pw !! k1).
Qed.

(** What [cuda] does, case by case. *)
Lemma cuda_run (w : World) :
  cuda E w
  = match vision_tower (self w) with
    | None => (Raise (AttributeError "vision_tower"), w)
    | Some vt =>
        match vt_to_cuda E vt with
        | Failed msg => (Raise (External msg), w)
        | Done vt' =>
            match projector_weights (self w) with
            | None =>
                (Raise (AttributeError "projector_weights"),
                 mkWorld (set_vision_tower vt' (self w)) (trace w))
            | Some pw =>
                (match (cuda_items E (map_to_list pw)).2 with
                 | None => Ok tt
                 | Some msg => Raise (External msg)
                 end,
                 mkWorld (set_projector_weights
                            (list_to_map (cuda_items E (map_to_list pw)).1)
                            (set_vision_tower vt' (self w))) (trace w))
            end
        end
    end.
Proof.
  unfold cuda. rewrite run_bind. unfold getattr at 1.
  destruct (vision_tower (self w)) as [vt|]; [|done].
  rewrite run_bind. unfold lift at 1. simpl.
  destruct (vt_to_cuda E vt) as [vt'|msg]; simpl; [|by destruct w].
  rewrite run_bind. unfold setattr at 1. rewrite run_bind. unfold getattr at 1.
  simpl. destruct (projector_weights (self w)) as [pw|] eqn:Hpw; [|done].
  rewrite (cuda_loop_run _ _ _ pw); [|done|apply NoDup_fst_map_to_list|].
  - do 2 f_equal. unfold set_projector_weights. simpl. do 2 f_equal.
    apply map_eq. intros k. rewrite lookup_union.
    destruct (list_to_map (cuda_items E (map_to_list pw)).1 !! k) as [v|] eqn:Hk;
      [by destruct (pw !! k)|].
    apply not_elem_of_list_to_map in Hk. rewrite cuda_items_keys in Hk.
    apply not_elem_of_list_to_map in Hk. rewrite list_to_map_to_list in Hk.
    by rewrite Hk.
  - intros k v. apply elem_of_map_to_list.
Qed.

(** C9. When [cuda] ends normally the tower and every tensor of the
    projector weights are on the accelerator, the weights being otherwise
    the ones that were there; and calling [cuda] again gives the same
    outcome and leaves the same object. *)
Theorem cuda_moves_and_idempotent (w : World) :
  (fst (cuda E w) = Ok tt →
     ∃ vt pw,
       vision_tower (self w) = Some vt
       ∧ projector_weights (self w) = Some pw
       ∧ vision_tower (self (snd (cuda E w))) = Some (vt_cuda vt)
       ∧ vt_device (vt_cuda vt) = Cuda
       ∧ projector_weights (self (snd (cuda E w))) = Some (t_cuda <$> pw)
       ∧ map_Forall (λ _ v, t_device v = Cuda) (t_cuda <$> pw))
  ∧ cuda E (snd (cuda E w)) = cuda E w.
Proof.
  pose proof (cuda_run w) as Hrun.
  destruct (vision_tower (self w)) as [vt|] eqn:Hvt;
    [|rewrite Hrun; split; [done|]; rewrite cuda_run; simpl; by rewrite Hvt].
  destruct (vt_to_cuda E vt) as [vt'|msg] eqn:Hvt';
    [|rewrite Hrun; split; [done|]; rewrite cuda_run; simpl; by rewrite Hvt, Hvt'].
  destruct (vt_to_cuda_Done _ _ Hvt') as (-> & _ & Hagain).
  destruct (projector_weights (self w)) as [pw|] eqn:Hpw;
    [|rewrite Hrun; split; [done|]; rewrite cuda_run; simpl; by rewrite Hpw].
  rewrite Hrun. split.
  - simpl. destruct (cuda_items E (map_to_list pw)).2 eqn:Hr; [done|]. intros _.
    exists vt, pw. rewrite (cuda_items_moved _ Hr), list_to_map_fmap,
      list_to_map_to_list.
    repeat split; try done.
    intros k v. rewrite lookup_fmap. by destruct (pw !! k); intros [= <-].
  - rewrite cuda_run. simpl.
    by rewrite ?Hagain, map_to_list_cuda_items, cuda_items_idemp.
Qed.

End Cuda.

(** ** Blocks, slices and joined batches *)

Section TensorFacts.
Context {R : Type}.

Lemma chunks_length n k (l : list R) : length (chunks n k l) = k.
Proof. revert l. induction k as [|k IH]; intros l; simpl; [done | by rewrite IH]. Qed.

Lemma chunks_block_length n k (l : list R) :
  k * n ≤ length l → Forall (λ c, length c = n) (chunks n k l).
Proof.
  revert l. induction k as [|k IH]; intros l Hl; simpl; constructor.
  - rewrite length_take. lia.
  - apply IH. rewrite length_drop. lia.
Qed.

(** Cutting joined blocks of one length gives the blocks back. *)
Lemma chunks_concat n (ls : list (list R)) :
  Forall (λ c, length c = n) ls → chunks n (length ls) (concat ls) = ls.
Proof.
  induction 1 as [|c ls Hc _ IH]; simpl; [done|].
  rewrite take_app_length' by done.
  by rewrite drop_app_length' by done; rewrite IH.
Qed.

Lemma concat_block_length n (ls : list (list R)) :
  Forall (λ c, length c = n) ls → length (concat ls) = length ls * n.
Proof.
  induction 1 as [|c ls Hc _ IH]; simpl; [done|]. rewrite length_app. lia.
Qed.

(** Without its first block of [n], a list has the blocks after the
    first. *)
Lemma chunks_drop_first n k (l : list R) :
  chunks n (k - 1) (drop n l) = drop 1 (chunks n k l).
Proof. destruct k as [|k]; simpl; [done | by rewrite Nat.sub_0_r]. Qed.

(** [t[:, 1:]] of a tensor of shape [(b, l, n)]: every element of the batch
    loses its first token and keeps the others in order. *)
Lemma slice_from1_tokens (t : Tensor R) b l n :
  t_shape t = [b; l; n] →
  t_wf t →
  ∃ t',
    slice_from1 t = Ok t'
    ∧ t_shape t' = [b; l - 1; n]
    ∧ t_dtype t' = t_dtype t
    ∧ t_device t' = t_device t
    ∧ tokens t' = drop 1 <$> tokens t
    ∧ t_wf t'.
Proof.
  intros Hs Hwf. unfold slice_from1, tokens, t_wf in *. rewrite Hs in *.
  eexists. split; [done|]. simpl in *. rewrite Nat.mul_1_r in *.
  assert (Forall (λ c, length c = (l - 1) * n)
            (drop n <$> chunks (l * n) b (t_data t))) as Hblocks.
  { apply Forall_fmap. eapply Forall_impl; [apply chunks_block_length; lia|].
    intros c Hc. simpl. rewrite length_drop, Hc. nia. }
  repeat split.
  - pose proof (chunks_concat _ _ Hblocks) as Hcut.
    rewrite length_fmap, chunks_length in Hcut. rewrite Hcut.
    rewrite <- !list_fmap_compose. apply list_fmap_ext.
    intros i c _. simpl. apply chunks_drop_first.
  - rewrite (concat_block_length _ _ Hblocks), length_fmap, chunks_length. lia.
Qed.

(** Joining along the first dimension adds the first dimensions up. *)
Lemma cat_onto_head (ts : list (Tensor R)) acc t :
  cat_onto acc ts = Ok t →
  t_shape acc ≠ [] →
  head (t_shape t) = Some (tile_count acc + sum_list (tile_count <$> ts)).
Proof.
  revert acc. induction ts as [|x ts IH]; intros acc H Hacc; simpl in *.
  - injection H as <-. unfold tile_count.
    destruct (t_shape acc); [done | simpl; f_equal; lia].
  - destruct (bool_decide (t_device acc = t_device x)); [|done]. simpl in H.
    destruct (bool_decide (t_shape x = [])) eqn:Hx; [done|].
    apply bool_decide_eq_false in Hx.
    unfold legacy_empty in H.
    destruct (bool_decide (t_shape x = [0])) eqn:Hx0.
    { apply bool_decide_eq_true in Hx0. apply IH in H; [|done].
      rewrite H. unfold tile_count. simpl. rewrite Hx0. simpl. f_equal. }
    destruct (bool_decide (t_shape acc = [0])) eqn:Hacc0.
    { apply bool_decide_eq_true in Hacc0. apply IH in H; [|done].
      rewrite H. unfold tile_count. simpl. rewrite Hacc0. simpl. f_equal. }
    destruct (t_shape acc) as [|d tl] eqn:Hsa; [done|].
    destruct (t_shape x) as [|d' tl'] eqn:Hsx; [done|].
    destruct (bool_decide (tl = tl')); [|done].
    apply IH in H; [|done]. rewrite H.
    unfold tile_count. rewrite ?Hsa, ?Hsx. simpl. unfold fmap. f_equal. lia.
Qed.

Lemma cat0_head (ts : list (Tensor R)) t :
  cat0 ts = Ok t →
  head (t_shape t) = Some (sum_list (tile_count <$> ts)).
Proof.
  unfold cat0. destruct ts as [|x ts]; [done|].
  destruct (t_shape x) eqn:Hx; [done|]. intros H.
  apply cat_onto_head in H; [done | by rewrite Hx].
Qed.

Lemma sum_list_take_le (cs : list nat) i : sum_list (take i cs) ≤ sum_list cs.
Proof.
  revert i. induction cs as [|c cs IH]; intros [|i]; simpl; try lia.
  specialize (IH i). lia.
Qed.

Lemma sum_list_take_S (cs : list nat) i c :
  cs !! i = Some c → sum_list (take (S i) cs) = sum_list (take i cs) + c.
Proof.
  revert i. induction cs as [|c' cs IH]; intros [|i] Hi; simpl in *; try done.
  - injection Hi as ->. lia.
  - rewrite (IH _ Hi). lia.
Qed.

Lemma sum_list_ones (cs : list nat) :
  Forall (λ c, c = 1) cs → sum_list cs = length cs.
Proof. induction 1 as [|c cs -> _ IH]; simpl; [done | by rewrite IH]. Qed.

End TensorFacts.

(** ** [forward] *)

Section Forward.
Context {R Image : Type}.
Variable E : Env R Image.
Variable self : LlavaVisionModel R Image.

Lemma py_eq_str_true v s : py_eq_str v s = true ↔ v = VStr s.
Proof.
  destruct v; simpl; try (split; [done | by intros ?]).
  destruct (String.eqb_spec s0 s) as [->|Hne]; split; try done.
  by intros [= ->].
Qed.

(** What [select_tokens] gives has the batch size of what it is given. *)
Lemma select_tokens_head h h' :
  select_tokens self h = Ok h' → head (t_shape h') = head (t_shape h).
Proof.
  unfold select_tokens. intros H.
  apply bind_Ok_inv in H as (sf & _ & H).
  destruct (_ || _); [|by injection H as <-].
  unfold slice_from1 in H.
  destruct (t_shape h) as [|d0 [|d1 rest]]; try done. by injection H as <-.
Qed.

(** The projector gives a tensor of three dimensions, the first two those
    of what it is given. *)
Lemma mm_project_shape h emb :
  mm_project E self h = Ok emb →
  ∃ b l n d, t_shape h = [b; l; n] ∧ t_shape emb = [b; l; d].
Proof.
  unfold mm_project. intros H.
  apply bind_Ok_inv in H as ([[b l] n] & Hshape & H).
  unfold unpack3 in Hshape.
  destruct (t_shape h) as [|? [|? [|? [|]]]]; try done.
  injection Hshape as -> -> ->.
  repeat (apply bind_Ok_inv in H as (? & _ & H)).
  unfold view_batch in H. repeat case_match; try done.
  injection H as <-. by eexists _, _, _, _.
Qed.

(** The hidden state that is selected is one the tower gave. *)
Lemma select_hidden_inv x h :
  select_hidden E self x = Ok h →
  ∃ vt hs,
    vision_tower self = Some vt
    ∧ vt_call vt (t_cuda (t_half (to_half E) x)) = Done hs
    ∧ h ∈ hs.
Proof.
  unfold select_hidden. intros H.
  apply bind_Ok_inv in H as (x' & Hx'%call_Ok_inv & H).
  apply (to_cuda_Done E) in Hx' as (-> & _ & _).
  apply bind_Ok_inv in H as (vt & Hvt & H).
  apply bind_Ok_inv in H as (hs & Hhs%call_Ok_inv & H).
  apply bind_Ok_inv in H as (sl & _ & H).
  apply bind_Ok_inv in H as (i & _ & H%py_index_elem_of).
  exists vt, hs. split; [|done].
  destruct (vision_tower self) as [vt'|]; simpl in Hvt; congruence.
Qed.

Lemma t_half_shape (round : R → R) (t : Tensor R) :
  t_shape (t_half round t) = t_shape t.
Proof. unfold t_half. by destruct (t_dtype t). Qed.

(** The batch that [forward] returns: three dimensions, the first the
    batch size of the selected hidden state. *)
Lemma forward_shape x emb :
  forward E self x = Ok emb →
  ∃ h b l d,
    select_hidden E self x = Ok h
    ∧ head (t_shape h) = Some b
    ∧ t_shape emb = [b; l; d].
Proof.
  unfold forward. intros H.
  apply bind_Ok_inv in H as (h & Hh & H).
  apply bind_Ok_inv in H as (h' & Hh' & H).
  apply mm_project_shape in H as (b & l & n & d & Hs & Hemb).
  apply select_tokens_head in Hh'. rewrite Hs in Hh'.
  by exists h, b, l, d.
Qed.

(** C7. With a negative [select_layer] [-n <= z < 0] on a stack of [n]
    hidden states, which the tower gave for the input on the accelerator,
    the hidden state at position [n + z] is selected, and it is the one
    [forward] goes on with. *)
Theorem forward_negative_select_layer x vt hs z :
  takes E (t_half (to_half E) x) →
  vision_tower self = Some vt →
  vt_call vt (t_cuda (t_half (to_half E) x)) = Done hs →
  select_layer self = Some (VInt z) →
  (- Z.of_nat (length hs) ≤ z < 0)%Z →
  ∃ h,
    hs !! Z.to_nat (Z.of_nat (length hs) + z) = Some h
    ∧ select_hidden E self x = Ok h
    ∧ forward E self x = (h' ← select_tokens self h; mm_project E self h').
Proof.
  intros [x' Hx'] Hvt Hhs Hsl Hz.
  destruct (to_cuda_Done E _ _ Hx') as (-> & _ & _).
  destruct (py_index_negative hs z Hz) as (h & Hlookup & Hidx).
  assert (select_hidden E self x = Ok h) as Hsel.
  { unfold select_hidden. rewrite Hx'. simpl. rewrite Hvt. simpl.
    rewrite Hhs. simpl. rewrite Hsl. simpl. done. }
  exists h. split; [done|]. split; [done|].
  unfold forward. by rewrite Hsel.
Qed.

(** C6. With [select_feature] equal to "patch" or "default" the projector
    is given the selected hidden state without the first token of every
    element of the batch, the other tokens in order; with any other
    [select_feature] it is given the selected hidden state as it is. *)
Theorem forward_select_feature x h sf :
  select_hidden E self x = Ok h →
  select_feature self = Some sf →
  (sf = VStr "patch" ∨ sf = VStr "default" →
     forward E self x = (h' ← slice_from1 h; mm_project E self h')
     ∧ ∀ b l n, t_shape h = [b; l; n] → t_wf h →
         ∃ h', slice_from1 h = Ok h'
               ∧ t_shape h' = [b; l - 1; n]
               ∧ tokens h' = drop 1 <$> tokens h)
  ∧ (sf ≠ VStr "patch" → sf ≠ VStr "default" →
     forward E self x = mm_project E self h).
Proof.
  intros Hsel Hsf. unfold forward, select_tokens. rewrite Hsel, Hsf. simpl.
  split.
  - intros Hpatch.
    assert (py_eq_str sf "patch" || py_eq_str sf "default" = true) as ->.
    { apply orb_true_iff. by rewrite !py_eq_str_true. }
    split; [done|]. intros b l n Hs Hwf.
    destruct (slice_from1_tokens h b l n Hs Hwf) as (h' & ? & ? & _ & _ & ? & _).
    by exists h'.
  - intros Hp Hd.
    assert (py_eq_str sf "patch" || py_eq_str sf "default" = false) as ->; [|done].
    apply orb_false_iff.
    split; apply not_true_is_false; by rewrite py_eq_str_true.
Qed.

(** C8, as the code has it.  What [encode] returns for a non-empty input
    is a tensor of three dimensions with the uuids of the items and one
    interval for each item, in order; when the tower keeps the batch size,
    the first dimension is the number of tiles of all the images, every
    interval lies within it, and it is the number of images when every
    image gives one tile. *)
Theorem encode_embedding_batch images emb us rs :
  encode E self images = Ok (Some (emb, us, rs)) →
  ∃ ims ts b l d,
    images = ItImage <$> ims
    ∧ Forall2 (tiled E self) ims ts
    ∧ t_shape emb = [b; l; d]
    ∧ us = uuid <$> ims
    ∧ rs = intervals_from 0 (tile_count <$> ts)
    ∧ length us = length images
    ∧ length rs = length images
    ∧ ((∀ vt, vision_tower self = Some vt → batch_preserving vt) →
         b = sum_list (tile_count <$> ts)
         ∧ (∀ i s e, rs !! i = Some [s; e] → (0 ≤ s ≤ e)%Z ∧ (e ≤ Z.of_nat b)%Z)
         ∧ (Forall (λ t, tile_count t = 1) ts → b = length images)).
Proof.
  intros H.
  destruct (encode_loop E self (mkEncState [] [] 0 []) images)
    as [st|e] eqn:Hloop; [|by unfold encode in H; rewrite Hloop in H].
  apply encode_loop_Ok_inv in Hloop as (ims & ts & -> & Hall).
  assert (ims ≠ []) as Hne.
  { by intros ->. }
  rewrite (encode_tiled _ _ _ _ Hall Hne) in H.
  apply bind_Ok_inv in H as (img & Hcat & H).
  apply bind_Ok_inv in H as (emb' & Hfwd & [= -> <- <-]).
  apply forward_shape in Hfwd as (h & b & l & d & Hsel & Hb & Hemb).
  exists ims, ts, b, l, d.
  rewrite intervals_from_length, !length_fmap.
  rewrite (Forall2_length _ _ _ Hall).
  repeat (split; [done|]). intros Hbatch.
  assert (b = sum_list (tile_count <$> ts)) as ->.
  { apply select_hidden_inv in Hsel as (vt & hs & Hvt & Hhs & Hin).
    rewrite (Hbatch vt Hvt _ _ _ Hhs Hin) in Hb. simpl in Hb.
    rewrite t_half_shape, (cat0_head _ _ Hcat) in Hb. by injection Hb. }
  split; [done|]. split.
  - intros i s e Hi.
    destruct (lookup_lt_is_Some_2 (tile_count <$> ts) i) as [c Hc].
    { apply lookup_lt_Some in Hi. by rewrite intervals_from_length in Hi. }
    rewrite (intervals_from_lookup _ _ _ _ Hc) in Hi. injection Hi as <- <-.
    pose proof (sum_list_take_le (tile_count <$> ts) (S i)) as Hle.
    rewrite (sum_list_take_S _ _ _ Hc) in Hle. lia.
  - intros Hone. rewrite sum_list_ones; [by rewrite length_fmap | by apply Forall_fmap].
Qed.

End Forward.

(** ** The properties on the concrete installation *)

Lemma demo_tower (dir : string) :
  dir = "hf"%string ∨ dir = "bin"%string →
  vision_tower (Demo.ready dir)
  = Some (mkVisionTower Float16 Cuda false (vt_net Demo.tower)).
Proof. by intros [-> | ->]; vm_compute. Qed.

Lemma demo_tower_batch_preserving :
  ∀ vt, vision_tower (Demo.ready "hf") = Some vt → batch_preserving vt.
Proof.
  intros vt Hvt. rewrite demo_tower in Hvt by auto. injection Hvt as <-.
  intros x hs h Hcall Hin. unfold vt_call in Hcall. simpl in Hcall.
  destruct (t_shape x) as [|batch shape]; [done|].
  destruct (bool_decide _); [|done]. injection Hcall as <-.
  simpl in Hin.
  repeat (apply elem_of_cons in Hin as [-> | Hin]; [done|]).
  by apply elem_of_nil in Hin.
Qed.

(** [encode] of the empty list on the loaded adapter. *)
Lemma encode_none_iff_empty_witness :
  encode Demo.env (Demo.ready "hf") [] = Ok None.
Proof. by apply encode_none_iff_empty. Defined.

(** The packaged directory loads and has the four keys; the directory whose
    projector file lacks a bias fails the assertion. *)
Lemma load_model_canonical_keys_witness :
  (∃ pw, projector_weights (Demo.loaded "hf") = Some pw
         ∧ ∀ k, k ∈ canonical_keys → is_Some (pw !! k))
  ∧ fst (load_model Demo.env "short" Demo.world0) = Raise AssertionError.
Proof.
  split.
  - apply (load_model_canonical_keys Demo.env "hf" Demo.world0).
    vm_compute. reflexivity.
  - apply (proj2 (load_model_canonical_keys Demo.env "short" Demo.world0)
             (snd (load_weights Demo.env "short" Demo.world0))
             (default ∅ (projector_weights
                           (self (snd (load_weights Demo.env "short" Demo.world0)))))
             "model.mm_projector.2.bias").
    + rewrite (surjective_pairing (load_weights Demo.env "short" Demo.world0)).
      f_equal; vm_compute; reflexivity.
    + vm_compute. reflexivity.
    + unfold canonical_keys. repeat constructor.
    + vm_compute. reflexivity.
Defined.

(** Both loaders leave half-precision weights. *)
Lemma load_model_weights_half_witness :
  (∃ pw, projector_weights (Demo.loaded "hf") = Some pw
         ∧ ∀ k v, pw !! k = Some v → t_dtype v = Float16)
  ∧ (∃ pw, projector_weights (Demo.loaded "bin") = Some pw
           ∧ ∀ k v, pw !! k = Some v → t_dtype v = Float16).
Proof.
  split.
  - apply (load_model_weights_half Demo.env "hf" VNone Demo.world0).
    vm_compute. reflexivity.
  - apply (load_model_weights_half Demo.env "bin" VNone Demo.world0).
    vm_compute. reflexivity.
Defined.

(** The directory with [text_config] goes through the packaged loader, the
    one without through the loose loader. *)
Lemma load_model_strategy_witness :
  (∃ tr, trace (snd (load_model Demo.env "hf" Demo.world0))
         = [EvOpen "hf/config.json"] ++ tr
         ∧ Forall (λ ev, ¬ loose_event ev) tr)
  ∧ (∃ tr, trace (snd (load_model Demo.env "bin" Demo.world0))
           = [EvOpen "bin/config.json"] ++ tr
           ∧ Forall (λ ev, ¬ packaged_event ev) tr).
Proof.
  split.
  - refine (proj2 (proj1 (load_model_strategy Demo.env "hf" Demo.world0
                            [("model_type", VStr "llava"); ("text_config", VDict [])]
                            eq_refl) _)).
    simpl. repeat constructor.
  - refine (proj2 (proj2 (load_model_strategy Demo.env "bin" Demo.world0
                            [("mm_vision_tower", VStr "./clip");
                             ("mm_vision_select_feature", VStr "cls_patch")]
                            eq_refl) _)).
    simpl. intros H.
    repeat (apply elem_of_cons in H as [H|H]; [discriminate|]).
    by apply elem_of_nil in H.
Defined.

(** After [load_model] and [cuda] all is on the accelerator. *)
Lemma cuda_moves_and_idempotent_witness :
  ∃ vt pw,
    vision_tower (Demo.loaded "hf") = Some vt
    ∧ projector_weights (Demo.loaded "hf") = Some pw
    ∧ vision_tower (Demo.ready "hf") = Some (vt_cuda vt)
    ∧ vt_device (vt_cuda vt) = Cuda
    ∧ projector_weights (Demo.ready "hf") = Some (t_cuda <$> pw)
    ∧ map_Forall (λ _ v, t_device v = Cuda) (t_cuda <$> pw).
Proof.
  apply (cuda_moves_and_idempotent Demo.env
           (snd (load_model Demo.env "hf" Demo.world0))).
  vm_compute. reflexivity.
Defined.

(** One image through the packaged adapter, whose [select_layer] is [-2]:
    of the three hidden states the one at position [1] is selected. *)
Lemma forward_negative_select_layer_witness :
  ∃ h,
    Demo.layer Float16 Cuda 1 <$> [0; 1; 2] !! 1 = Some h
    ∧ select_hidden Demo.env (Demo.ready "hf") (Demo.ones Float32 [1; 1; 2; 2]) = Ok h.
Proof.
  destruct (forward_negative_select_layer Demo.env (Demo.ready "hf")
              (Demo.ones Float32 [1; 1; 2; 2])
              (mkVisionTower Float16 Cuda false (vt_net Demo.tower))
              (Demo.layer Float16 Cuda 1 <$> [0; 1; 2]) (-2))
    as (h & Hlookup & Hsel & _).
  - eexists. vm_compute. reflexivity.
  - apply demo_tower. auto.
  - vm_compute. reflexivity.
  - vm_compute. reflexivity.
  - simpl. lia.
  - exists h. split; [exact Hlookup | exact Hsel].
Defined.

(** The packaged adapter, whose [select_feature] is "default", drops the
    first of the four tokens. *)
Lemma forward_select_feature_witness :
  ∃ h',
    slice_from1 (Demo.layer Float16 Cuda 1 1) = Ok h'
    ∧ t_shape h' = [1; 3; 2]
    ∧ tokens h' = drop 1 <$> tokens (Demo.layer Float16 Cuda 1 1).
Proof.
  destruct (forward_select_feature Demo.env (Demo.ready "hf")
              (Demo.ones Float32 [1; 1; 2; 2]) (Demo.layer Float16 Cuda 1 1)
              (VStr "default")) as [Hpatch _].
  - vm_compute. reflexivity.
  - vm_compute. reflexivity.
  - destruct (Hpatch (or_intror eq_refl)) as [_ Hslice].
    apply (Hslice 1 4 2); reflexivity.
Defined.

(** Two images of one and two tiles: a batch of three. *)
Lemma encode_embedding_batch_witness :
  ∃ emb (ts : list (Tensor Z)) l d,
    encode Demo.env (Demo.ready "hf") [ItImage Demo.imgA; ItImage Demo.imgB]
    = Ok (Some (emb, [1; 2]%Z, [[0; 1]; [1; 3]]%Z))
    ∧ t_shape emb = [sum_list (tile_count <$> ts); l; d].
Proof.
  destruct (encode Demo.env (Demo.ready "hf") [ItImage Demo.imgA; ItImage Demo.imgB])
    as [[[[emb us] rs]|]|] eqn:Henc; try (vm_compute in Henc; discriminate).
  destruct (encode_embedding_batch Demo.env (Demo.ready "hf") _ emb us rs Henc)
    as (ims & ts & b & l & d & _ & _ & Hshape & _ & _ & _ & _ & Hbatch).
  destruct (Hbatch demo_tower_batch_preserving) as [-> _].
  exists emb, ts, l, d. split; [|exact Hshape].
  vm_compute in Henc. injection Henc as <- <- <-. reflexivity.
Defined.

(** C8 as stated fails: two images, of one and two tiles, give a batch
    whose first dimension is three. *)
Lemma encode_first_dimension_counts_tiles :
  ∃ emb us rs,
    encode Demo.env (Demo.ready "hf") [ItImage Demo.imgA; ItImage Demo.imgB]
    = Ok (Some (emb, us, rs))
    ∧ (∀ vt, vision_tower (Demo.ready "hf") = Some vt → batch_preserving vt)
    ∧ length [ItImage Demo.imgA; ItImage Demo.imgB] = 2
    ∧ t_shape emb = [3; 3; 5]
    ∧ head (t_shape emb) ≠ Some (length [ItImage Demo.imgA; ItImage Demo.imgB]).
Proof.
  eexists _, _, _. split; [vm_compute; reflexivity|].
  split; [apply demo_tower_batch_preserving|].
  split; [reflexivity|]. split; [reflexivity|]. simpl. discriminate.
Qed.

(** * Further properties *)

(** ** Loops that may stop early *)

Section LoopRules.
Context {R Image : Type}.

#[local] Abbreviation World := (World R Image).

(** A loop over [l] with an invariant on the part of [l] gone through: when
    it ends normally the invariant holds of all of [l], and it ends normally
    when every turn does under [T]. *)
Lemma wp_for_each_prefix {A} (I : list A → World → Prop) (T : Prop)
    (l : list A) (body : A → M R Image unit) (w : World) :
  I [] w →
  (∀ pre x post w',
     l = pre ++ x :: post → I pre w' →
     wp (body x) (λ r w'', (r = Ok tt → I (pre ++ [x]) w'') ∧ (T → r = Ok tt)) w') →
  wp (for_each l body) (λ r w', (r = Ok tt → I l w') ∧ (T → r = Ok tt)) w.
Proof.
  intros Hstart Hbody.
  assert (∀ rest pre w',
            l = pre ++ rest → I pre w' →
            wp (for_each rest body)
               (λ r w'', (r = Ok tt → I l w'') ∧ (T → r = Ok tt)) w') as Hgen.
  { induction rest as [|x rest IH]; intros pre w' Hl Hpre.
    - rewrite app_nil_r in Hl. subst. by split.
    - simpl. apply wp_bind. eapply wp_mono; [by eapply Hbody|].
      intros [[]|e] w'' [Hinv Hok]; simpl.
      + apply (IH (pre ++ [x])); [by rewrite <- app_assoc | by apply Hinv].
      + split; [done|]. intros HT. by specialize (Hok HT). }
  by apply (Hgen l []).
Qed.

End LoopRules.

(** ** What the loaders store, and from where *)

Section LoaderContents.
Context {R Image : Type}.
Variable E : Env R Image.

#[local] Abbreviation World := (World R Image).
#[local] Abbreviation LlavaVisionModel := (LlavaVisionModel R Image).

Lemma weights_from_empty (S : string → Tensor R → Prop) :
  (∀ k v, ¬ S k v) → weights_from E S ∅.
Proof.
  intros Hnone. split.
  - intros k v Hk. by rewrite lookup_empty in Hk.
  - intros k v0 HS. by apply Hnone in HS.
Qed.

Lemma weights_from_iff (S S' : string → Tensor R → Prop) pw :
  (∀ k v, S k v ↔ S' k v) → weights_from E S pw → weights_from E S' pw.
Proof.
  intros Hiff [Hsound Hcomplete]. split.
  - intros k v Hk. destruct (Hsound k v Hk) as (v0 & HS & ->).
    exists v0. by rewrite <- Hiff.
  - intros k v0 HS. apply (Hcomplete k v0). by rewrite Hiff.
Qed.

Lemma weights_from_insert (S : string → Tensor R → Prop) pw k v0 :
  weights_from E S pw →
  weights_from E (λ k' v', S k' v' ∨ (k' = k ∧ v' = v0))
    (<[k := t_half (to_half E) v0]> pw).
Proof.
  intros [Hsound Hcomplete]. split.
  - intros k' v. rewrite lookup_insert. case_decide as Hk.
    + intros [= <-]. subst. exists v0. by split; [right|].
    + intros Hv. destruct (Hsound k' v Hv) as (v1 & HS & ->).
      exists v1. by split; [left|].
  - intros k' v' [HS | [-> ->]].
    + rewrite lookup_insert. case_decide; [by eexists | by eapply Hcomplete].
    + rewrite lookup_insert_eq. by eexists.
Qed.

Lemma loading_iff (o : LlavaVisionModel) tr (S S' : string → Tensor R → Prop) (w : World) :
  (∀ k v, S k v ↔ S' k v) → loading E o tr S w → loading E o tr S' w.
Proof.
  intros Hiff (pw & Hself & Htr & Hfrom).
  exists pw. split; [done|]. split; [done|]. by eapply weights_from_iff.
Qed.

(** Storing one weight always ends normally. *)
Lemma store_weight_loading (o : LlavaVisionModel) tr S k v0 (w : World) (T : Prop) :
  loading E o tr S w →
  wp (store_weight k (t_half (to_half E) v0))
     (λ r w', (r = Ok tt → loading E o tr (λ k' v', S k' v' ∨ (k' = k ∧ v' = v0)) w')
              ∧ (T → r = Ok tt)) w.
Proof.
  intros (pw & Hself & Htr & Hfrom).
  unfold store_weight. apply wp_bind, wp_getattr. rewrite Hself. simpl.
  apply wp_setattr. split; [|done]. intros _.
  exists (<[k := t_half (to_half E) v0]> pw). simpl.
  split; [by rewrite Hself|]. split; [done|]. by apply weights_from_insert.
Qed.

(** The loop over the items of one [.bin] file, lines 92-94. *)
Lemma bin_items_loading (o : LlavaVisionModel) tr S (d : list (string * Tensor R))
    (w : World) (T : Prop) :
  loading E o tr S w →
  wp (for_each d (λ '(k, v),
        if PyStr.contains "model.mm_projector" k
        then store_weight k (t_half (to_half E) v)
        else mret tt))
     (λ r w', (r = Ok tt →
               loading E o tr
                 (λ k v0, S k v0
                          ∨ ((k, v0) ∈ d ∧ PyStr.contains "model.mm_projector" k = true)) w')
              ∧ (T → r = Ok tt)) w.
Proof.
  intros Hw.
  apply (wp_for_each_prefix
           (λ pre w', loading E o tr
                        (λ k v0, S k v0
                                 ∨ ((k, v0) ∈ pre
                                    ∧ PyStr.contains "model.mm_projector" k = true)) w')).
  - eapply loading_iff; [|done]. intros k v. split; [by left|].
    by intros [?|[?%elem_of_nil _]].
  - intros pre [k v] post w' _ Hpre.
    destruct (PyStr.contains "model.mm_projector" k) eqn:Hk.
    + eapply wp_mono; [apply (store_weight_loading _ _ _ k v _ T Hpre)|].
      intros r w'' [Hinv Hok]. split; [|done]. intros Hr.
      eapply loading_iff; [|by apply Hinv]. intros k' v'.
      rewrite elem_of_app, list_elem_of_singleton. split.
      * intros [[?|[? ?]]|[-> ->]];
          [by left | right; split; [by left|done] | right; split; [by right|done]].
      * intros [?|[[?|[= -> ->]] Hc]]; [by do 2 left | left; right; done | by right].
    + apply wp_ret. split; [|done]. intros _.
      eapply loading_iff; [|done]. intros k' v'.
      rewrite elem_of_app, list_elem_of_singleton. split.
      * intros [?|[? ?]]; [by left | right; split; [by left | done]].
      * intros [?|[[?|[= -> ->]] Hc]]; [by left | by right | congruence].
Qed.

Lemma bin_files_snoc files f :
  bin_files (files ++ [f])
  = bin_files files ++ (if PyStr.endswith ".bin" f then [f] else []).
Proof. unfold bin_files. rewrite List.filter_app. simpl. by destruct (PyStr.endswith _ f). Qed.

Lemma bin_source_nil weight_dir k v : ¬ bin_source E weight_dir [] k v.
Proof. by intros (f & d & ?%elem_of_nil & _). Qed.

Lemma bin_source_snoc weight_dir files f k v :
  bin_source E weight_dir (files ++ [f]) k v
  ↔ bin_source E weight_dir files k v
    ∨ (PyStr.endswith ".bin" f = true
       ∧ ∃ d, torch_load E (PyStr.path_join weight_dir f) = Done d
              ∧ (k, v) ∈ d
              ∧ PyStr.contains "model.mm_projector" k = true).
Proof.
  unfold bin_source. split.
  - intros (f' & d & Hin & Hbin & Hload & Hkv & Hk).
    apply elem_of_app in Hin as [Hin | ->%list_elem_of_singleton].
    + left. by exists f', d.
    + right. split; [done|]. by exists d.
  - intros [(f' & d & Hin & Hrest) | (Hbin & d & Hload & Hkv & Hk)].
    + exists f', d. split; [|done]. apply elem_of_app. by left.
    + exists f, d. split; [|done]. apply elem_of_app. right. by apply list_elem_of_singleton.
Qed.

(** The loop over the files of the directory, lines 89-94. *)
Lemma bin_files_loading (o : LlavaVisionModel) tr weight_dir (files : list string)
    (w : World) :
  loading E o tr (bin_source E weight_dir []) w →
  wp (for_each files (λ f,
        if PyStr.endswith ".bin" f then
          d ← extern (EvTorchLoad (PyStr.path_join weight_dir f))
                (torch_load E (PyStr.path_join weight_dir f));
          for_each d (λ '(k, v),
            if PyStr.contains "model.mm_projector" k
            then store_weight k (t_half (to_half E) v)
            else mret tt)
        else mret tt))
     (λ r w',
        (r = Ok tt →
         loading E o
           (tr ++ (EvTorchLoad ∘ PyStr.path_join weight_dir <$> bin_files files))
           (bin_source E weight_dir files) w')
        ∧ ((∀ f, f ∈ files → PyStr.endswith ".bin" f = true →
              ∃ d, torch_load E (PyStr.path_join weight_dir f) = Done d) →
           r = Ok tt)) w.
Proof.
  intros Hw.
  apply (wp_for_each_prefix
           (λ pre w',
              loading E o
                (tr ++ (EvTorchLoad ∘ PyStr.path_join weight_dir <$> bin_files pre))
                (bin_source E weight_dir pre) w')).
  - simpl. by rewrite app_nil_r.
  - intros pre f post w' Hfiles (pw & Hself & Htr & Hfrom).
    rewrite bin_files_snoc, fmap_app, app_assoc.
    destruct (PyStr.endswith ".bin" f) eqn:Hbin.
    + apply wp_bind, wp_extern.
      destruct (torch_load E (PyStr.path_join weight_dir f)) as [d|msg] eqn:Hload; simpl.
      * eapply wp_mono.
        { apply (bin_items_loading o
                   (tr ++ (EvTorchLoad ∘ PyStr.path_join weight_dir <$> bin_files pre)
                       ++ [EvTorchLoad (PyStr.path_join weight_dir f)])
                   (bin_source E weight_dir pre) d _ True).
          exists pw. simpl. rewrite Htr. by rewrite <- app_assoc. }
        intros r w'' [Hinv Hok]. split; [|by intros _; apply Hok].
        intros Hr. rewrite <- app_assoc.
        eapply loading_iff; [|by apply Hinv].
        intros k v. rewrite bin_source_snoc. split.
        -- intros [?|[? ?]]; [by left | right; split; [done|]; by exists d].
        -- intros [?|[_ (d' & Hd' & ? & ?)]]; [by left|]. right.
           rewrite Hload in Hd'. by injection Hd' as <-.
      * split; [done|]. intros Hall.
        destruct (Hall f) as [d Hd]; [|done|congruence].
        rewrite Hfiles. apply elem_of_app. right. by left.
    + apply wp_ret. split; [|done]. intros _. exists pw. simpl.
      rewrite app_nil_r. split; [done|]. split; [done|].
      eapply weights_from_iff; [|done].
      intros k v. rewrite bin_source_snoc.
      split; [by left | intros [?|[? _]]; [done | congruence]].
Qed.

Lemma wp_bind_assoc {A B C} (m : M R Image A) (f : A → M R Image B)
    (g : B → M R Image C) Q (w : World) :
  wp ((m ≫= f) ≫= g) Q w → wp (m ≫= λ a, f a ≫= g) Q w.
Proof.
  unfold wp, mbind, M_bind. destruct (m w) as [[a|e] w']; [|done].
  by destruct (f a w') as [[b|e] w''].
Qed.

(** Lines 76-80: the path of the tower is worked out without touching the
    object or the log, and it is worked out exactly when the entry of the
    configuration has one of the two shapes. *)
Lemma vision_path_steps cfg weight_dir (w : World) :
  wp (vision_path ← match default (VStr "openai/clip-vit-large-patch14-336")
                           (assoc_get "mm_vision_tower" cfg) with
                    | VList l => lift (py_index l 0)
                    | _ => mret (default (VStr "openai/clip-vit-large-patch14-336")
                                   (assoc_get "mm_vision_tower" cfg))
                    end;
      match vision_path with
      | VStr p =>
          mret (if PyStr.startswith "./" p
                then PyStr.path_join weight_dir p else p)
      | _ => raise (AttributeError "startswith")
      end)
     (λ r w', w' = w
              ∧ (∀ path, r = Ok path ↔ vision_path_of cfg weight_dir path)) w.
Proof.
  unfold vision_path_of.
  destruct (default _ (assoc_get "mm_vision_tower" cfg)) as [| | | |p|l|] eqn:Hvp;
    try (split; [done|]; intros path; split; [done|];
         by intros (p & [Hp | [rest Hp]] & _)).
  - split; [done|]. intros path. split.
    + intros [= <-]. exists p. split; [by left | done].
    + intros (p' & [[= <-] | [rest Hp]] & ->); done.
  - apply wp_bind, wp_lift. rewrite py_index_head.
    destruct l as [|v rest].
    + split; [done|]. intros path. split; [done|].
      by intros (p & [Hp | [rest Hp]] & _).
    + destruct v as [| | | |p| |];
        try (split; [done|]; intros path; split; [done|];
             by intros (p & [Hp | [rest' Hp]] & _)).
      split; [done|]. intros path. split.
      * intros [= <-]. exists p. split; [right; by exists rest | done].
      * intros (p' & [Hp | [rest' [= <- <-]]] & ->); done.
Qed.

(** [load_bin_model] on a configuration that is a mapping.  When it ends
    normally the attributes, the log and the weights are as the
    configuration and the [.bin] files of the directory give them; it ends
    normally when all that it calls answers. *)
Lemma load_bin_model_exact cfg weight_dir (w : World) :
  wp (load_bin_model E (VDict cfg) weight_dir)
     (λ r w',
        (r = Ok tt →
         ∃ path ip vt files,
           vision_path_of cfg weight_dir path
           ∧ clip_image_processor E path = Done ip
           ∧ clip_vision_model E path = Done vt
           ∧ listdir E weight_dir = Done files
           ∧ loading E
               (mkLlavaVisionModel (Some (vt_half vt)) (device (self w)) (Some ip)
                  (Some (default (VInt (-2)) (assoc_get "mm_vision_select_layer" cfg)))
                  (Some (default (VStr "patch")
                           (assoc_get "mm_vision_select_feature" cfg)))
                  (Some ∅))
               (trace w
                ++ [EvCLIPImageProcessor path; EvCLIPVisionModel path;
                    EvListdir weight_dir]
                ++ (EvTorchLoad ∘ PyStr.path_join weight_dir <$> bin_files files))
               (bin_source E weight_dir files) w')
        ∧ (bin_answers E cfg weight_dir → r = Ok tt)) w.
Proof.
  unfold load_bin_model. cbn [py_get].
  do 2 (apply wp_bind, wp_lift; apply wp_bind, wp_setattr).
  apply wp_bind, wp_lift. apply wp_bind_assoc, wp_bind.
  eapply wp_mono; [apply vision_path_steps|].
  intros [path|e] w1 [-> Hpath]; simpl.
  2: { split; [done|]. intros (path & _ & _ & _ & Hp & _).
       by apply Hpath in Hp. }
  assert (vision_path_of cfg weight_dir path) as Hvp by by apply Hpath.
  assert (∀ path', vision_path_of cfg weight_dir path' → path' = path) as Hfun.
  { intros path' Hp. apply Hpath in Hp. by injection Hp. }
  apply wp_bind, wp_extern.
  destruct (clip_image_processor E path) as [ip|msg] eqn:Hip; simpl.
  2: { split; [done|]. intros (path' & ip & _ & _ & Hp & Hip' & _).
       apply Hfun in Hp as ->. congruence. }
  apply wp_bind, wp_setattr. apply wp_bind, wp_extern.
  destruct (clip_vision_model E path) as [vt|msg] eqn:Hvt; simpl.
  2: { split; [done|]. intros (path' & _ & vt & _ & Hp & _ & Hvt' & _).
       apply Hfun in Hp as ->. congruence. }
  apply wp_bind, wp_setattr. apply wp_bind, wp_setattr. apply wp_bind, wp_extern.
  destruct (listdir E weight_dir) as [files|msg] eqn:Hfiles; simpl.
  2: { split; [done|]. intros (_ & _ & _ & files & _ & _ & _ & Hl & _). congruence. }
  eapply wp_mono.
  { apply (bin_files_loading
             (mkLlavaVisionModel (Some (vt_half vt)) (device (self w)) (Some ip)
                (Some (default (VInt (-2)) (assoc_get "mm_vision_select_layer" cfg)))
                (Some (default (VStr "patch")
                         (assoc_get "mm_vision_select_feature" cfg)))
                (Some ∅))
             (trace w ++ [EvCLIPImageProcessor path; EvCLIPVisionModel path;
                          EvListdir weight_dir])
             weight_dir files).
    exists ∅. simpl. split; [done|]. split; [by rewrite <- !app_assoc|].
    apply weights_from_empty, bin_source_nil. }
  intros r w2 [Hinv Hok]. split.
  - intros Hr. exists path, ip, vt, files. repeat (split; [done|]).
    rewrite <- app_assoc in Hinv. by apply Hinv.
  - intros (_ & _ & _ & files' & _ & _ & _ & Hfiles' & Hall).
    rewrite Hfiles in Hfiles'. injection Hfiles' as <-. by apply Hok.
Qed.

(** One of the two renamings of a key of a safetensors file, lines 61-64
    and 65-68. *)
Lemma rename_step_loading (o : LlavaVisionModel) tr S (d : SafeFile R)
    (old new k : string) (w : World) :
  loading E o tr S w →
  wp (if PyStr.contains old k
      then v ← lift (call (sf_get_tensor d k));
           store_weight (PyStr.replace old new k) (t_half (to_half E) v)
      else mret tt)
     (λ r w',
        (r = Ok tt →
         loading E o tr
           (λ k' v', S k' v'
                     ∨ (PyStr.contains old k = true
                        ∧ sf_get_tensor d k = Done v'
                        ∧ k' = PyStr.replace old new k)) w')
        ∧ ((PyStr.contains old k = true → ∃ v, sf_get_tensor d k = Done v) →
           r = Ok tt)) w.
Proof.
  intros Hw. destruct (PyStr.contains old k) eqn:Hk.
  - apply wp_bind, wp_lift.
    destruct (sf_get_tensor d k) as [v|msg] eqn:Hv; simpl.
    + eapply wp_mono; [apply (store_weight_loading _ _ _ _ v _ True Hw)|].
      intros r w' [Hinv Hok]. split; [|by intros _; apply Hok].
      intros Hr. eapply loading_iff; [|by apply Hinv].
      intros k' v'. split.
      * intros [?|[-> ->]]; [by left | by right].
      * intros [?|(_ & [= ->] & ->)]; [by left | by right].
    + split; [done|]. intros Hget. by destruct (Hget eq_refl).
  - apply wp_ret. split; [|done]. intros _.
    eapply loading_iff; [|done]. intros k' v'.
    split; [by left | by intros [?|[? _]]].
Qed.

(** The loop over the keys of one safetensors file, lines 60-68. *)
Lemma hf_keys_loading (o : LlavaVisionModel) tr S (d : SafeFile R)
    (keys : list string) (w : World) :
  loading E o tr S w →
  wp (for_each keys (λ k,
        (if PyStr.contains "multi_modal_projector.linear_1" k then
           v ← lift (call (sf_get_tensor d k));
           store_weight
             (PyStr.replace "multi_modal_projector.linear_1" "model.mm_projector.0" k)
             (t_half (to_half E) v)
         else mret tt);;
        (if PyStr.contains "multi_modal_projector.linear_2" k then
           v ← lift (call (sf_get_tensor d k));
           store_weight
             (PyStr.replace "multi_modal_projector.linear_2" "model.mm_projector.2" k)
             (t_half (to_half E) v)
         else mret tt)))
     (λ r w',
        (r = Ok tt →
         loading E o tr (λ k v0, S k v0 ∨ renamed_source d keys k v0) w')
        ∧ ((∀ k, k ∈ keys →
              PyStr.contains "multi_modal_projector.linear_1" k = true
              ∨ PyStr.contains "multi_modal_projector.linear_2" k = true →
              ∃ v, sf_get_tensor d k = Done v) →
           r = Ok tt)) w.
Proof.
  intros Hw.
  apply (wp_for_each_prefix
           (λ pre w', loading E o tr (λ k v0, S k v0 ∨ renamed_source d pre k v0) w')).
  - eapply loading_iff; [|done]. intros k v. split; [by left|].
    by intros [?|(k0 & ?%elem_of_nil & _)].
  - intros pre k post w' Hkeys Hpre. apply wp_bind.
    eapply wp_mono; [by apply rename_step_loading|].
    intros [[]|e] w1 [Hinv1 Hok1]; simpl.
    + eapply wp_mono; [by apply rename_step_loading, Hinv1|].
      intros r w2 [Hinv2 Hok2]. split.
      * intros Hr. eapply loading_iff; [|by apply Hinv2].
        intros k' v'. unfold renamed_source. split.
        -- intros [[[?|(k0 & Hin & Hget & Hcase)]|(Hc & Hget & ->)]|(Hc & Hget & ->)].
           ++ by left.
           ++ right. exists k0. split; [|done]. apply elem_of_app. by left.
           ++ right. exists k. split; [|by split; [|left]].
              apply elem_of_app. right. by left.
           ++ right. exists k. split; [|by split; [|right]].
              apply elem_of_app. right. by left.
        -- intros [?|(k0 & Hin & Hget & Hcase)]; [by do 3 left|].
           apply elem_of_app in Hin as [Hin | ->%list_elem_of_singleton].
           ++ left. left. right. by exists k0.
           ++ destruct Hcase as [[Hc ->]|[Hc ->]]; [left; right | right]; done.
      * intros Hall. apply Hok2. intros Hc. apply (Hall k); [|by right].
        rewrite Hkeys. apply elem_of_app. right. by left.
    + split; [done|]. intros Hall. apply Hok1. intros Hc. apply (Hall k); [|by left].
      rewrite Hkeys. apply elem_of_app. right. by left.
Qed.

Lemma safetensors_files_snoc files f :
  safetensors_files (files ++ [f])
  = safetensors_files files ++ (if PyStr.endswith ".safetensors" f then [f] else []).
Proof.
  unfold safetensors_files. rewrite List.filter_app. simpl.
  by destruct (PyStr.endswith _ f).
Qed.

Lemma hf_source_nil weight_dir k v : ¬ hf_source E weight_dir [] k v.
Proof. by intros (f & d & ?%elem_of_nil & _). Qed.

Lemma hf_source_snoc weight_dir files f k v :
  hf_source E weight_dir (files ++ [f]) k v
  ↔ hf_source E weight_dir files k v
    ∨ (PyStr.endswith ".safetensors" f = true
       ∧ ∃ d, safe_open E (PyStr.path_join weight_dir f) = Done d
              ∧ renamed_source d (sf_keys d) k v).
Proof.
  unfold hf_source. split.
  - intros (f' & d & Hin & Hsafe & Hopen & Hsrc).
    apply elem_of_app in Hin as [Hin | ->%list_elem_of_singleton].
    + left. by exists f', d.
    + right. split; [done|]. by exists d.
  - intros [(f' & d & Hin & Hrest) | (Hsafe & d & Hopen & Hsrc)].
    + exists f', d. split; [|done]. apply elem_of_app. by left.
    + exists f, d. split; [|done]. apply elem_of_app. right. by apply list_elem_of_singleton.
Qed.

(** The loop over the files of the directory, lines 57-68. *)
Lemma hf_files_loading (o : LlavaVisionModel) tr weight_dir (files : list string)
    (w : World) :
  loading E o tr (hf_source E weight_dir []) w →
  wp (for_each files (λ f,
        if PyStr.endswith ".safetensors" f then
          d ← extern (EvSafeOpen (PyStr.path_join weight_dir f))
                (safe_open E (PyStr.path_join weight_dir f));
          for_each (sf_keys d) (λ k,
            (if PyStr.contains "multi_modal_projector.linear_1" k then
               v ← lift (call (sf_get_tensor d k));
               store_weight
                 (PyStr.replace "multi_modal_projector.linear_1" "model.mm_projector.0" k)
                 (t_half (to_half E) v)
             else mret tt);;
            (if PyStr.contains "multi_modal_projector.linear_2" k then
               v ← lift (call (sf_get_tensor d k));
               store_weight
                 (PyStr.replace "multi_modal_projector.linear_2" "model.mm_projector.2" k)
                 (t_half (to_half E) v)
             else mret tt))
        else mret tt))
     (λ r w',
        (r = Ok tt →
         loading E o
           (tr ++ (EvSafeOpen ∘ PyStr.path_join weight_dir <$> safetensors_files files))
           (hf_source E weight_dir files) w')
        ∧ ((∀ f, f ∈ files → PyStr.endswith ".safetensors" f = true →
              ∃ d, safe_open E (PyStr.path_join weight_dir f) = Done d
                   ∧ ∀ k, k ∈ sf_keys d →
                       PyStr.contains "multi_modal_projector.linear_1" k = true
                       ∨ PyStr.contains "multi_modal_projector.linear_2" k = true →
                       ∃ v, sf_get_tensor d k = Done v) →
           r = Ok tt)) w.
Proof.
  intros Hw.
  apply (wp_for_each_prefix
           (λ pre w',
              loading E o
                (tr ++ (EvSafeOpen ∘ PyStr.path_join weight_dir <$> safetensors_files pre))
                (hf_source E weight_dir pre) w')).
  - simpl. by rewrite app_nil_r.
  - intros pre f post w' Hfiles (pw & Hself & Htr & Hfrom).
    rewrite safetensors_files_snoc, fmap_app, app_assoc.
    destruct (PyStr.endswith ".safetensors" f) eqn:Hsafe.
    + apply wp_bind, wp_extern.
      destruct (safe_open E (PyStr.path_join weight_dir f)) as [d|msg] eqn:Hopen; simpl.
      * eapply wp_mono.
        { apply (hf_keys_loading o
                   (tr ++ (EvSafeOpen ∘ PyStr.path_join weight_dir <$> safetensors_files pre)
                       ++ [EvSafeOpen (PyStr.path_join weight_dir f)])
                   (hf_source E weight_dir pre) d (sf_keys d)).
          exists pw. simpl. rewrite Htr. by rewrite <- app_assoc. }
        intros r w'' [Hinv Hok]. split.
        -- intros Hr. rewrite <- app_assoc.
           eapply loading_iff; [|by apply Hinv].
           intros k v. rewrite hf_source_snoc. split.
           ++ intros [?|?]; [by left | right; split; [done|]; by exists d].
           ++ intros [?|[_ (d' & Hd' & ?)]]; [by left|]. right.
              rewrite Hopen in Hd'. by injection Hd' as <-.
        -- intros Hall. apply Hok.
           destruct (Hall f) as (d' & Hd' & Hkeys); [|done|].
           { rewrite Hfiles. apply elem_of_app. right. by left. }
           rewrite Hopen in Hd'. by injection Hd' as <-.
      * split; [done|]. intros Hall.
        destruct (Hall f) as (d & Hd & _); [|done|congruence].
        rewrite Hfiles. apply elem_of_app. right. by left.
    + apply wp_ret. split; [|done]. intros _. exists pw. simpl.
      rewrite app_nil_r. split; [done|]. split; [done|].
      eapply weights_from_iff; [|done].
      intros k v. rewrite hf_source_snoc.
      split; [by left | intros [?|[? _]]; [done | congruence]].
Qed.

(** [load_hf_model].  When it ends normally the attributes, the log and the
    weights are as the configuration, the processor, the model and the
    [.safetensors] files of the directory give them; it ends normally when
    all that it calls answers. *)
Lemma load_hf_model_exact config weight_dir (w : World) :
  wp (load_hf_model E config weight_dir)
     (λ r w',
        (r = Ok tt →
         ∃ hc pr model files,
           auto_config E weight_dir = Done hc
           ∧ auto_processor E weight_dir = Done pr
           ∧ llava_from_pretrained E weight_dir Float16 = Done model
           ∧ listdir E weight_dir = Done files
           ∧ loading E
               (mkLlavaVisionModel (Some (model_vision_tower model)) (device (self w))
                  (Some (processor_image_processor pr))
                  (Some (vision_feature_layer hc))
                  (Some (vision_feature_select_strategy hc))
                  (Some ∅))
               (trace w
                ++ [EvAutoConfig weight_dir; EvAutoProcessor weight_dir;
                    EvLlavaForConditionalGeneration weight_dir; EvListdir weight_dir]
                ++ (EvSafeOpen ∘ PyStr.path_join weight_dir <$> safetensors_files files))
               (hf_source E weight_dir files) w')
        ∧ (hf_answers E weight_dir → r = Ok tt)) w.
Proof.
  unfold load_hf_model.
  apply wp_bind, wp_extern.
  destruct (auto_config E weight_dir) as [hc|msg] eqn:Hhc; simpl.
  2: { split; [done|]. intros (? & _ & _ & _ & ? & _). congruence. }
  do 2 apply wp_bind, wp_setattr. apply wp_bind, wp_extern.
  destruct (auto_processor E weight_dir) as [pr|msg] eqn:Hpr; simpl.
  2: { split; [done|]. intros (_ & ? & _ & _ & _ & ? & _). congruence. }
  apply wp_bind, wp_setattr. apply wp_bind, wp_extern.
  destruct (llava_from_pretrained E weight_dir Float16) as [model|msg] eqn:Hmodel; simpl.
  2: { split; [done|]. intros (_ & _ & ? & _ & _ & _ & ? & _). congruence. }
  do 2 apply wp_bind, wp_setattr. apply wp_bind, wp_extern.
  destruct (listdir E weight_dir) as [files|msg] eqn:Hfiles; simpl.
  2: { split; [done|]. intros (_ & _ & _ & ? & _ & _ & _ & ? & _). congruence. }
  eapply wp_mono.
  { apply (hf_files_loading
             (mkLlavaVisionModel (Some (model_vision_tower model)) (device (self w))
                (Some (processor_image_processor pr))
                (Some (vision_feature_layer hc))
                (Some (vision_feature_select_strategy hc))
                (Some ∅))
             (trace w
              ++ [EvAutoConfig weight_dir; EvAutoProcessor weight_dir;
                  EvLlavaForConditionalGeneration weight_dir; EvListdir weight_dir])
             weight_dir files).
    exists ∅. simpl. split; [done|]. split; [by rewrite <- !app_assoc|].
    apply weights_from_empty, hf_source_nil. }
  intros r w2 [Hinv Hok]. split.
  - intros Hr. exists hc, pr, model, files. repeat (split; [done|]).
    rewrite <- app_assoc in Hinv. by apply Hinv.
  - intros (_ & _ & _ & files' & _ & _ & _ & Hfiles' & Hall).
    rewrite Hfiles in Hfiles'. injection Hfiles' as <-. by apply Hok.
Qed.

(** ** The loose loader *)

(** X1. On a configuration that is a mapping, a [load_bin_model] that ends
    normally has set [select_layer] and [select_feature] to the entries of
    the configuration, or to [-2] and "patch" where there is none, has loaded
    the image processor and the tower from one path, the one worked out from
    the entry [mm_vision_tower], has put the tower in half precision, and
    has left the attribute [device] as it was. *)
Theorem load_bin_model_attributes cfg weight_dir (w : World) :
  fst (load_bin_model E (VDict cfg) weight_dir w) = Ok tt →
  ∃ path ip vt,
    vision_path_of cfg weight_dir path
    ∧ clip_image_processor E path = Done ip
    ∧ clip_vision_model E path = Done vt
    ∧ image_processor (self (snd (load_bin_model E (VDict cfg) weight_dir w))) = Some ip
    ∧ vision_tower (self (snd (load_bin_model E (VDict cfg) weight_dir w)))
      = Some (vt_half vt)
    ∧ select_layer (self (snd (load_bin_model E (VDict cfg) weight_dir w)))
      = Some (default (VInt (-2)) (assoc_get "mm_vision_select_layer" cfg))
    ∧ select_feature (self (snd (load_bin_model E (VDict cfg) weight_dir w)))
      = Some (default (VStr "patch") (assoc_get "mm_vision_select_feature" cfg))
    ∧ device (self (snd (load_bin_model E (VDict cfg) weight_dir w)))
      = device (self w).
Proof.
  intros Hok. destruct (load_bin_model_exact cfg weight_dir w) as [Hpost _].
  destruct (Hpost Hok) as (path & ip & vt & files & Hpath & Hip & Hvt & _
                           & pw & Hself & _ & _).
  exists path, ip, vt. rewrite Hself. by repeat split.
Qed.

(** X2. After a [load_bin_model] that ends normally the projector weights
    hold exactly the keys that contain "model.mm_projector" in the [.bin]
    files of the directory, under their own names, each with the half of a
    tensor that such a file stores under that key; nothing that was in the
    mapping before is left. *)
Theorem load_bin_model_weights cfg weight_dir (w : World) :
  fst (load_bin_model E (VDict cfg) weight_dir w) = Ok tt →
  ∃ files pw,
    listdir E weight_dir = Done files
    ∧ projector_weights (self (snd (load_bin_model E (VDict cfg) weight_dir w)))
      = Some pw
    ∧ (∀ k v, pw !! k = Some v →
         ∃ v0, bin_source E weight_dir files k v0 ∧ v = t_half (to_half E) v0)
    ∧ (∀ k v0, bin_source E weight_dir files k v0 → is_Some (pw !! k)).
Proof.
  intros Hok. destruct (load_bin_model_exact cfg weight_dir w) as [Hpost _].
  destruct (Hpost Hok) as (path & ip & vt & files & _ & _ & _ & Hfiles
                           & pw & Hself & _ & Hsound & Hcomplete).
  exists files, pw. rewrite Hself. by repeat split.
Qed.

(** X3. A [load_bin_model] that ends normally has called, in this order,
    the CLIP image processor and the CLIP model on the path of the tower,
    the listing of the directory, and [torch.load] on each file of the
    listing whose name ends in [.bin], in the order of the listing, and
    nothing else. *)
Theorem load_bin_model_calls cfg weight_dir (w : World) :
  fst (load_bin_model E (VDict cfg) weight_dir w) = Ok tt →
  ∃ path files,
    vision_path_of cfg weight_dir path
    ∧ listdir E weight_dir = Done files
    ∧ trace (snd (load_bin_model E (VDict cfg) weight_dir w))
      = trace w
        ++ [EvCLIPImageProcessor path; EvCLIPVisionModel path; EvListdir weight_dir]
        ++ (EvTorchLoad ∘ PyStr.path_join weight_dir <$> bin_files files).
Proof.
  intros Hok. destruct (load_bin_model_exact cfg weight_dir w) as [Hpost _].
  destruct (Hpost Hok) as (path & ip & vt & files & Hpath & _ & _ & Hfiles
                           & pw & _ & Htr & _).
  by exists path, files.
Qed.

(** ** The packaged loader *)

(** X4. A [load_hf_model] that ends normally has set [select_layer] and
    [select_feature] to the feature layer and the selection strategy of the
    loaded configuration, the image processor to the one of the loaded
    processor and the tower to the one of the loaded model, and has left the
    attribute [device] as it was; the [config] it is given is not read. *)
Theorem load_hf_model_attributes config weight_dir (w : World) :
  fst (load_hf_model E config weight_dir w) = Ok tt →
  ∃ hc pr model,
    auto_config E weight_dir = Done hc
    ∧ auto_processor E weight_dir = Done pr
    ∧ llava_from_pretrained E weight_dir Float16 = Done model
    ∧ select_layer (self (snd (load_hf_model E config weight_dir w)))
      = Some (vision_feature_layer hc)
    ∧ select_feature (self (snd (load_hf_model E config weight_dir w)))
      = Some (vision_feature_select_strategy hc)
    ∧ image_processor (self (snd (load_hf_model E config weight_dir w)))
      = Some (processor_image_processor pr)
    ∧ vision_tower (self (snd (load_hf_model E config weight_dir w)))
      = Some (model_vision_tower model)
    ∧ device (self (snd (load_hf_model E config weight_dir w))) = device (self w).
Proof.
  intros Hok. destruct (load_hf_model_exact config weight_dir w) as [Hpost _].
  destruct (Hpost Hok) as (hc & pr & model & files & Hhc & Hpr & Hmodel & _
                           & pw & Hself & _ & _).
  exists hc, pr, model. rewrite Hself. by repeat split.
Qed.

(** X5. After a [load_hf_model] that ends normally the projector weights
    hold exactly the keys got from the keys of the [.safetensors] files of
    the directory that contain the name of one of the two linear layers, by
    replacing that name, each with the half of the tensor of such a key;
    nothing that was in the mapping before is left. *)
Theorem load_hf_model_weights config weight_dir (w : World) :
  fst (load_hf_model E config weight_dir w) = Ok tt →
  ∃ files pw,
    listdir E weight_dir = Done files
    ∧ projector_weights (self (snd (load_hf_model E config weight_dir w))) = Some pw
    ∧ (∀ k v, pw !! k = Some v →
         ∃ v0, hf_source E weight_dir files k v0 ∧ v = t_half (to_half E) v0)
    ∧ (∀ k v0, hf_source E weight_dir files k v0 → is_Some (pw !! k)).
Proof.
  intros Hok. destruct (load_hf_model_exact config weight_dir w) as [Hpost _].
  destruct (Hpost Hok) as (hc & pr & model & files & _ & _ & _ & Hfiles
                           & pw & Hself & _ & Hsound & Hcomplete).
  exists files, pw. rewrite Hself. by repeat split.
Qed.

(** X6. A [load_hf_model] that ends normally has called, in this order,
    the configuration, the processor and the model of the directory, its
    listing, and [safe_open] on each file of the listing whose name ends in
    [.safetensors], in the order of the listing, and nothing else. *)
Theorem load_hf_model_calls config weight_dir (w : World) :
  fst (load_hf_model E config weight_dir w) = Ok tt →
  ∃ files,
    listdir E weight_dir = Done files
    ∧ trace (snd (load_hf_model E config weight_dir w))
      = trace w
        ++ [EvAutoConfig weight_dir; EvAutoProcessor weight_dir;
            EvLlavaForConditionalGeneration weight_dir; EvListdir weight_dir]
        ++ (EvSafeOpen ∘ PyStr.path_join weight_dir <$> safetensors_files files).
Proof.
  intros Hok. destruct (load_hf_model_exact config weight_dir w) as [Hpost _].
  destruct (Hpost Hok) as (hc & pr & model & files & _ & _ & _ & Hfiles
                           & pw & _ & Htr & _).
  by exists files.
Qed.

End LoaderContents.

(** ** [load_model] as a whole *)

Section LoadModel.
Context {R Image : Type}.
Variable E : Env R Image.

#[local] Abbreviation World := (World R Image).
#[local] Abbreviation LlavaVisionModel := (LlavaVisionModel R Image).

(** Lines 31-37: what the end of [load_model] does to the object, and when
    it ends normally. *)
Lemma check_loaded_exact (w : World) :
  wp check_loaded
     (λ r w',
        (r = Ok tt →
         ∃ vt, vision_tower (self w) = Some vt
               ∧ self w' = set_device Cpu
                             (set_vision_tower (requires_grad_ vt false) (self w))
               ∧ trace w' = trace w)
        ∧ ((∃ vt pw, vision_tower (self w) = Some vt
                     ∧ projector_weights (self w) = Some pw
                     ∧ ∀ k, k ∈ canonical_keys → is_Some (pw !! k)) →
           r = Ok tt)) w.
Proof.
  unfold check_loaded, assert_weight.
  repeat (wp_step; try done); simpl in *; simplify_eq.
  all: try (split; [done|]; intros (vt' & pw' & Hvt' & Hpw' & Hkeys); simplify_eq).
  all: try match goal with
           | H : bool_decide (is_Some (?pw !! ?k)) = false |- _ =>
               apply bool_decide_eq_false in H; destruct H;
               apply Hkeys; unfold canonical_keys; repeat constructor
           end.
  split; [|done]. intros _. by eexists.
Qed.

(** Lines 22-29: when the loading ends normally every attribute but
    [device] has been assigned. *)
Lemma load_weights_attributes weight_dir (w : World) :
  wp (load_weights E weight_dir)
     (λ r w', r = Ok tt →
        ∃ vt ip sl sf pw,
          self w' = mkLlavaVisionModel (Some vt) (device (self w)) (Some ip)
                      (Some sl) (Some sf) (Some pw)) w.
Proof.
  unfold load_weights. apply wp_bind, wp_extern.
  destruct (json_load E _) as [config|msg]; simpl; [|done].
  apply wp_bind, wp_lift.
  destruct (py_in "text_config" config) as [[|]|e] eqn:Hin; simpl; [| |done].
  - eapply wp_mono; [apply load_hf_model_exact|].
    intros r w' [Hpost _] Hr.
    destruct (Hpost Hr) as (hc & pr & model & files & _ & _ & _ & _ & pw & Hself & _).
    rewrite Hself. simpl. by eexists _, _, _, _, _.
  - destruct config as [| | | | | |cfg];
      try (unfold load_bin_model; apply wp_bind, wp_lift; simpl; done).
    eapply wp_mono; [apply load_bin_model_exact|].
    intros r w' [Hpost _] Hr.
    destruct (Hpost Hr) as (path & ip & vt & files & _ & _ & _ & _ & pw & Hself & _).
    rewrite Hself. simpl. by eexists _, _, _, _, _.
Qed.

(** The object after a [load_model] that ends normally. *)
Lemma load_model_state weight_dir (w : World) :
  fst (load_model E weight_dir w) = Ok tt →
  ∃ vt ip sl sf pw,
    self (snd (load_model E weight_dir w))
    = mkLlavaVisionModel (Some (requires_grad_ vt false)) (Some Cpu) (Some ip)
        (Some sl) (Some sf) (Some pw)
    ∧ ∀ k, k ∈ canonical_keys → is_Some (pw !! k).
Proof.
  change (wp (load_model E weight_dir)
            (λ r w', r = Ok tt →
               ∃ vt ip sl sf pw,
                 self w' = mkLlavaVisionModel (Some (requires_grad_ vt false))
                             (Some Cpu) (Some ip) (Some sl) (Some sf) (Some pw)
                 ∧ ∀ k, k ∈ canonical_keys → is_Some (pw !! k)) w).
  unfold load_model. apply wp_bind.
  eapply wp_mono; [apply load_weights_attributes|].
  intros [[]|e] w1 Hattrs; [|done].
  destruct (Hattrs eq_refl) as (vt & ip & sl & sf & pw & Hself).
  pose proof (check_loaded_exact w1) as Hexact.
  pose proof (check_loaded_spec w1) as Hspec.
  unfold wp in *. intros Hr.
  destruct Hexact as [Hpost _]. destruct (Hpost Hr) as (vt' & Hvt' & Hself' & _).
  destruct Hspec as (_ & _ & Hkeys). destruct (Hkeys Hr) as (pw' & Hpw' & Hin).
  rewrite Hself in Hvt', Hself'. simpl in *. injection Hvt' as <-.
  rewrite Hself' in Hpw'. simpl in Hpw'. injection Hpw' as <-.
  exists vt, ip, sl, sf, pw. by rewrite Hself'.
Qed.

(** X7. After a [load_model] that ends normally every attribute of the
    adapter is assigned, whatever the object held before: the attribute
    [device] is the CPU and the tower takes no gradients. *)
Theorem load_model_attributes weight_dir (w : World) :
  fst (load_model E weight_dir w) = Ok tt →
  ∃ vt ip sl sf pw,
    self (snd (load_model E weight_dir w))
    = mkLlavaVisionModel (Some vt) (Some Cpu) (Some ip) (Some sl) (Some sf) (Some pw)
    ∧ vt_requires_grad vt = false.
Proof.
  intros Hok.
  destruct (load_model_state weight_dir w Hok) as (vt & ip & sl & sf & pw & Hself & _).
  exists (requires_grad_ vt false), ip, sl, sf, pw. by rewrite Hself.
Qed.

(** X8. A loose checkpoint loads: when the configuration is a mapping
    without the key [text_config], all that the loose loader calls answers,
    and each of the four keys of the projector is stored in a [.bin] file of
    the directory, [load_model] ends normally. *)
Theorem load_model_loose_succeeds weight_dir (w : World) cfg :
  json_load E (PyStr.path_join weight_dir "config.json") = Done (VDict cfg) →
  "text_config" ∉ cfg.*1 →
  bin_answers E cfg weight_dir →
  (∀ k, k ∈ canonical_keys →
     ∃ files v0, listdir E weight_dir = Done files
                 ∧ bin_source E weight_dir files k v0) →
  fst (load_model E weight_dir w) = Ok tt.
Proof.
  intros Hcfg Hkey Hanswers Hstored.
  assert (assoc_get "text_config" cfg = None) as Hnone.
  { destruct (assoc_get "text_config" cfg) eqn:Hg; [|done].
    exfalso. apply Hkey, assoc_get_is_Some. by rewrite Hg. }
  change (wp (load_model E weight_dir) (λ r _, r = Ok tt) w).
  unfold load_model. apply wp_bind. unfold load_weights.
  apply wp_bind, wp_extern. rewrite Hcfg. simpl.
  apply wp_bind, wp_lift. rewrite Hnone. simpl.
  eapply wp_mono; [apply load_bin_model_exact|].
  intros r w1 [Hpost Hok]. rewrite (Hok Hanswers) in *.
  destruct (Hpost eq_refl) as (path & ip & vt & files & _ & _ & _ & Hfiles
                               & pw & Hself & _ & _ & Hcomplete).
  eapply wp_mono; [apply check_loaded_exact|].
  intros r' w2 [_ Hok']. apply Hok'.
  exists (vt_half vt), pw. rewrite Hself. simpl. split; [done|]. split; [done|].
  intros k Hk. destruct (Hstored k Hk) as (files' & v0 & Hfiles' & Hsrc).
  rewrite Hfiles in Hfiles'. injection Hfiles' as <-. by eapply Hcomplete.
Qed.

(** X9. A packaged checkpoint loads: when the configuration is a mapping
    with the key [text_config], all that the packaged loader calls answers,
    and the weights and biases of [multi_modal_projector.linear_1] and
    [multi_modal_projector.linear_2] are keys of [.safetensors] files of
    the directory, [load_model] ends normally. *)
Theorem load_model_packaged_succeeds weight_dir (w : World) cfg :
  json_load E (PyStr.path_join weight_dir "config.json") = Done (VDict cfg) →
  "text_config" ∈ cfg.*1 →
  hf_answers E weight_dir →
  (∀ name,
     name ∈ [ "multi_modal_projector.linear_1.weight";
              "multi_modal_projector.linear_1.bias";
              "multi_modal_projector.linear_2.weight";
              "multi_modal_projector.linear_2.bias" ] →
     ∃ files f d,
       listdir E weight_dir = Done files
       ∧ f ∈ files
       ∧ PyStr.endswith ".safetensors" f = true
       ∧ safe_open E (PyStr.path_join weight_dir f) = Done d
       ∧ name ∈ sf_keys d) →
  fst (load_model E weight_dir w) = Ok tt.
Proof.
  intros Hcfg Hkey Hanswers Hstored.
  apply assoc_get_is_Some in Hkey as [c Hc].
  change (wp (load_model E weight_dir) (λ r _, r = Ok tt) w).
  unfold load_model. apply wp_bind. unfold load_weights.
  apply wp_bind, wp_extern. rewrite Hcfg. simpl.
  apply wp_bind, wp_lift. rewrite Hc. simpl.
  eapply wp_mono; [apply load_hf_model_exact|].
  intros r w1 [Hpost Hok]. rewrite (Hok Hanswers) in *.
  destruct (Hpost eq_refl) as (hc & pr & model & files & _ & _ & _ & Hfiles
                               & pw & Hself & _ & _ & Hcomplete).
  eapply wp_mono; [apply check_loaded_exact|].
  intros r' w2 [_ Hok']. apply Hok'.
  exists (model_vision_tower model), pw. rewrite Hself. simpl.
  split; [done|]. split; [done|].
  destruct Hanswers as (_ & _ & _ & files' & _ & _ & _ & Hfiles' & Hall).
  rewrite Hfiles in Hfiles'. injection Hfiles' as <-.
  assert (∀ name k,
            name ∈ [ "multi_modal_projector.linear_1.weight";
                     "multi_modal_projector.linear_1.bias";
                     "multi_modal_projector.linear_2.weight";
                     "multi_modal_projector.linear_2.bias" ] →
            (PyStr.contains "multi_modal_projector.linear_1" name = true
             ∧ k = PyStr.replace "multi_modal_projector.linear_1"
                     "model.mm_projector.0" name)
            ∨ (PyStr.contains "multi_modal_projector.linear_2" name = true
               ∧ k = PyStr.replace "multi_modal_projector.linear_2"
                       "model.mm_projector.2" name) →
            is_Some (pw !! k)) as Hfound.
  { intros name k Hname Hcase.
    destruct (Hstored name Hname) as (files' & f & d & Hfiles' & Hf & Hsafe & Hopen & Hin).
    rewrite Hfiles in Hfiles'. injection Hfiles' as <-.
    destruct (Hall f Hf Hsafe) as (d' & Hopen' & Hget).
    rewrite Hopen in Hopen'. injection Hopen' as <-.
    destruct (Hget name Hin) as [v Hv]; [by destruct Hcase as [[? _]|[? _]]; [left|right]|].
    apply (Hcomplete k v). exists f, d. repeat (split; [done|]). by exists name. }
  intros k Hk. unfold canonical_keys in Hk.
  repeat (apply elem_of_cons in Hk as [-> | Hk]).
  - apply (Hfound "multi_modal_projector.linear_1.weight"); [repeat constructor|].
    left. by split.
  - apply (Hfound "multi_modal_projector.linear_1.bias"); [repeat constructor|].
    left. by split.
  - apply (Hfound "multi_modal_projector.linear_2.weight"); [repeat constructor|].
    right. by split.
  - apply (Hfound "multi_modal_projector.linear_2.bias"); [repeat constructor|].
    right. by split.
  - by apply elem_of_nil in Hk.
Qed.

Lemma existsb_text_config l :
  Forall (λ x, x ≠ VStr "text_config") l →
  existsb (λ x, py_eq_str x "text_config") l = false.
Proof.
  induction 1 as [|x l Hx _ IH]; simpl; [done|]. rewrite IH, orb_false_r.
  apply not_true_is_false. by rewrite py_eq_str_true.
Qed.

(** X10. A configuration that cannot be used.  When [config.json] cannot be
    read, or holds a value that has no members (null, a boolean, a number),
    or holds a list or a string in which "text_config" does not occur,
    [load_model] raises (the error of the reading, a type error, or the
    attribute error of [get]) and no attribute of the adapter is assigned;
    only the opening of [config.json] is logged. *)
Theorem load_model_unusable_config weight_dir (w : World) :
  let config_file := PyStr.path_join weight_dir "config.json" in
  let w1 := mkWorld (self w) (trace w ++ [EvOpen config_file]) in
  (∀ msg, json_load E config_file = Failed msg →
     load_model E weight_dir w = (Raise (External msg), w1))
  ∧ (∀ c, json_load E config_file = Done c →
       (c = VNone ∨ (∃ b, c = VBool b) ∨ (∃ z, c = VInt z) ∨ (∃ x, c = VFloat x)) →
       load_model E weight_dir w = (Raise TypeError, w1))
  ∧ (∀ l, json_load E config_file = Done (VList l) →
       Forall (λ x, x ≠ VStr "text_config") l →
       load_model E weight_dir w = (Raise (AttributeError "get"), w1))
  ∧ (∀ s, json_load E config_file = Done (VStr s) →
       PyStr.contains "text_config" s = false →
       load_model E weight_dir w = (Raise (AttributeError "get"), w1)).
Proof.
  intros config_file w1. unfold load_model, load_weights.
  repeat split.
  - intros msg Hload. rewrite !run_bind. unfold extern at 1.
    fold config_file. by rewrite Hload.
  - intros c Hload Hc. rewrite !run_bind. unfold extern at 1.
    fold config_file. rewrite Hload. simpl.
    by destruct Hc as [-> | [[b ->] | [[z ->] | [x ->]]]].
  - intros l Hload Hl. rewrite !run_bind. unfold extern at 1.
    fold config_file. rewrite Hload. simpl.
    unfold lift at 1. simpl. by rewrite existsb_text_config.
  - intros s Hload Hs. rewrite !run_bind. unfold extern at 1.
    fold config_file. rewrite Hload. simpl.
    unfold lift at 1. simpl. by rewrite Hs.
Qed.

End LoadModel.

(** ** More on [cuda] *)

Section CudaMore.
Context {R Image : Type}.
Variable E : Env R Image.

#[local] Abbreviation World := (World R Image).

(** The weights that the loop of [cuda] leaves have the keys of the
    weights it found, every tensor as it was or on the accelerator. *)
Lemma cuda_items_lookup (pw : gmap string (Tensor R)) k :
  match pw !! k,
        (list_to_map (cuda_items E (map_to_list pw)).1 : gmap string (Tensor R)) !! k
  with
  | Some v, Some v' => v' = v ∨ v' = t_cuda v
  | None, None => True
  | _, _ => False
  end.
Proof.
  destruct (list_to_map (cuda_items E (map_to_list pw)).1 !! k) as [v'|] eqn:Hk'.
  - apply elem_of_list_to_map_2, cuda_items_elem_of in Hk' as (v & Hin & Hor).
    apply elem_of_map_to_list in Hin. by rewrite Hin.
  - apply not_elem_of_list_to_map in Hk'. rewrite cuda_items_keys in Hk'.
    apply not_elem_of_list_to_map in Hk'. rewrite list_to_map_to_list in Hk'.
    by rewrite Hk'.
Qed.

(** What [cuda] leaves of the object, however it ends. *)
Lemma cuda_attributes (w : World) :
  ∃ vt' pw',
    self (snd (cuda E w))
    = mkLlavaVisionModel vt' (device (self w)) (image_processor (self w))
        (select_layer (self w)) (select_feature (self w)) pw'
    ∧ trace (snd (cuda E w)) = trace w
    ∧ (is_Some (vision_tower (self w)) → is_Some vt')
    ∧ ∀ pw, projector_weights (self w) = Some pw →
        ∃ m, pw' = Some m
             ∧ ∀ k, match pw !! k, m !! k with
                    | Some v, Some v' => v' = v ∨ v' = t_cuda v
                    | None, None => True
                    | _, _ => False
                    end.
Proof.
  assert (∀ (pw : gmap string (Tensor R)) k,
            match pw !! k, pw !! k with
            | Some v, Some v' => v' = v ∨ v' = t_cuda v
            | None, None => True
            | _, _ => False
            end) as Hsame.
  { intros pw k. destruct (pw !! k); [by left | done]. }
  rewrite cuda_run. destruct w as [[vt dev ip sl sf pw] tr]; simpl.
  destruct vt as [vt|]; simpl.
  - destruct (vt_to_cuda E vt) as [vt'|msg]; simpl.
    + destruct pw as [pw|]; simpl.
      * eexists _, _. split; [done|]. split; [done|].
        split; [by intros _; eexists|].
        intros ? [= <-]. eexists. split; [done|]. apply cuda_items_lookup.
      * eexists _, _. split; [done|]. split; [done|].
        split; [by intros _; eexists | done].
    + eexists _, _. split; [done|]. split; [done|]. split; [done|].
      intros pw' ->. exists pw'. split; [done | apply Hsame].
  - eexists _, _. split; [done|]. split; [done|]. split; [done|].
    intros pw' ->. exists pw'. split; [done | apply Hsame].
Qed.

(** X11. [cuda] ends normally exactly when the tower and the projector
    weights are assigned and the accelerator takes the tower and every
    tensor of the weights.  Without a tower it raises the attribute error
    and leaves the object as it was; with a tower that the accelerator
    refuses it raises the error of that transfer and the weights are not
    touched; with a tower but without weights it raises the attribute error
    after the tower has been moved; and an error that it raises with the
    tower moved and the weights assigned is the error of the transfer of a
    tensor of the weights that the accelerator refuses. *)
Theorem cuda_succeeds_iff (w : World) :
  (fst (cuda E w) = Ok tt
   ↔ ∃ vt pw,
       vision_tower (self w) = Some vt
       ∧ projector_weights (self w) = Some pw
       ∧ takes_tower E vt
       ∧ map_Forall (λ _ v, takes E v) pw)
  ∧ (vision_tower (self w) = None →
     cuda E w = (Raise (AttributeError "vision_tower"), w))
  ∧ (∀ vt msg,
       vision_tower (self w) = Some vt →
       vt_to_cuda E vt = Failed msg →
       fst (cuda E w) = Raise (External msg)
       ∧ projector_weights (self (snd (cuda E w))) = projector_weights (self w))
  ∧ (∀ vt,
       vision_tower (self w) = Some vt →
       takes_tower E vt →
       projector_weights (self w) = None →
       cuda E w = (Raise (AttributeError "projector_weights"),
                   mkWorld (set_vision_tower (vt_cuda vt) (self w)) (trace w)))
  ∧ (∀ vt pw e,
       vision_tower (self w) = Some vt →
       takes_tower E vt →
       projector_weights (self w) = Some pw →
       fst (cuda E w) = Raise e →
       ∃ k v msg,
         pw !! k = Some v ∧ to_cuda E v = Failed msg ∧ e = External msg).
Proof.
  rewrite cuda_run.
  destruct (vision_tower (self w)) as [vt|] eqn:Hvt.
  2: { split; [|by repeat split]. split; [done|]. by intros (? & ? & ? & _). }
  destruct (vt_to_cuda E vt) as [vt'|msg] eqn:Hvt'.
  2: { split; [|split; [done|]; split; [|split]].
       - split; [done|]. intros (? & ? & [= <-] & _ & [? ?] & _). congruence.
       - intros ? ? [= <-] ?. split; [simpl; congruence | done].
       - intros ? [= <-] [? ?]. congruence.
       - intros ? ? ? [= <-] [? ?]. congruence. }
  destruct (vt_to_cuda_Done E _ _ Hvt') as (-> & _ & _).
  destruct (projector_weights (self w)) as [pw|] eqn:Hpw.
  2: { split; [|split; [done|]; split; [|split]].
       - split; [done|]. by intros (? & ? & _ & ? & _).
       - intros ? ? [= <-] ?. congruence.
       - by intros ? [= <-] _ _.
       - by intros. }
  simpl. split; [|split; [done|]; split; [|split]].
  - destruct (cuda_items E (map_to_list pw)).2 as [msg|] eqn:Hr.
    + split; [done|]. intros (? & ? & _ & [= <-] & _ & Hall). exfalso.
      assert ((cuda_items E (map_to_list pw)).2 = None) as Hnone; [|congruence].
      apply cuda_items_None, Forall_forall. intros [k v] Hin.
      apply elem_of_map_to_list in Hin. by apply (Hall k v).
    + split; [|done]. intros _. exists vt, pw.
      split; [done|]. split; [done|]. split; [by eexists|].
      intros k v Hk. apply cuda_items_None in Hr.
      apply (proj1 (Forall_forall _ _) Hr (k, v)). by apply elem_of_map_to_list.
  - intros ? ? [= <-] ?. congruence.
  - by intros.
  - intros ? ? e [= <-] _ [= <-].
    destruct (cuda_items E (map_to_list pw)).2 as [msg|] eqn:Hr; [|done].
    intros [= <-]. apply cuda_items_Some in Hr as (k & v & Hin & Hv).
    apply elem_of_map_to_list in Hin. by exists k, v, msg.
Qed.

(** X12. [cuda] moves the tower and the tensors and nothing else, however
    it ends: the attribute [device], the image processor, [select_layer],
    [select_feature] and the log are as before, a tower that was assigned
    is assigned, and the projector weights have the keys they had, each
    with the tensor that was there or with that tensor on the accelerator.
    So after a [load_model] that ended normally, a [cuda] that ends
    normally leaves the attribute [device] saying CPU while the tower is
    on the accelerator. *)
Theorem cuda_keeps_settings weight_dir (w : World) :
  (device (self (snd (cuda E w))) = device (self w)
   ∧ image_processor (self (snd (cuda E w))) = image_processor (self w)
   ∧ select_layer (self (snd (cuda E w))) = select_layer (self w)
   ∧ select_feature (self (snd (cuda E w))) = select_feature (self w)
   ∧ trace (snd (cuda E w)) = trace w)
  ∧ (is_Some (vision_tower (self w)) →
     is_Some (vision_tower (self (snd (cuda E w)))))
  ∧ (∀ pw, projector_weights (self w) = Some pw →
       ∃ pw', projector_weights (self (snd (cuda E w))) = Some pw'
              ∧ (∀ k, is_Some (pw' !! k) ↔ is_Some (pw !! k))
              ∧ ∀ k v', pw' !! k = Some v' →
                  ∃ v, pw !! k = Some v ∧ (v' = v ∨ v' = t_cuda v))
  ∧ (fst (load_model E weight_dir w) = Ok tt →
     fst (cuda E (snd (load_model E weight_dir w))) = Ok tt →
     device (self (snd (cuda E (snd (load_model E weight_dir w))))) = Some Cpu
     ∧ ∃ vt, vision_tower (self (snd (cuda E (snd (load_model E weight_dir w)))))
             = Some vt
             ∧ vt_device vt = Cuda).
Proof.
  split; [|split; [|split]].
  - destruct (cuda_attributes w) as (vt' & pw' & -> & -> & _). done.
  - destruct (cuda_attributes w) as (vt' & pw' & -> & _ & Hvt & _). done.
  - intros pw Hpw.
    destruct (cuda_attributes w) as (vt' & pw' & -> & _ & _ & Hkeys).
    destruct (Hkeys pw Hpw) as (m & -> & Hm). exists m. split; [done|]. split.
    + intros k. specialize (Hm k). unfold is_Some.
      destruct (pw !! k), (m !! k); try done; split; by eexists.
    + intros k v' Hk. specialize (Hm k). rewrite Hk in Hm.
      destruct (pw !! k) as [v|]; [by exists v | done].
  - intros Hok Hcuda.
    destruct (load_model_state E weight_dir w Hok)
      as (vt & ip & sl & sf & pw & Hself & _).
    revert Hcuda. rewrite cuda_run, Hself. simpl.
    destruct (vt_to_cuda E (requires_grad_ vt false)) as [vt'|msg] eqn:Hvt';
      [|done].
    intros _. split; [done|]. exists vt'. split; [done|].
    by destruct (vt_to_cuda_Done E _ _ Hvt') as (_ & ? & _).
Qed.

End CudaMore.

(** ** More on [forward] *)

Section ForwardMore.
Context {R Image : Type}.
Variable E : Env R Image.
Variable self : LlavaVisionModel R Image.

(** X13. The index [select_layer].  An integer [0 <= z < n] selects the
    hidden state at position [z] of the [n] the tower gives for the input
    on the accelerator; an integer outside [-n <= z < n] makes [forward]
    raise an index error; a value that is neither an integer nor a boolean
    makes it raise a type error. *)
Theorem select_layer_bounds x vt hs :
  takes E (t_half (to_half E) x) →
  vision_tower self = Some vt →
  vt_call vt (t_cuda (t_half (to_half E) x)) = Done hs →
  (∀ z, select_layer self = Some (VInt z) →
     (0 ≤ z < Z.of_nat (length hs))%Z →
     ∃ h, hs !! Z.to_nat z = Some h ∧ select_hidden E self x = Ok h)
  ∧ (∀ z, select_layer self = Some (VInt z) →
       (z < - Z.of_nat (length hs) ∨ Z.of_nat (length hs) ≤ z)%Z →
       forward E self x = Raise IndexError)
  ∧ (∀ v, select_layer self = Some v →
       (∀ z, v ≠ VInt z) → (∀ b, v ≠ VBool b) →
       forward E self x = Raise TypeError).
Proof.
  intros [x' Hx'] Hvt Hhs.
  destruct (to_cuda_Done E _ _ Hx') as (-> & _ & _).
  unfold forward, select_hidden. rewrite Hx'. simpl. rewrite Hvt. simpl.
  rewrite Hhs. simpl. repeat split.
  - intros z -> Hz. simpl. unfold py_index. cbv zeta.
    rewrite !(proj2 (Z.ltb_ge z 0)), (proj2 (Z.leb_gt _ _)) by lia. simpl.
    destruct (lookup_lt_is_Some_2 hs (Z.to_nat z)) as [h Hh]; [lia|].
    exists h. by rewrite Hh.
  - intros z -> Hz. simpl. unfold py_index. cbv zeta.
    destruct (Z.ltb_spec z 0).
    + by rewrite (proj2 (Z.ltb_lt _ 0)) by lia.
    + rewrite (proj2 (Z.leb_le _ z)) by lia. by rewrite orb_true_r.
  - intros v -> Hint Hbool. simpl.
    destruct v; simpl; try done; [by destruct (Hbool b) | by destruct (Hint z)].
Qed.

(** X14. The shape of what [forward] returns.  From a selected hidden state
    of shape [(b, l, n)] it returns, if it returns, a tensor of shape
    [(b, l - 1, d)] when [select_feature] is "patch" or "default" and
    [(b, l, d)] otherwise; and it returns only when the batch, the tokens
    that are kept and the features are not empty. *)
Theorem forward_output_shape x h sf emb b l n :
  select_hidden E self x = Ok h →
  t_shape h = [b; l; n] →
  select_feature self = Some sf →
  forward E self x = Ok emb →
  ∃ kept d,
    (sf = VStr "patch" ∨ sf = VStr "default" → kept = l - 1)
    ∧ (sf ≠ VStr "patch" → sf ≠ VStr "default" → kept = l)
    ∧ t_shape emb = [b; kept; d]
    ∧ b ≠ 0 ∧ kept ≠ 0 ∧ n ≠ 0.
Proof.
  intros Hsel Hshape Hsf Hfwd.
  unfold forward, select_tokens in Hfwd. rewrite Hsel, Hsf in Hfwd. simpl in Hfwd.
  apply bind_Ok_inv in Hfwd as (h' & Hh' & Hproj).
  assert (∃ kept,
            (sf = VStr "patch" ∨ sf = VStr "default" → kept = l - 1)
            ∧ (sf ≠ VStr "patch" → sf ≠ VStr "default" → kept = l)
            ∧ t_shape h' = [b; kept; n]) as (kept & Hpatch & Hother & Hshape').
  { destruct (py_eq_str sf "patch" || py_eq_str sf "default") eqn:Hmode.
    - unfold slice_from1 in Hh'. rewrite Hshape in Hh'. injection Hh' as <-.
      exists (l - 1). split; [done|]. split; [|done]. intros Hp Hd.
      apply orb_true_iff in Hmode as [?%py_eq_str_true | ?%py_eq_str_true]; done.
    - injection Hh' as <-. exists l. split; [|by split].
      intros Hmode'. apply orb_false_iff in Hmode as [Hp Hd].
      destruct Hmode' as [->| ->]; done. }
  exists kept. unfold mm_project in Hproj. rewrite Hshape' in Hproj. simpl in Hproj.
  apply bind_Ok_inv in Hproj as (rows & Hrows & Hproj).
  repeat (apply bind_Ok_inv in Hproj as (? & _ & Hproj)).
  unfold view_rows in Hrows. unfold view_batch in Hproj.
  destruct (Nat.eqb_spec n 0); [done|].
  destruct (Nat.eqb_spec (b * kept) 0); [done|].
  destruct (_ mod (b * kept) =? 0); [|done]. injection Hproj as <-.
  eexists. repeat split; try done; lia.
Qed.

End ForwardMore.

(** ** More on [encode] *)







Section EncodeMore.
Context {R Image : Type}.
Variable E : Env R Image.

#[local] Abbreviation World := (World R Image).
#[local] Abbreviation LlavaVisionModel := (LlavaVisionModel R Image).




(** X16. The first failure is the one [encode] raises.  When the items
    before an image item go through and that item fails in the store, the
    decoder or the preprocessor, [encode] raises that very error, whatever
    follows in the list; when the preprocessor gives it a tensor without
    dimensions, [encode] raises an index error. *)
Theorem encode_first_failure self pre ts im post :
  Forall2 (tiled E self) pre ts →
  (∀ e, image_tiles E self im = Raise e →
     encode E self ((ItImage <$> pre) ++ ItImage im :: post) = Raise e)
  ∧ (∀ t, image_tiles E self im = Ok t → t_shape t = [] →
       encode E self ((ItImage <$> pre) ++ ItImage im :: post) = Raise IndexError).
Proof.
  intros Hall. unfold encode. rewrite encode_loop_app.
  rewrite (encode_loop_tiled _ _ _ _ _ Hall). simpl.
  rewrite encode_step_image. split.
  - intros e ->. done.
  - intros t -> Hshape. simpl. rewrite py_index_head, Hshape. done.
Qed.

(** What a returned triple holds. *)
Lemma encode_Some_inv self images emb us rs :
  encode E self images = Ok (Some (emb, us, rs)) →
  ∃ ims ts,
    images = ItImage <$> ims
    ∧ Forall2 (tiled E self) ims ts
    ∧ us = uuid <$> ims
    ∧ rs = intervals_from 0 (tile_count <$> ts).
Proof.
  intros H.
  destruct (encode_loop E self (mkEncState [] [] 0 []) images)
    as [st|e] eqn:Hloop; [|by unfold encode in H; rewrite Hloop in H].
  apply encode_loop_Ok_inv in Hloop as (ims & ts & -> & Hall).
  assert (ims ≠ []) as Hne by by intros ->.
  rewrite (encode_tiled _ _ _ _ Hall Hne) in H.
  apply bind_Ok_inv in H as (img & _ & H).
  apply bind_Ok_inv in H as (emb' & _ & [= _ <- <-]).
  by exists ims, ts.
Qed.

Lemma tiled_fun self ims ts ts' :
  Forall2 (tiled E self) ims ts → Forall2 (tiled E self) ims ts' → ts = ts'.
Proof.
  intros H. revert ts'. induction H as [|im t ims ts [Ht _] _ IH]; intros ts' H'.
  - by apply Forall2_nil_inv_l in H'.
  - apply Forall2_cons_inv_l in H' as (t' & ts'' & [Ht' _] & H' & ->).
    rewrite Ht in Ht'. injection Ht' as <-. f_equal. by apply IH.
Qed.

Lemma intervals_from_lookup_inv s cs i a b :
  intervals_from s cs !! i = Some [a; b] →
  ∃ c, cs !! i = Some c
       ∧ a = (s + Z.of_nat (sum_list (take i cs)))%Z
       ∧ b = (a + Z.of_nat c)%Z.
Proof.
  intros H.
  destruct (lookup_lt_is_Some_2 cs i) as [c Hc].
  { apply lookup_lt_Some in H. by rewrite intervals_from_length in H. }
  rewrite (intervals_from_lookup _ _ _ _ Hc) in H. injection H as <- <-. by exists c.
Qed.

(** Every position from [s] up to the end of the last interval lies in
    exactly one interval. *)
Lemma intervals_from_partition s cs j :
  (s ≤ j < s + Z.of_nat (sum_list cs))%Z →
  ∃ i a b,
    intervals_from s cs !! i = Some [a; b]
    ∧ (a ≤ j < b)%Z
    ∧ ∀ i' a' b', intervals_from s cs !! i' = Some [a'; b'] →
        (a' ≤ j < b')%Z → i' = i.
Proof.
  revert s. induction cs as [|c cs IH]; intros s Hj; simpl in *; [lia|].
  destruct (Z.lt_ge_cases j (s + Z.of_nat c)) as [Hlt|Hge].
  - exists 0, s, (s + Z.of_nat c)%Z. split; [done|]. split; [lia|].
    intros [|i'] a' b' Hi' Hin; [done|]. simpl in Hi'.
    apply intervals_from_lookup_inv in Hi' as (c' & _ & -> & ->). lia.
  - destruct (IH (s + Z.of_nat c)%Z) as (i & a & b & Hi & Hin & Huniq); [lia|].
    exists (S i), a, b. split; [done|]. split; [done|].
    intros [|i'] a' b' Hi' Hin'.
    + injection Hi' as <- <-. lia.
    + f_equal. by eapply Huniq.
Qed.

(** X17. The ranges that [encode] returns cut the rows of the batch up:
    every row index below the number of tiles of all the images lies in the
    range of exactly one image, and every range lies within that number. *)
Theorem encode_ranges_partition self images emb us rs :
  encode E self images = Ok (Some (emb, us, rs)) →
  ∃ ims ts,
    images = ItImage <$> ims
    ∧ Forall2 (tiled E self) ims ts
    ∧ (∀ j, (0 ≤ j < Z.of_nat (sum_list (tile_count <$> ts)))%Z →
         ∃ i a b,
           rs !! i = Some [a; b]
           ∧ (a ≤ j < b)%Z
           ∧ ∀ i' a' b', rs !! i' = Some [a'; b'] → (a' ≤ j < b')%Z → i' = i)
    ∧ (∀ i a b, rs !! i = Some [a; b] →
         (0 ≤ a ≤ b)%Z ∧ (b ≤ Z.of_nat (sum_list (tile_count <$> ts)))%Z).
Proof.
  intros H. apply encode_Some_inv in H as (ims & ts & -> & Hall & -> & ->).
  exists ims, ts. split; [done|]. split; [done|]. split.
  - intros j Hj. apply intervals_from_partition. lia.
  - intros i a b Hi.
    apply intervals_from_lookup_inv in Hi as (c & Hc & -> & ->).
    pose proof (sum_list_take_le (tile_count <$> ts) (S i)) as Hle.
    rewrite (sum_list_take_S _ _ _ Hc) in Hle. lia.
Qed.

(** X18. Images added at the end of a request leave the uuids and ranges of
    the images before them as they are: what [encode] returns for a list
    starts with what it returns for a beginning of the list. *)
Theorem encode_prefix_stable self images1 images2 emb1 us1 rs1 emb2 us2 rs2 :
  encode E self images1 = Ok (Some (emb1, us1, rs1)) →
  encode E self (images1 ++ images2) = Ok (Some (emb2, us2, rs2)) →
  ∃ us rs,
    us2 = us1 ++ us
    ∧ rs2 = rs1 ++ rs
    ∧ length us = length images2
    ∧ length rs = length images2.
Proof.
  intros H1 H2.
  apply encode_Some_inv in H1 as (ims1 & ts1 & -> & Hall1 & -> & ->).
  apply encode_Some_inv in H2 as (ims & ts & Heq & Hall & -> & ->).
  symmetry in Heq. apply fmap_app_inv in Heq as (ims1' & ims2 & Heq1 & -> & ->).
  apply (inj (fmap ItImage)) in Heq1 as <-.
  apply Forall2_app_inv_l in Hall as (ts1' & ts2 & Hall1' & Hall2 & ->).
  rewrite (tiled_fun _ _ _ _ Hall1' Hall1).
  exists (uuid <$> ims2),
    (intervals_from (0 + Z.of_nat (sum_list (tile_count <$> ts1))) (tile_count <$> ts2)).
  rewrite !fmap_app, intervals_from_app, intervals_from_length, !length_fmap.
  by rewrite (Forall2_length _ _ _ Hall2).
Qed.

(** X19. With a preprocessor that gives one tile for every image, the
    range of the [i]-th image is [[i, i + 1]]. *)
Theorem encode_single_tiles self images emb us rs :
  encode E self images = Ok (Some (emb, us, rs)) →
  (∀ im t, ItImage im ∈ images → image_tiles E self im = Ok t → tile_count t = 1) →
  length rs = length images
  ∧ ∀ i, i < length images → rs !! i = Some [Z.of_nat i; (Z.of_nat i + 1)%Z].
Proof.
  intros H Hone. apply encode_Some_inv in H as (ims & ts & -> & Hall & -> & ->).
  assert (Forall (λ c, c = 1) (tile_count <$> ts)) as Hones.
  { apply Forall_fmap.
    assert (∀ im t, im ∈ ims → image_tiles E self im = Ok t → tile_count t = 1)
      as Hone'.
    { intros im t Hin. apply Hone. by apply list_elem_of_fmap_2. }
    clear Hone. induction Hall as [|im t ims ts [Ht _] _ IH]; constructor.
    - apply (Hone' im t); [by left | done].
    - apply IH. intros im' t' Hin. apply Hone'. by right. }
  rewrite intervals_from_length, !length_fmap, (Forall2_length _ _ _ Hall).
  split; [done|]. intros i Hi.
  destruct (lookup_lt_is_Some_2 (tile_count <$> ts) i) as [c Hc];
    [by rewrite length_fmap|].
  rewrite (intervals_from_lookup _ _ _ _ Hc).
  assert (c = 1) as -> by by eapply (Forall_lookup_1 _ _ _ _ Hones).
  rewrite sum_list_ones by by apply Forall_take.
  rewrite length_take, length_fmap. do 3 f_equal; lia.
Qed.

End EncodeMore.

(** ** The further properties on the concrete installation *)

Lemma demo_bin_answers : bin_answers Demo.env Demo2.bin_cfg "bin".
Proof.
  exists "bin/./clip"%string, Demo.image_proc, Demo.tower,
    ["mm_projector.bin"; "config.json"]%string.
  split; [exists "./clip"%string; split; [by left | done]|].
  repeat (split; [reflexivity|]).
  intros f Hf Hbin.
  apply elem_of_cons in Hf as [-> | Hf]; [by exists Demo.bin_file|].
  apply elem_of_cons in Hf as [-> | Hf]; [by vm_compute in Hbin|].
  by apply elem_of_nil in Hf.
Qed.

Lemma demo_hf_answers : hf_answers Demo.env "hf".
Proof.
  exists (mkHFConfig (VInt (-2)) (VStr "default")), (mkProcessor Demo.image_proc),
    (mkLlavaModel (mkVisionTower Float16 Cpu true (vt_net Demo.tower))),
    ["config.json"; "model.safetensors"]%string.
  repeat (split; [reflexivity|]).
  intros f Hf Hsafe.
  apply elem_of_cons in Hf as [-> | Hf]; [by vm_compute in Hsafe|].
  apply elem_of_cons in Hf as [-> | Hf]; [|by apply elem_of_nil in Hf].
  exists Demo.hf_file. split; [reflexivity|].
  intros k Hk Hc. simpl in Hk.
  repeat (apply elem_of_cons in Hk as [-> | Hk];
          [first [by eexists | by destruct Hc as [Hc|Hc]; vm_compute in Hc]|]).
  by apply elem_of_nil in Hk.
Qed.

Lemma load_bin_model_attributes_witness :
  ∃ path ip vt,
    vision_path_of Demo2.bin_cfg "bin" path
    ∧ clip_image_processor Demo.env path = Done ip
    ∧ clip_vision_model Demo.env path = Done vt
    ∧ image_processor
        (self (snd (load_bin_model Demo.env (VDict Demo2.bin_cfg) "bin" Demo.world0)))
      = Some ip
    ∧ vision_tower
        (self (snd (load_bin_model Demo.env (VDict Demo2.bin_cfg) "bin" Demo.world0)))
      = Some (vt_half vt)
    ∧ select_layer
        (self (snd (load_bin_model Demo.env (VDict Demo2.bin_cfg) "bin" Demo.world0)))
      = Some (VInt (-2))
    ∧ select_feature
        (self (snd (load_bin_model Demo.env (VDict Demo2.bin_cfg) "bin" Demo.world0)))
      = Some (VStr "cls_patch")
    ∧ device
        (self (snd (load_bin_model Demo.env (VDict Demo2.bin_cfg) "bin" Demo.world0)))
      = None.
Proof.
  apply (load_bin_model_attributes Demo.env Demo2.bin_cfg "bin" Demo.world0).
  vm_compute. reflexivity.
Defined.

Lemma load_bin_model_weights_witness :
  ∃ files pw,
    listdir Demo.env "bin" = Done files
    ∧ projector_weights
        (self (snd (load_bin_model Demo.env (VDict Demo2.bin_cfg) "bin" Demo.world0)))
      = Some pw
    ∧ (∀ k v, pw !! k = Some v →
         ∃ v0, bin_source Demo.env "bin" files k v0
               ∧ v = t_half (to_half Demo.env) v0)
    ∧ (∀ k v0, bin_source Demo.env "bin" files k v0 → is_Some (pw !! k)).
Proof.
  apply (load_bin_model_weights Demo.env Demo2.bin_cfg "bin" Demo.world0).
  vm_compute. reflexivity.
Defined.

Lemma load_bin_model_calls_witness :
  ∃ path files,
    vision_path_of Demo2.bin_cfg "bin" path
    ∧ listdir Demo.env "bin" = Done files
    ∧ trace (snd (load_bin_model Demo.env (VDict Demo2.bin_cfg) "bin" Demo.world0))
      = [] ++ [EvCLIPImageProcessor path; EvCLIPVisionModel path; EvListdir "bin"]
        ++ (EvTorchLoad ∘ PyStr.path_join "bin" <$> bin_files files).
Proof.
  apply (load_bin_model_calls Demo.env Demo2.bin_cfg "bin" Demo.world0).
  vm_compute. reflexivity.
Defined.

Lemma load_hf_model_attributes_witness :
  ∃ hc pr model,
    auto_config Demo.env "hf" = Done hc
    ∧ auto_processor Demo.env "hf" = Done pr
    ∧ llava_from_pretrained Demo.env "hf" Float16 = Done model
    ∧ select_layer (self (snd (load_hf_model Demo.env VNone "hf" Demo.world0)))
      = Some (vision_feature_layer hc)
    ∧ select_feature (self (snd (load_hf_model Demo.env VNone "hf" Demo.world0)))
      = Some (vision_feature_select_strategy hc)
    ∧ image_processor (self (snd (load_hf_model Demo.env VNone "hf" Demo.world0)))
      = Some (processor_image_processor pr)
    ∧ vision_tower (self (snd (load_hf_model Demo.env VNone "hf" Demo.world0)))
      = Some (model_vision_tower model)
    ∧ device (self (snd (load_hf_model Demo.env VNone "hf" Demo.world0))) = None.
Proof.
  apply (load_hf_model_attributes Demo.env VNone "hf" Demo.world0).
  vm_compute. reflexivity.
Defined.

Lemma load_hf_model_weights_witness :
  ∃ files pw,
    listdir Demo.env "hf" = Done files
    ∧ projector_weights (self (snd (load_hf_model Demo.env VNone "hf" Demo.world0)))
      = Some pw
    ∧ (∀ k v, pw !! k = Some v →
         ∃ v0, hf_source Demo.env "hf" files k v0
               ∧ v = t_half (to_half Demo.env) v0)
    ∧ (∀ k v0, hf_source Demo.env "hf" files k v0 → is_Some (pw !! k)).
Proof.
  apply (load_hf_model_weights Demo.env VNone "hf" Demo.world0).
  vm_compute. reflexivity.
Defined.

Lemma load_hf_model_calls_witness :
  ∃ files,
    listdir Demo.env "hf" = Done files
    ∧ trace (snd (load_hf_model Demo.env VNone "hf" Demo.world0))
      = [] ++ [EvAutoConfig "hf"; EvAutoProcessor "hf";
               EvLlavaForConditionalGeneration "hf"; EvListdir "hf"]
        ++ (EvSafeOpen ∘ PyStr.path_join "hf" <$> safetensors_files files).
Proof.
  apply (load_hf_model_calls Demo.env VNone "hf" Demo.world0).
  vm_compute. reflexivity.
Defined.

Lemma load_model_attributes_witness :
  ∃ vt ip sl sf pw,
    Demo.loaded "hf"
    = mkLlavaVisionModel (Some vt) (Some Cpu) (Some ip) (Some sl) (Some sf) (Some pw)
    ∧ vt_requires_grad vt = false.
Proof.
  apply (load_model_attributes Demo.env "hf" Demo.world0).
  vm_compute. reflexivity.
Defined.

Lemma load_model_loose_succeeds_witness :
  fst (load_model Demo.env "bin" Demo.world0) = Ok tt.
Proof.
  apply (load_model_loose_succeeds Demo.env "bin" Demo.world0 Demo2.bin_cfg).
  - reflexivity.
  - intros H. repeat (apply elem_of_cons in H as [H|H]; [discriminate|]).
    by apply elem_of_nil in H.
  - apply demo_bin_answers.
  - intros k Hk. exists ["mm_projector.bin"; "config.json"]%string.
    unfold canonical_keys in Hk.
    repeat (apply elem_of_cons in Hk as [-> | Hk];
            [eexists; split; [reflexivity|];
             exists "mm_projector.bin"%string, Demo.bin_file;
             split; [by left|]; split; [reflexivity|]; split; [reflexivity|];
             split; [|reflexivity]; unfold Demo.bin_file; repeat constructor|]).
    by apply elem_of_nil in Hk.
Defined.

Lemma load_model_packaged_succeeds_witness :
  fst (load_model Demo.env "hf" Demo.world0) = Ok tt.
Proof.
  apply (load_model_packaged_succeeds Demo.env "hf" Demo.world0 Demo2.hf_cfg).
  - reflexivity.
  - unfold Demo2.hf_cfg. simpl. repeat constructor.
  - apply demo_hf_answers.
  - intros name Hname.
    exists ["config.json"; "model.safetensors"]%string, "model.safetensors"%string,
      Demo.hf_file.
    split; [reflexivity|]. split; [repeat constructor|].
    split; [reflexivity|]. split; [reflexivity|].
    simpl. by do 1 right.
Defined.

Lemma load_model_unusable_config_witness :
  load_model (Demo2.env_config (Failed "Permission denied")) "hf" Demo.world0
  = (Raise (External "Permission denied"), mkWorld init [EvOpen "hf/config.json"])
  ∧ load_model (Demo2.env_config (Done (VInt 7))) "hf" Demo.world0
    = (Raise TypeError, mkWorld init [EvOpen "hf/config.json"])
  ∧ load_model (Demo2.env_config (Done (VList [VStr "llava"]))) "hf" Demo.world0
    = (Raise (AttributeError "get"), mkWorld init [EvOpen "hf/config.json"])
  ∧ load_model (Demo2.env_config (Done (VStr "llava"))) "hf" Demo.world0
    = (Raise (AttributeError "get"), mkWorld init [EvOpen "hf/config.json"]).
Proof.
  split; [|split; [|split]].
  - apply (load_model_unusable_config
             (Demo2.env_config (Failed "Permission denied")) "hf" Demo.world0).
    reflexivity.
  - apply (proj1 (proj2 (load_model_unusable_config
                           (Demo2.env_config (Done (VInt 7))) "hf" Demo.world0))
             (VInt 7)); [reflexivity|].
    right. right. left. by exists 7%Z.
  - apply (proj1 (proj2 (proj2 (load_model_unusable_config
                                  (Demo2.env_config (Done (VList [VStr "llava"])))
                                  "hf" Demo.world0)))
             [VStr "llava"]); [reflexivity|].
    by repeat constructor.
  - apply (proj2 (proj2 (proj2 (load_model_unusable_config
                                  (Demo2.env_config (Done (VStr "llava")))
                                  "hf" Demo.world0)))
             "llava"%string); reflexivity.
Defined.

(** The accelerator of the installation takes every tensor and tower. *)
Lemma demo_takes (v : Tensor Z) : takes Demo.env v.
Proof. unfold takes, to_cuda. destruct (t_device v); simpl; by eexists. Qed.

Lemma demo_takes_tower (vt : VisionTower Z) : takes_tower Demo.env vt.
Proof. unfold takes_tower, vt_to_cuda. destruct (vt_device vt); simpl; by eexists. Qed.

(** Without a tower; after loading, with an accelerator that takes all;
    after loading, without a usable accelerator; and after loading, with
    an accelerator that has no room for the second weight matrix. *)
Lemma cuda_succeeds_iff_witness :
  cuda Demo.env Demo.world0 = (Raise (AttributeError "vision_tower"), Demo.world0)
  ∧ fst (cuda Demo.env (snd (load_model Demo.env "hf" Demo.world0))) = Ok tt
  ∧ fst (cuda Demo2.env_no_device (snd (load_model Demo.env "hf" Demo.world0)))
    = Raise (External "no CUDA-capable device is detected")
  ∧ ∃ k v msg,
      default ∅ (projector_weights (Demo.loaded "hf")) !! k = Some v
      ∧ to_cuda (Demo2.env_device [5; 3]) v = Failed msg
      ∧ External "CUDA out of memory" = External msg.
Proof.
  split; [|split; [|split]].
  - exact (proj1 (proj2 (cuda_succeeds_iff Demo.env Demo.world0)) eq_refl).
  - refine (proj2 (proj1 (cuda_succeeds_iff Demo.env
                            (snd (load_model Demo.env "hf" Demo.world0)))) _).
    exists (mkVisionTower Float16 Cpu false (vt_net Demo.tower)),
      (default ∅ (projector_weights (Demo.loaded "hf"))).
    split; [vm_compute; reflexivity|]. split; [vm_compute; reflexivity|].
    split; [apply demo_takes_tower|]. intros k v _. apply demo_takes.
  - refine (proj1 (proj1 (proj2 (proj2 (cuda_succeeds_iff Demo2.env_no_device
                            (snd (load_model Demo.env "hf" Demo.world0)))))
                     (mkVisionTower Float16 Cpu false (vt_net Demo.tower))
                     "no CUDA-capable device is detected" _ _)).
    + vm_compute. reflexivity.
    + reflexivity.
  - refine (proj2 (proj2 (proj2 (proj2 (cuda_succeeds_iff (Demo2.env_device [5; 3])
                            (snd (load_model Demo.env "hf" Demo.world0))))))
              (mkVisionTower Float16 Cpu false (vt_net Demo.tower))
              (default ∅ (projector_weights (Demo.loaded "hf")))
              (External "CUDA out of memory") _ _ _ _).
    + vm_compute. reflexivity.
    + eexists. reflexivity.
    + vm_compute. reflexivity.
    + vm_compute. reflexivity.
Defined.

Lemma cuda_keeps_settings_witness :
  device (Demo.ready "bin") = Some Cpu
  ∧ ∃ vt, vision_tower (Demo.ready "bin") = Some vt ∧ vt_device vt = Cuda.
Proof.
  apply (cuda_keeps_settings Demo.env "bin" Demo.world0); vm_compute; reflexivity.
Defined.

Lemma select_layer_bounds_witness :
  (∃ h, Demo.layer Float16 Cuda 1 <$> [0; 1; 2] !! 2 = Some h
        ∧ select_hidden Demo.env (Demo2.with_layer (VInt 2)) Demo2.one_tile = Ok h)
  ∧ forward Demo.env (Demo2.with_layer (VInt 3)) Demo2.one_tile = Raise IndexError
  ∧ forward Demo.env (Demo2.with_layer (VStr "last")) Demo2.one_tile = Raise TypeError.
Proof.
  split; [|split].
  - apply (proj1 (select_layer_bounds Demo.env (Demo2.with_layer (VInt 2))
                    Demo2.one_tile
                    (mkVisionTower Float16 Cuda false (vt_net Demo.tower))
                    (Demo.layer Float16 Cuda 1 <$> [0; 1; 2])
                    (demo_takes _)
                    ltac:(vm_compute; reflexivity) ltac:(vm_compute; reflexivity)) 2%Z);
      [reflexivity | simpl; lia].
  - apply (proj1 (proj2 (select_layer_bounds Demo.env (Demo2.with_layer (VInt 3))
                    Demo2.one_tile
                    (mkVisionTower Float16 Cuda false (vt_net Demo.tower))
                    (Demo.layer Float16 Cuda 1 <$> [0; 1; 2])
                    (demo_takes _)
                    ltac:(vm_compute; reflexivity) ltac:(vm_compute; reflexivity))) 3%Z);
      [reflexivity | simpl; lia].
  - apply (proj2 (proj2 (select_layer_bounds Demo.env (Demo2.with_layer (VStr "last"))
                    Demo2.one_tile
                    (mkVisionTower Float16 Cuda false (vt_net Demo.tower))
                    (Demo.layer Float16 Cuda 1 <$> [0; 1; 2])
                    (demo_takes _)
                    ltac:(vm_compute; reflexivity) ltac:(vm_compute; reflexivity)))
             (VStr "last")); [reflexivity | done | done].
Defined.

Lemma forward_output_shape_witness :
  ∃ emb kept d,
    forward Demo.env (Demo.ready "hf") Demo2.one_tile = Ok emb
    ∧ kept = 4 - 1
    ∧ t_shape emb = [1; kept; d].
Proof.
  assert (∃ emb, forward Demo.env (Demo.ready "hf") Demo2.one_tile = Ok emb)
    as [emb Hfwd] by (eexists; vm_compute; reflexivity).
  destruct (forward_output_shape Demo.env (Demo.ready "hf") Demo2.one_tile
              (Demo.layer Float16 Cuda 1 1) (VStr "default") emb 1 4 2)
    as (kept & d & Hpatch & _ & Hshape & _).
  - vm_compute. reflexivity.
  - reflexivity.
  - vm_compute. reflexivity.
  - exact Hfwd.
  - exists emb, kept, d. split; [exact Hfwd|]. split; [|exact Hshape].
    apply Hpatch. by right.
Defined.


Lemma encode_first_failure_witness :
  encode Demo.env (Demo.ready "hf")
    [ItImage Demo.imgA; ItImage Demo.lost; ItOther Demo.a_dict]
  = Raise (External "No such file or directory").
Proof.
  apply (proj1 (encode_first_failure Demo.env (Demo.ready "hf")
                  [Demo.imgA] [Demo2.one_tile] Demo.lost [ItOther Demo.a_dict]
                  ltac:(repeat constructor; vm_compute; congruence))).
  vm_compute. reflexivity.
Defined.

Lemma encode_ranges_partition_witness :
  ∃ emb us rs,
    encode Demo.env (Demo.ready "hf") [ItImage Demo.imgA; ItImage Demo.imgB]
    = Ok (Some (emb, us, rs))
    ∧ ∃ ims ts,
        [ItImage Demo.imgA; ItImage Demo.imgB] = ItImage <$> ims
        ∧ Forall2 (tiled Demo.env (Demo.ready "hf")) ims ts
        ∧ (∀ j, (0 ≤ j < Z.of_nat (sum_list (tile_count <$> ts)))%Z →
             ∃ i a b,
               rs !! i = Some [a; b]
               ∧ (a ≤ j < b)%Z
               ∧ ∀ i' a' b', rs !! i' = Some [a'; b'] → (a' ≤ j < b')%Z → i' = i)
        ∧ (∀ i a b, rs !! i = Some [a; b] →
             (0 ≤ a ≤ b)%Z ∧ (b ≤ Z.of_nat (sum_list (tile_count <$> ts)))%Z).
Proof.
  assert (∃ r, encode Demo.env (Demo.ready "hf")
                 [ItImage Demo.imgA; ItImage Demo.imgB] = Ok (Some r))
    as [[[emb us] rs] Henc] by (eexists; vm_compute; reflexivity).
  exists emb, us, rs. split; [exact Henc|].
  exact (encode_ranges_partition Demo.env (Demo.ready "hf") _ emb us rs Henc).
Defined.

Lemma encode_prefix_stable_witness :
  ∃ us1 rs1 us rs,
    (∃ emb1, encode Demo.env (Demo.ready "hf") [ItImage Demo.imgA]
             = Ok (Some (emb1, us1, rs1)))
    ∧ (∃ emb2, encode Demo.env (Demo.ready "hf")
                 ([ItImage Demo.imgA] ++ [ItImage Demo.imgB])
               = Ok (Some (emb2, us1 ++ us, rs1 ++ rs)))
    ∧ length us = 1 ∧ length rs = 1.
Proof.
  assert (∃ r, encode Demo.env (Demo.ready "hf") [ItImage Demo.imgA] = Ok (Some r))
    as [[[emb1 us1] rs1] Henc1] by (eexists; vm_compute; reflexivity).
  assert (∃ r, encode Demo.env (Demo.ready "hf")
                 ([ItImage Demo.imgA] ++ [ItImage Demo.imgB]) = Ok (Some r))
    as [[[emb2 us2] rs2] Henc2] by (eexists; vm_compute; reflexivity).
  destruct (encode_prefix_stable Demo.env (Demo.ready "hf") _ _ _ _ _ _ _ _ Henc1 Henc2)
    as (us & rs & Hus2 & Hrs2 & Hus & Hrs).
  exists us1, rs1, us, rs. split; [exists emb1; exact Henc1|].
  split; [exists emb2; rewrite <- Hus2, <- Hrs2; exact Henc2|].
  split; [exact Hus | exact Hrs].
Defined.

(** Three images of one tile each: the ranges are [[0,1]], [[1,2]] and
    [[2,3]]. *)
Lemma encode_single_tiles_witness :
  ∃ emb us rs,
    encode Demo.env (Demo.ready "hf")
      [ItImage Demo.imgA; ItImage Demo.imgA; ItImage Demo.imgA]
    = Ok (Some (emb, us, rs))
    ∧ length rs = 3
    ∧ (∀ i, i < 3 → rs !! i = Some [Z.of_nat i; (Z.of_nat i + 1)%Z])
    ∧ rs !! 1 = Some [1; 2]%Z
    ∧ rs !! 2 = Some [2; 3]%Z.
Proof.
  assert (∃ r, encode Demo.env (Demo.ready "hf")
                 [ItImage Demo.imgA; ItImage Demo.imgA; ItImage Demo.imgA]
               = Ok (Some r))
    as [[[emb us] rs] Henc] by (eexists; vm_compute; reflexivity).
  exists emb, us, rs. split; [exact Henc|].
  assert (∀ im t,
            ItImage im ∈ [ItImage Demo.imgA; ItImage Demo.imgA; ItImage Demo.imgA] →
            image_tiles Demo.env (Demo.ready "hf") im = Ok t → tile_count t = 1)
    as Hone.
  { clear Henc. intros im t Him Ht.
    assert (im = Demo.imgA) as ->.
    { repeat (apply elem_of_cons in Him as [Him | Him];
              [injection Him as ->; reflexivity|]).
      apply elem_of_nil in Him. contradiction. }
    assert (image_tiles Demo.env (Demo.ready "hf") Demo.imgA = Ok Demo2.one_tile)
      as Htile by (vm_compute; reflexivity).
    rewrite Htile in Ht. injection Ht as <-. reflexivity. }
  destruct (encode_single_tiles Demo.env (Demo.ready "hf")
              [ItImage Demo.imgA; ItImage Demo.imgA; ItImage Demo.imgA]
              emb us rs Henc Hone) as [Hlen Hall].
  split; [exact Hlen|]. split; [exact Hall|].
  split; [exact (Hall 1 ltac:(simpl; lia)) | exact (Hall 2 ltac:(simpl; lia))].
Defined.
